(** * pow: a terminal file explorer; model of [pow.py] and its properties

    The development follows the source file [pow.py] method by method.
    Part I embeds the program: Python strings, the stable [list.sort],
    the filesystem as a capability, and the methods of [FileExplorer]
    as state-passing functions.  Part II gives the vocabulary of the
    properties and a small world to run the model on; Part III states
    and proves the properties. *)

From Stdlib Require Import List ZArith QArith Bool Ascii String Lia.
From Stdlib.Strings Require Import Byte.
From Stdlib Require Import Floats Uint63.
From Stdlib Require Import Permutation Sorted DecimalString.
Import ListNotations.

Local Open Scope string_scope.
Local Open Scope Z_scope.

(* ================================================================== *)
(** * Part I: the program *)
(* ================================================================== *)

(** ** Python strings

    A [str] is modelled by [string], a sequence of 8-bit characters.
    [lower] is [str.lower] on its ASCII range, which is where
    [TEXT_EXTENSIONS] lives: no other character becomes a letter of
    an extension of that set.  The search hands its lower-cased
    strings to [fuzz.ratio] alone.  The sort key of [scan_directory]
    compares whole names, and takes [str.lower] from the runtime. *)

Definition is_upper (c : ascii) : bool :=
  (("A" <=? c) && (c <=? "Z"))%char.

Definition lower_char (c : ascii) : ascii :=
  if is_upper c then ascii_of_nat (nat_of_ascii c + 32) else c.

Fixpoint str_map (f : ascii -> ascii) (s : string) : string :=
  match s with
  | EmptyString => EmptyString
  | String c r => String (f c) (str_map f r)
  end.

Fixpoint str_filter (keep : ascii -> bool) (s : string) : string :=
  match s with
  | EmptyString => EmptyString
  | String c r => if keep c then String c (str_filter keep r) else str_filter keep r
  end.

(** [s.lower()] *)
Definition lower (s : string) : string := str_map lower_char s.

(** [s.startswith(p)] *)
Definition startswith (s p : string) : bool := String.prefix p s.

(** [not s]: the empty string is falsy. *)
Definition str_is_empty (s : string) : bool :=
  match s with EmptyString => true | String _ _ => false end.

(** [s.lstrip(...)], [s.rstrip(...)] and [s.strip(...)], the stripped
    characters given by a predicate. *)
Fixpoint lstrip (p : ascii -> bool) (s : string) : string :=
  match s with
  | EmptyString => EmptyString
  | String c r => if p c then lstrip p r else s
  end.

Fixpoint rstrip (p : ascii -> bool) (s : string) : string :=
  match s with
  | EmptyString => EmptyString
  | String c r =>
      let r' := rstrip p r in
      if p c && str_is_empty r' then EmptyString else String c r'
  end.

Definition strip (p : ascii -> bool) (s : string) : string :=
  lstrip p (rstrip p s).

(** The characters [str.isspace] accepts below code point 256. *)
Definition is_space (c : ascii) : bool :=
  let n := N_of_ascii c in
  ((9 <=? n) && (n <=? 13) || (28 <=? n) && (n <=? 32)
   || (n =? 133) || (n =? 160))%N.

(** [s.strip()] *)
Definition strip_ws (s : string) : string := strip is_space s.

(** [s[:-1]] *)
Fixpoint drop_last (s : string) : string :=
  match s with
  | EmptyString => EmptyString
  | String c r =>
      match r with
      | EmptyString => EmptyString
      | String _ _ => String c (drop_last r)
      end
  end.

(** [s + chr(k)] *)
Definition append_chr (s : string) (k : Z) : string :=
  s ++ String (ascii_of_N (Z.to_N k)) EmptyString.

(** [str(n)] for a Python [int]. *)
Definition str_of_int (n : Z) : string :=
  DecimalString.NilZero.string_of_int (Z.to_int n).

(* ------------------------------------------------------------------ *)
(** ** [FileExplorer.sanitize_filename] *)

Definition is_hyphen (c : ascii) : bool := (c =? "-")%char.

(** The class [[a-zA-Z0-9\-_]] of the regular expression. *)
Definition filename_char (c : ascii) : bool :=
  ((("a" <=? c) && (c <=? "z")) || (("A" <=? c) && (c <=? "Z"))
   || (("0" <=? c) && (c <=? "9")) || (c =? "-") || (c =? "_"))%char.

(** [title.replace(' ', '-')] *)
Definition spaces_to_hyphens (s : string) : string :=
  str_map (fun c => if (c =? " ")%char then "-"%char else c) s.

(** [re.sub(r'-+', '-', s)]: every maximal run of hyphens becomes one
    hyphen (all but the last hyphen of a run are dropped). *)
Fixpoint collapse_hyphens (s : string) : string :=
  match s with
  | EmptyString => EmptyString
  | String c r =>
      if is_hyphen c && startswith r "-" then collapse_hyphens r
      else String c (collapse_hyphens r)
  end.

(** The four rewriting steps of [sanitize_filename], before the test
    for the empty result. *)
Definition sanitize_steps (title : string) : string :=
  let filename := spaces_to_hyphens title in
  let filename := str_filter filename_char filename in
  let filename := collapse_hyphens filename in
  strip is_hyphen filename.

Definition sanitize_filename (title : string) : string :=
  let filename := sanitize_steps title in
  if str_is_empty filename then "untitled" else filename.

(* ------------------------------------------------------------------ *)
(** ** The scroll window of [FileExplorer.render_ui]

    [render_ui] computes [start_idx] and [end_idx] from the number of
    displayed items, the cursor and [available_rows]. *)

Definition visible_window (total cursor_position available_rows : Z) : Z * Z :=
  let start_idx := Z.max 0 (cursor_position - available_rows + 1) in
  let end_idx := Z.min total (start_idx + available_rows) in
  let start_idx :=
    if end_idx =? total then Z.max 0 (end_idx - available_rows) else start_idx in
  (start_idx, end_idx).

(* ------------------------------------------------------------------ *)
(** ** Python's [list.sort]

    [l.sort(key=k, reverse=r)] is a stable sort that compares keys
    with [<] only.  It is modelled by a stable insertion sort: an
    element is placed after the elements whose key is strictly
    smaller, so elements with equal keys keep the order they came
    in.  With [reverse=True] every comparison is reversed and
    stability is kept. *)

Section PySort.
Context {A K : Type}.
Variable key : A -> K.
Variable lt : K -> K -> bool.

Fixpoint insert_sorted (x : A) (l : list A) : list A :=
  match l with
  | [] => [x]
  | y :: l' => if lt (key y) (key x) then y :: insert_sorted x l' else x :: l
  end.

Definition stable_sort (l : list A) : list A :=
  fold_right insert_sorted [] l.

End PySort.

Definition py_sort {A K : Type} (key : A -> K) (lt : K -> K -> bool)
  (reverse : bool) (l : list A) : list A :=
  stable_sort key (if reverse then fun a b => lt b a else lt) l.

(** [a < b] on [bool], on pairs [(bool, str)] (tuples compare
    lexicographically) and on scores. *)
Definition bool_ltb (a b : bool) : bool := negb a && b.

Definition tuple_ltb (k1 k2 : bool * string) : bool :=
  bool_ltb (fst k1) (fst k2)
  || (Bool.eqb (fst k1) (fst k2) && String.ltb (snd k1) (snd k2)).

Definition Qltb (x y : Q) : bool := negb (Qle_bool y x).

(* ------------------------------------------------------------------ *)
(** ** Paths ([pathlib.Path])

    An absolute path is the list of its components below the root;
    the root is the empty list and is its own parent. *)

Definition path := list string.

Definition parent (p : path) : path := removelast p.

(** [p / name] *)
Definition joinpath (p : path) (name : string) : path := (p ++ [name])%list.

(** [p.name] *)
Definition path_name (p : path) : string := last p "".

Definition path_eqb (p q : path) : bool :=
  if list_eq_dec string_dec p q then true else false.

(** [name.rfind('.')] *)
Fixpoint rfind_dot (s : string) : option nat :=
  match s with
  | EmptyString => None
  | String c r =>
      match rfind_dot r with
      | Some i => Some (S i)
      | None => if (c =? ".")%char then Some O else None
      end
  end.

(** [p.suffix]: the part of the name from its last dot on, when that
    dot is neither the first nor the last character of the name
    ([0 < i < len(name) - 1] in pathlib). *)
Definition suffix (p : path) : string :=
  let name := path_name p in
  match rfind_dot name with
  | Some i =>
      if ((0 <? i) && (i <? String.length name - 1))%nat
      then substring i (String.length name - i) name
      else ""
  | None => ""
  end.

(* ------------------------------------------------------------------ *)
(** ** Exceptions and the operating system

    [PermissionError] is a subclass of [OSError]; [OtherOSError]
    stands for every other [OSError].  [input()] raises [EOFError]
    at the end of the input and [KeyboardInterrupt] on Ctrl-C. *)

Inductive os_error : Type := PermissionError | OtherOSError.

Inductive input_error : Type := EndOfInput | Interrupted.

Inductive exn : Type :=
| OSError (e : os_error)
| IndexError
| EOFError
| KeyboardInterrupt.

Definition input_exn (e : input_error) : exn :=
  match e with EndOfInput => EOFError | Interrupted => KeyboardInterrupt end.

Definition is_permission_error (e : exn) : bool :=
  match e with OSError PermissionError => true | _ => false end.

(** [except Exception]: [KeyboardInterrupt] is a [BaseException]
    only. *)
Definition is_exception (e : exn) : bool :=
  match e with KeyboardInterrupt => false | _ => true end.

(** What the program asks of its environment: the operating system
    and the Python runtime.  Observations do not change the world;
    [write_text] does.  [iterdir] gives the names of the children in
    the order the system lists them; [open_rb] gives the bytes of a
    file opened with mode ['rb'], or the error raised on opening it;
    [exists_] is [Path.exists], which answers [False] for a missing
    path and raises the other errors of [stat], [PermissionError]
    among them; [execvp] tells whether the process image was replaced
    by the editor; [input_] is [input()]; [str_lower] is [str.lower],
    which follows the Unicode database. *)
Class OS (W : Type) : Type := {
  cwd : W -> path;
  resolve : path -> W -> os_error + path;
  iterdir : path -> W -> os_error + list string;
  is_dir : path -> W -> os_error + bool;
  is_file : path -> W -> os_error + bool;
  exists_ : path -> W -> os_error + bool;
  open_rb : path -> W -> os_error + list byte;
  write_text : path -> W -> os_error + W;
  getenv_EDITOR : W -> option string;
  execvp : string -> path -> W -> bool;
  input_ : W -> input_error + unit;
  now_ymd : W -> string;
  str_lower : string -> string
}.

(** What a call does to files: it opens one, it asks for bytes of an
    open one. *)
Inductive io_event : Type :=
| Open (p : path)
| Read (p : path) (n : nat).

(* ------------------------------------------------------------------ *)
(** ** [TEXT_EXTENSIONS] and [FileExplorer.is_text_file] *)

Definition TEXT_EXTENSIONS : list string :=
  [ ".txt"; ".md"; ".py"; ".js"; ".json"; ".yaml"; ".yml";
    ".html"; ".css"; ".sh"; ".conf"; ".cfg"; ".ini"; ".log";
    ".sql"; ".xml"; ".csv"; ".toml"; ".rs"; ".go"; ".c"; ".cpp";
    ".h"; ".hpp"; ".java"; ".php"; ".rb"; ".pl"; ".ts"; ".jsx";
    ".tsx"; ".vue"; ".svelte"; ".scss"; ".sass"; ".less" ].

(** [x in TEXT_EXTENSIONS] *)
Definition in_text_extensions (x : string) : bool :=
  existsb (String.eqb x) TEXT_EXTENSIONS.

(** [bytes.decode('utf-8')] succeeds exactly on well-formed UTF-8:
    shortest forms only, no surrogates, nothing above U+10FFFF, no
    sequence cut short. *)
Definition in_range (lo hi : N) (b : byte) : bool :=
  ((lo <=? Byte.to_N b) && (Byte.to_N b <=? hi))%N.

Definition continuation (b : byte) : bool := in_range 128 191 b.

Fixpoint utf8_decodes (bs : list byte) : bool :=
  match bs with
  | [] => true
  | b0 :: r0 =>
      if in_range 0 127 b0 then utf8_decodes r0
      else if in_range 194 223 b0 then
        match r0 with
        | b1 :: r1 => continuation b1 && utf8_decodes r1
        | _ => false
        end
      else if in_range 224 239 b0 then
        match r0 with
        | b1 :: b2 :: r2 =>
            (if in_range 224 224 b0 then in_range 160 191 b1
             else if in_range 237 237 b0 then in_range 128 159 b1
             else continuation b1)
            && continuation b2 && utf8_decodes r2
        | _ => false
        end
      else if in_range 240 244 b0 then
        match r0 with
        | b1 :: b2 :: b3 :: r3 =>
            (if in_range 240 240 b0 then in_range 144 191 b1
             else if in_range 244 244 b0 then in_range 128 143 b1
             else continuation b1)
            && continuation b2 && continuation b3 && utf8_decodes r3
        | _ => false
        end
      else false
  end.

(** [c < 127 and (c >= 32 or c in [9, 10, 13])] *)
Definition printable (b : byte) : bool :=
  let c := Byte.to_N b in
  ((c <? 127) && ((32 <=? c) || (c =? 9) || (c =? 10) || (c =? 13)))%N.

Definition count_printable (chunk : list byte) : nat :=
  List.length (filter printable chunk).

(** [int / int] is the correctly rounded binary64 quotient; for
    operands below 2^53 it is the IEEE quotient of the two converted
    operands.  [0.8] is the double nearest to 4/5. *)
Definition float_of_Z (n : Z) : float := PrimFloat.of_uint63 (Uint63.of_Z n).

Definition true_div (a b : Z) : float :=
  PrimFloat.div (float_of_Z a) (float_of_Z b).

Definition float_0_8 : float := 0x1.999999999999ap-1%float.

(** [printable_ratio > 0.8] *)
Definition mostly_printable (chunk : list byte) : bool :=
  let printable_ratio :=
    true_div (Z.of_nat (count_printable chunk)) (Z.of_nat (List.length chunk)) in
  PrimFloat.ltb float_0_8 printable_ratio.

(** The body of [with open(path, 'rb') as f], given the chunk that
    [f.read(512)] returned. *)
Definition sniff (chunk : list byte) : bool :=
  match chunk with
  | [] => true
  | _ :: _ => if utf8_decodes chunk then mostly_printable chunk else false
  end.

(** [f.read(n)] on a freshly opened file. *)
Definition read (n : nat) (content : list byte) : list byte := firstn n content.

(* ------------------------------------------------------------------ *)
(** ** The state of a [FileExplorer]

    An item is the tuple [(name, is_dir, path)]. *)

Record Item : Type := mkItem {
  item_name : string;
  item_is_dir : bool;
  item_path : path
}.

Record FileExplorer : Type := mkFileExplorer {
  current_path : path;
  cursor_position : Z;
  items : list Item;
  search_mode : bool;
  search_query : string;
  filtered_items : list Item;
  note_mode : bool;
  note_title : string
}.

Definition set_current_path (v : path) (s : FileExplorer) : FileExplorer :=
  mkFileExplorer v (cursor_position s) (items s) (search_mode s)
    (search_query s) (filtered_items s) (note_mode s) (note_title s).

Definition set_cursor_position (v : Z) (s : FileExplorer) : FileExplorer :=
  mkFileExplorer (current_path s) v (items s) (search_mode s)
    (search_query s) (filtered_items s) (note_mode s) (note_title s).

Definition set_items (v : list Item) (s : FileExplorer) : FileExplorer :=
  mkFileExplorer (current_path s) (cursor_position s) v (search_mode s)
    (search_query s) (filtered_items s) (note_mode s) (note_title s).

Definition set_search_mode (v : bool) (s : FileExplorer) : FileExplorer :=
  mkFileExplorer (current_path s) (cursor_position s) (items s) v
    (search_query s) (filtered_items s) (note_mode s) (note_title s).

Definition set_search_query (v : string) (s : FileExplorer) : FileExplorer :=
  mkFileExplorer (current_path s) (cursor_position s) (items s) (search_mode s)
    v (filtered_items s) (note_mode s) (note_title s).

Definition set_filtered_items (v : list Item) (s : FileExplorer) : FileExplorer :=
  mkFileExplorer (current_path s) (cursor_position s) (items s) (search_mode s)
    (search_query s) v (note_mode s) (note_title s).

Definition set_note_mode (v : bool) (s : FileExplorer) : FileExplorer :=
  mkFileExplorer (current_path s) (cursor_position s) (items s) (search_mode s)
    (search_query s) (filtered_items s) v (note_title s).

Definition set_note_title (v : string) (s : FileExplorer) : FileExplorer :=
  mkFileExplorer (current_path s) (cursor_position s) (items s) (search_mode s)
    (search_query s) (filtered_items s) (note_mode s) v.

(** [len(l)] and the truth value of a list. *)
Definition len {A : Type} (l : list A) : Z := Z.of_nat (List.length l).

Definition nonempty {A : Type} (l : list A) : bool :=
  match l with [] => false | _ :: _ => true end.

(** [l[i]]: a negative index counts from the end; an index out of
    range raises [IndexError]. *)
Definition py_index {A : Type} (l : list A) (i : Z) : option A :=
  if (0 <=? i) && (i <? len l) then nth_error l (Z.to_nat i)
  else if (- len l <=? i) && (i <? 0) then nth_error l (Z.to_nat (len l + i))
  else None.

(** Key codes: [curses.KEY_DOWN], [curses.KEY_UP],
    [curses.KEY_BACKSPACE], [ord('q')] and [ord('/')]. *)
Definition KEY_DOWN : Z := 258.
Definition KEY_UP : Z := 259.
Definition KEY_BACKSPACE : Z := 263.
Definition ord_q : Z := 113.
Definition ord_slash : Z := 47.

(** [key in (127, curses.KEY_BACKSPACE, 8)] and [key in (10, 13)]. *)
Definition is_backspace (key : Z) : bool :=
  (key =? 127) || (key =? KEY_BACKSPACE) || (key =? 8).

Definition is_enter (key : Z) : bool := (key =? 10) || (key =? 13).

(* ------------------------------------------------------------------ *)
(** ** Methods as state-passing computations

    A method runs on the explorer ([self]) and the world and ends in
    one of four ways.  Assignments made before an exception stay
    made, as they do on a Python object. *)

Inductive outcome (A : Type) : Type :=
| Returned (a : A)   (* the method returned [a] *)
| Raised (e : exn)   (* an exception left the method *)
| Replaced           (* [os.execvp] succeeded: the process is now the editor *)
| Spinning.          (* a [while] loop had not ended when its fuel ran out *)

Arguments Returned {A} a.
Arguments Raised {A} e.
Arguments Replaced {A}.
Arguments Spinning {A}.

Definition M (W A : Type) : Type :=
  FileExplorer -> W -> outcome A * FileExplorer * W.

Definition ret {W A : Type} (a : A) : M W A :=
  fun self w => (Returned a, self, w).

Definition bind {W A B : Type} (c : M W A) (k : A -> M W B) : M W B :=
  fun self w =>
    match c self w with
    | (Returned a, self', w') => k a self' w'
    | (Raised e, self', w') => (Raised e, self', w')
    | (Replaced, self', w') => (Replaced, self', w')
    | (Spinning, self', w') => (Spinning, self', w')
    end.

Declare Scope py_scope.
Delimit Scope py_scope with py.
Notation "x <- c ;; k" := (bind c (fun x => k))
  (at level 61, c at next level, right associativity) : py_scope.
Notation "c ;; k" := (bind c (fun _ => k))
  (at level 61, right associativity) : py_scope.

(** [self.field = ...] *)
Definition assign {W : Type} (f : FileExplorer -> FileExplorer) : M W unit :=
  fun self w => (Returned tt, f self, w).

Definition get_self {W : Type} : M W FileExplorer :=
  fun self w => (Returned self, self, w).

Definition get_world {W : Type} : M W W :=
  fun self w => (Returned w, self, w).

Definition raise {W A : Type} (e : exn) : M W A :=
  fun self w => (Raised e, self, w).

(** A call that may raise an [OSError]. *)
Definition observe {W A : Type} (f : W -> os_error + A) : M W A :=
  fun self w =>
    match f w with
    | inr a => (Returned a, self, w)
    | inl e => (Raised (OSError e), self, w)
    end.

(** [try: c  except <catches>: handler] *)
Definition try_except {W A : Type} (c : M W A) (catches : exn -> bool)
  (handler : M W A) : M W A :=
  fun self w =>
    match c self w with
    | (Raised e, self', w') =>
        if catches e then handler self' w' else (Raised e, self', w')
    | r => r
    end.

(** [l[i]] as a computation. *)
Definition index {W A : Type} (l : list A) (i : Z) : M W A :=
  match py_index l i with
  | Some a => ret a
  | None => raise IndexError
  end.

(* ------------------------------------------------------------------ *)
(** ** The methods of [FileExplorer] *)

Section Methods.
Context {W : Type} `{OS W}.

(** [fuzz.ratio] of the rapidfuzz library: a similarity between 0 and
    100.  The float it returns is only compared, never computed
    with, so it is read as the rational number it denotes. *)
Variable ratio : string -> string -> Q.

Local Open Scope py_scope.

(** [open(path, 'rb')] and [f.read(n)], each with the event it
    leaves. *)
Definition open_traced (p : path) (w : W)
  : (os_error + list byte) * list io_event :=
  (open_rb p w, [Open p]).

Definition read_traced (p : path) (n : nat) (content : list byte)
  : list byte * list io_event :=
  (read n content, [Read p n]).

(** [is_text_file] returns its answer; the model pairs it with the
    events of the calls it made, in order. *)
Definition is_text_file (p : path) (w : W) : bool * list io_event :=
  if in_text_extensions (lower (suffix p)) then (true, [])
  else if str_is_empty (suffix p) then
    let (opened, opening) := open_traced p w in
    match opened with
    | inr content =>
        let (chunk, reading) := read_traced p 512 content in
        (sniff chunk, (opening ++ reading)%list)
    | inl _ => (false, opening)
    end
  else (false, []).

(** The file-name loop of [create_note]: [file_path] is tried, then
    the names with [counter], [counter + 1], ... appended to the
    stem.  The loop runs while the path exists, and an error of
    [exists] leaves it; [fuel] bounds the number of tests. *)
Fixpoint free_path_loop (fuel : nat) (dir : path) (filename : string)
  (counter : Z) (file_path : path) (w : W) : outcome path :=
  match fuel with
  | O => Spinning
  | S fuel' =>
      match exists_ file_path w with
      | inl e => Raised (OSError e)
      | inr true =>
          free_path_loop fuel' dir filename (counter + 1)
            (joinpath dir (filename ++ "-" ++ str_of_int counter ++ ".md")) w
      | inr false => Returned file_path
      end
  end.

Definition resolve_unique_path (fuel : nat) (dir : path) (filename : string)
  (w : W) : outcome path :=
  free_path_loop fuel dir filename 1 (joinpath dir (filename ++ ".md")) w.

(** [input("Press Enter to exit...")] *)
Definition press_enter : M W unit :=
  fun self w =>
    match input_ w with
    | inr _ => (Returned tt, self, w)
    | inl e => (Raised (input_exn e), self, w)
    end.

(** [open_file]: without an editor, or when [execvp] raises, a
    message is printed, the user is asked to press Enter and the
    method returns. *)
Definition open_file (file_path : path) : M W unit :=
  fun self w =>
    match getenv_EDITOR w with
    | None => press_enter self w
    | Some editor =>
        if str_is_empty editor then press_enter self w
        else if execvp editor file_path w then (Replaced, self, w)
        else press_enter self w
    end.

(** [file_path.write_text("")] *)
Definition write_empty (file_path : path) : M W unit :=
  fun self w =>
    match write_text file_path w with
    | inr w' => (Returned tt, self, w')
    | inl e => (Raised (OSError e), self, w)
    end.

(** [try: file_path.write_text("")], telling whether it raised. *)
Definition try_write_text (file_path : path) : M W bool :=
  try_except (write_empty file_path ;; ret true) is_exception (ret false).

(** The loop stands outside the [try]; the write and [open_file]
    stand inside it, under [except Exception]. *)
Definition create_note (fuel : nat) (title : string) : M W bool :=
  if str_is_empty (strip_ws title) then ret false
  else
    let filename := sanitize_filename (strip_ws title) in
    self <- get_self ;;
    w <- get_world ;;
    match resolve_unique_path fuel (current_path self) filename w with
    | Returned file_path =>
        try_except
          (write_empty file_path ;; open_file file_path ;; ret true)
          is_exception
          (ret false)
    | Raised e => raise e
    | Replaced => fun self w => (Replaced, self, w)
    | Spinning => fun self w => (Spinning, self, w)
    end.

Definition get_daily_note_filename (w : W) : string := now_ymd w ++ ".md".

(** [exists] stands outside the [try], the write inside it, and
    [open_file] after it. *)
Definition open_daily_note : M W bool :=
  self <- get_self ;;
  w <- get_world ;;
  let file_path := joinpath (current_path self) (get_daily_note_filename w) in
  present <- observe (exists_ file_path) ;;
  written <- (if present then ret true else try_write_text file_path) ;;
  if written then open_file file_path ;; ret true else ret false.

(** The body of the [for item in iterdir()] loop: the entries one
    child adds. *)
Definition scan_child (item : path) (w : W) : list Item :=
  if startswith (path_name item) "." then []
  else
    match is_dir item w with
    | inr true => [mkItem (path_name item ++ "/") true item]
    | inr false =>
        match is_file item w with
        | inr true =>
            if fst (is_text_file item w)
            then [mkItem (path_name item) false item] else []
        | inr false => []
        | inl _ => []
        end
    | inl _ => []
    end.

(** The sort key [(not x[1], x[0].lower())]. *)
Definition scan_key (x : Item) : bool * string :=
  (negb (item_is_dir x), str_lower (item_name x)).

Definition scan_directory : M W unit :=
  assign (set_items []) ;;
  self <- get_self ;;
  (if negb (path_eqb (current_path self) (parent (current_path self)))
   then assign (fun s =>
          set_items (items s ++ [mkItem "../" true (parent (current_path s))]) s)
   else ret tt) ;;
  try_except
    (children <- observe (iterdir (current_path self)) ;;
     w <- get_world ;;
     let entries :=
       flat_map (fun name => scan_child (joinpath (current_path self) name) w)
         children in
     let entries := py_sort scan_key tuple_ltb false entries in
     assign (fun s => set_items (items s ++ entries) s))
    is_permission_error
    (ret tt) ;;
  self <- get_self ;;
  if nonempty (items self) then
    assign (fun s =>
      set_cursor_position (Z.min (cursor_position s) (len (items s) - 1)) s) ;;
    assign (fun s => set_cursor_position (Z.max 0 (cursor_position s)) s)
  else assign (set_cursor_position 0).

(** [score > 40] for one item. *)
Definition search_score (query : string) (item : Item) : Q :=
  ratio (lower query) (lower (item_name item)).

Definition handle_search (query : string) (self : FileExplorer) : FileExplorer :=
  let self :=
    if str_is_empty query then set_filtered_items (items self) self
    else
      let matches :=
        filter (fun m => Qltb (40 # 1) (fst m))
          (map (fun item => (search_score query item, item)) (items self)) in
      let matches := py_sort fst Qltb true matches in
      set_filtered_items (map snd matches) self in
  set_cursor_position 0 self.

Definition navigate_to (p : path) : M W unit :=
  try_except
    (resolved <- observe (resolve p) ;;
     assign (set_current_path resolved) ;;
     assign (set_cursor_position 0) ;;
     assign (set_search_mode false) ;;
     assign (set_search_query "") ;;
     assign (set_note_mode false) ;;
     assign (set_note_title "") ;;
     scan_directory)
    is_permission_error
    (ret tt).

(** [selected = current_items[self.cursor_position]], then navigate
    or open. *)
Definition activate (current_items : list Item) (cursor : Z) : M W unit :=
  selected <- index current_items cursor ;;
  if item_is_dir selected then navigate_to (item_path selected)
  else open_file (item_path selected).

Definition handle_input (fuel : nat) (key : Z) : M W bool :=
  self <- get_self ;;
  let current_items :=
    if search_mode self then filtered_items self else items self in
  if search_mode self then
    (if key =? 27 then
       assign (set_search_mode false) ;;
       assign (set_search_query "") ;;
       assign (set_cursor_position 0)
     else if is_backspace key then
       assign (fun s => set_search_query (drop_last (search_query s)) s) ;;
       assign (fun s => handle_search (search_query s) s)
     else if is_enter key && nonempty current_items then
       activate current_items (cursor_position self)
     else if (32 <=? key) && (key <=? 126) then
       assign (fun s => set_search_query (append_chr (search_query s) key) s) ;;
       assign (fun s => handle_search (search_query s) s)
     else ret tt) ;;
    ret true
  else if note_mode self then
    (if key =? 27 then
       assign (set_note_mode false) ;;
       assign (set_note_title "")
     else if is_backspace key then
       assign (fun s => set_note_title (drop_last (note_title s)) s)
     else if is_enter key then
       (if negb (str_is_empty (strip_ws (note_title self)))
        then create_note fuel (note_title self) ;; ret tt
        else ret tt) ;;
       assign (set_note_mode false) ;;
       assign (set_note_title "")
     else if (32 <=? key) && (key <=? 126) then
       assign (fun s => set_note_title (append_chr (note_title s) key) s)
     else ret tt) ;;
    ret true
  else if key =? ord_q then ret false
  else
    (if key =? ord_slash then
       assign (set_search_mode true) ;;
       assign (set_search_query "") ;;
       assign (handle_search "")
     else if key =? 14 then
       assign (set_note_mode true) ;;
       assign (set_note_title "")
     else if key =? 4 then
       open_daily_note ;; ret tt
     else if (key =? KEY_UP) && nonempty current_items then
       assign (fun s => set_cursor_position (Z.max 0 (cursor_position s - 1)) s)
     else if (key =? KEY_DOWN) && nonempty current_items then
       assign (fun s =>
         set_cursor_position
           (Z.min (len current_items - 1) (cursor_position s + 1)) s)
     else if is_enter key && nonempty current_items then
       activate current_items (cursor_position self)
     else ret tt) ;;
    ret true.

(** [FileExplorer()] and the first scan of [run]. *)
Definition init (w : W) : FileExplorer :=
  mkFileExplorer (cwd w) 0 [] false "" [] false "".

End Methods.

(* ================================================================== *)
(** * Part II: the vocabulary of the properties *)
(* ================================================================== *)

(** ** Shapes of strings and lists *)

(** The letters, digits, hyphen and underscore, written out. *)
Definition filename_alphabet : string :=
  "abcdefghijklmnopqrstuvwxyzABCDEFGHIJKLMNOPQRSTUVWXYZ0123456789-_".

Definition chars (s : string) : list ascii := list_ascii_of_string s.

(** Boolean tests used in the proofs: a doubled hyphen somewhere, a
    hyphen at the end. *)
Fixpoint double_hyphen (s : string) : bool :=
  match s with
  | EmptyString => false
  | String c r => (is_hyphen c && startswith r "-") || double_hyphen r
  end.

Fixpoint ends_with_hyphen (s : string) : bool :=
  match s with
  | EmptyString => false
  | String c r => if str_is_empty r then is_hyphen c else ends_with_hyphen r
  end.

(** [l1] is [l2] with some elements left out, the others in place. *)
Inductive subsequence {A : Type} : list A -> list A -> Prop :=
| subsequence_nil : subsequence [] []
| subsequence_skip (x : A) (l1 l2 : list A) :
    subsequence l1 l2 -> subsequence l1 (x :: l2)
| subsequence_take (x : A) (l1 l2 : list A) :
    subsequence l1 l2 -> subsequence (x :: l1) (x :: l2).

Section Order.
Context {A K : Type}.
Variable key : A -> K.
Variable lt : K -> K -> bool.

(** [x] may stand before [y] in a sorted list: [y] is not smaller. *)
Definition in_order (x y : A) : Prop := lt (key y) (key x) = false.

End Order.

(** [z; z+1; ...], [n] numbers. *)
Fixpoint upto (n : nat) (z : Z) : list Z :=
  match n with
  | O => []
  | S n' => z :: upto n' (Z.succ z)
  end.

(** The specification's words for the bytes that count in the
    sniffing: printable ASCII, or tab, newline or carriage return. *)
Definition text_byte (b : byte) : bool :=
  let n := Byte.to_N b in
  (((32 <=? n) && (n <=? 126)) || (n =? 9) || (n =? 10) || (n =? 13))%N.

(** [count / total > 0.8], in exact arithmetic. *)
Definition exceeds_four_fifths (count total : Z) : bool :=
  4 * total <? 5 * count.

(** The binary64 test agrees with the exact one on every pair. *)
Definition float_test_exact_upto (n : nat) : bool :=
  let zs := upto (S n) 0 in
  forallb (fun total =>
    forallb (fun count =>
      Bool.eqb (PrimFloat.ltb float_0_8 (true_div count total))
               (exceeds_four_fifths count total)) zs) zs.

(** The [k]-th name tried for a stem: [stem.md], then [stem-1.md],
    [stem-2.md], ... *)
Definition candidate (dir : path) (stem : string) (k : nat) : path :=
  match k with
  | O => joinpath dir (stem ++ ".md")
  | S _ => joinpath dir (stem ++ "-" ++ str_of_int (Z.of_nat k) ++ ".md")
  end.

(** ** States of the explorer *)

Section ScanVocabulary.
Context {W : Type} `{OS W}.

(** The synthetic parent entry, absent at the root. *)
Definition parent_entries (dir : path) : list Item :=
  if path_eqb dir (parent dir) then [] else [mkItem "../" true (parent dir)].

(** What the loop and the sort make of the children. *)
Definition scanned_entries (dir : path) (children : list string) (w : W)
  : list Item :=
  py_sort scan_key tuple_ltb false
    (flat_map (fun name => scan_child (joinpath dir name) w) children).

(** The last statement of [scan_directory]. *)
Definition clamp_cursor (s : FileExplorer) : FileExplorer :=
  if nonempty (items s)
  then set_cursor_position
         (Z.max 0 (Z.min (cursor_position s) (len (items s) - 1))) s
  else set_cursor_position 0 s.

End ScanVocabulary.

(** The assignments [navigate_to] makes once the path is resolved,
    before it scans. *)
Definition entered (q : path) (self : FileExplorer) : FileExplorer :=
  set_note_title ""
    (set_note_mode false
       (set_search_query ""
          (set_search_mode false
             (set_cursor_position 0 (set_current_path q self))))).

(** The list the cursor moves in. *)
Definition active_list (self : FileExplorer) : list Item :=
  if search_mode self then filtered_items self else items self.

(** The cursor invariant of the specification: inside the active list,
    and 0 when that list is empty. *)
Definition cursor_ok (self : FileExplorer) : Prop :=
  match active_list self with
  | [] => cursor_position self = 0
  | _ :: _ => 0 <= cursor_position self < len (active_list self)
  end.

Section Reachability.
Context {W : Type} `{OS W}.
Variable ratio : string -> string -> Q.

(** The explorers the main loop can hold: the one [run] builds by
    scanning, and those a key event leads to.  Between two key events
    the world may change in any way. *)
Inductive reachable : FileExplorer -> W -> Prop :=
| reachable_run (w w' : W) (self' : FileExplorer) :
    scan_directory (init w) w = (Returned tt, self', w') ->
    reachable self' w'
| reachable_key (fuel : nat) (key : Z) (go_on : bool)
    (self self' : FileExplorer) (w w' : W) :
    reachable self w ->
    handle_input ratio fuel key self w = (Returned go_on, self', w') ->
    reachable self' w'
| reachable_world (self : FileExplorer) (w w' : W) :
    reachable self w -> reachable self w'.

End Reachability.

(** ** A similarity and a small filesystem to run the model on *)

(** [fuzz.ratio] as rapidfuzz documents it, to run the model on
    examples: the normalized Indel similarity, 200 times the length
    of a longest common subsequence over the sum of the lengths, and
    100 for two empty strings. *)
Fixpoint lcs_length (s : string) : string -> nat :=
  match s with
  | EmptyString => fun _ => O
  | String a s' =>
      fix inner (t : string) : nat :=
        match t with
        | EmptyString => O
        | String b t' =>
            if (a =? b)%char then S (lcs_length s' t')
            else Nat.max (lcs_length s' t) (inner t')
        end
  end.

Definition indel_ratio (s t : string) : Q :=
  let n := (String.length s + String.length t)%nat in
  match n with
  | O => 100 # 1
  | S _ => Z.of_nat (200 * lcs_length s t) # Pos.of_nat n
  end.

Definition item_ab : Item := mkItem "ab" false ["ab"].
Definition item_b : Item := mkItem "b" false ["b"].

(** A listing in which the second item matches the query ["b"]
    better than the first. *)
Definition two_matches : FileExplorer :=
  mkFileExplorer [] 0 [item_ab; item_b] true "" [] false "".

(** The search results for the query ["b"], shown in Search mode. *)
Definition searching : FileExplorer :=
  handle_search indel_ratio "b" two_matches.

(** A world is a list of paths with what is found there; the order of
    the list is the order in which [iterdir] lists the children. *)

Inductive node : Type :=
| Dir (readable : bool)
| File (content : list byte).

Definition toy_fs : Type := list (path * node).

Fixpoint lookup (p : path) (w : toy_fs) : option node :=
  match w with
  | [] => None
  | (q, n) :: w' => if path_eqb p q then Some n else lookup p w'
  end.

Definition toy_children (p : path) (w : toy_fs) : list string :=
  flat_map (fun e : path * node =>
              if nonempty (fst e) && path_eqb (parent (fst e)) p
              then [path_name (fst e)] else []) w.

Definition toy_iterdir (p : path) (w : toy_fs) : os_error + list string :=
  match lookup p w with
  | Some (Dir true) => inr (toy_children p w)
  | Some (Dir false) => inl PermissionError
  | Some (File _) => inl OtherOSError
  | None => inl OtherOSError
  end.

Definition toy_open_rb (p : path) (w : toy_fs) : os_error + list byte :=
  match lookup p w with
  | Some (File content) => inr content
  | _ => inl OtherOSError
  end.

Definition toy_write_text (p : path) (w : toy_fs) : os_error + toy_fs :=
  match lookup (parent p) w with
  | Some (Dir true) =>
      inr (filter (fun e => negb (path_eqb (fst e) p)) w ++ [(p, File [])])%list
  | Some (Dir false) => inl PermissionError
  | _ => inl OtherOSError
  end.

(** [stat] needs the right to search the directory of the path. *)
Definition toy_exists (p : path) (w : toy_fs) : os_error + bool :=
  match lookup (parent p) w with
  | Some (Dir false) => inl PermissionError
  | _ => inr (match lookup p w with Some _ => true | None => false end)
  end.

#[export] Instance toy_OS : OS toy_fs := {
  cwd := fun _ => ["home"];
  resolve := fun p _ => inr p;
  iterdir := toy_iterdir;
  is_dir := fun p w =>
    inr (match lookup p w with Some (Dir _) => true | _ => false end);
  is_file := fun p w =>
    inr (match lookup p w with Some (File _) => true | _ => false end);
  exists_ := toy_exists;
  open_rb := toy_open_rb;
  write_text := toy_write_text;
  getenv_EDITOR := fun _ => None;
  execvp := fun _ _ _ => true;
  input_ := fun _ => inr tt;
  now_ymd := fun _ => "2024-03-07";
  str_lower := lower
}.

(** The same system with the standard input at its end: [input()]
    raises [EOFError]. *)
Definition no_terminal_OS : OS toy_fs := {|
  cwd := fun _ => ["home"];
  resolve := fun p _ => inr p;
  iterdir := toy_iterdir;
  is_dir := fun p w =>
    inr (match lookup p w with Some (Dir _) => true | _ => false end);
  is_file := fun p w =>
    inr (match lookup p w with Some (File _) => true | _ => false end);
  exists_ := toy_exists;
  open_rb := toy_open_rb;
  write_text := toy_write_text;
  getenv_EDITOR := fun _ => None;
  execvp := fun _ _ _ => true;
  input_ := fun _ => inl EndOfInput;
  now_ymd := fun _ => "2024-03-07";
  str_lower := lower
|}.

Definition bytes_of (s : string) : list byte := list_byte_of_string s.

(** The directory of the specification's scanning example, with an
    unreadable directory and two notes added. *)
Definition home : toy_fs :=
  [ ([], Dir true);
    (["home"], Dir true);
    (["home"; "test.txt"], File (bytes_of "test"));
    (["home"; "subdir"], Dir true);
    (["home"; "script.py"], File (bytes_of "print('test')"));
    (["home"; "binary.bin"], File [x00; x01]);
    (["home"; ".hidden"], File (bytes_of "hidden"));
    (["home"; "secret"], Dir false);
    (["home"; "note.md"], File []);
    (["home"; "note-1.md"], File []) ].

(** A directory whose names differ in case, with two files without
    extension: a text and four bytes of which one is printable. *)
Definition projects : toy_fs :=
  [ ([], Dir true);
    (["projects"], Dir true);
    (["projects"; "Zeta.txt"], File (bytes_of "z"));
    (["projects"; "alpha.txt"], File (bytes_of "a"));
    (["projects"; "Beta"], Dir true);
    (["projects"; "archive"], Dir true);
    (["projects"; "LICENSE"], File (bytes_of "MIT License"));
    (["projects"; "core"], File [x00; x01; x02; x41]) ].

(** The explorer after the first scan of [home] and one press of the
    Down key: the cursor is on [secret/]. *)
Definition on_secret : FileExplorer :=
  snd (fst (handle_input indel_ratio 1 KEY_DOWN
              (snd (fst (scan_directory (init home) home))) home)).

(** ** Further vocabulary *)

(** What [handle_input] makes of a call it ends with [return True]. *)
Definition continue_after {W A : Type} (r : outcome A * FileExplorer * W)
  : outcome bool * FileExplorer * W :=
  match r with
  | (Returned _, s, w) => (Returned true, s, w)
  | (Raised e, s, w) => (Raised e, s, w)
  | (Replaced, s, w) => (Replaced, s, w)
  | (Spinning, s, w) => (Spinning, s, w)
  end.

(** The three modes of the explorer. *)
Definition browsing (self : FileExplorer) : Prop :=
  search_mode self = false /\ note_mode self = false.

Definition modes_exclusive (self : FileExplorer) : Prop :=
  search_mode self = true -> note_mode self = false.

(** [32 <= key <= 126] *)
Definition is_printable_key (key : Z) : bool := (32 <=? key) && (key <=? 126).

(** The explorer of [on_secret] after Enter: in the directory
    [secret], which cannot be listed. *)
Definition in_secret : FileExplorer :=
  snd (fst (handle_input indel_ratio 1 10 on_secret home)).

(** The cursor two rows down from the parent entry, on [subdir/], and
    the world after [subdir] has been removed by someone else. *)
Definition on_subdir : FileExplorer :=
  snd (fst (handle_input indel_ratio 1 KEY_DOWN on_secret home)).

Definition subdir_gone : toy_fs :=
  filter (fun e => negb (path_eqb (fst e) ["home"; "subdir"])) home.

(** In Search mode the results shown are those of the query shown,
    with the cursor on the first of them. *)
Definition search_current (ratio : string -> string -> Q)
  (self : FileExplorer) : Prop :=
  search_mode self = true ->
  handle_search ratio (search_query self) self = self.

(** The explorer of [on_secret] after the key [/]. *)
Definition in_search : FileExplorer :=
  snd (fst (handle_input indel_ratio 1 ord_slash on_secret home)).

(** The explorer of [on_secret] after Ctrl+N. *)
Definition in_note : FileExplorer :=
  snd (fst (handle_input indel_ratio 1 14 on_secret home)).

(** Outside of its mode a text field is empty. *)
Definition text_cleared (self : FileExplorer) : Prop :=
  (search_mode self = false -> search_query self = "")
  /\ (note_mode self = false -> note_title self = "").

(** A text of 511 letters and one two-byte character, in UTF-8, and a
    world that holds it in a file without extension. *)
Definition long_text : list byte := (repeat x61 511 ++ [xc3; xa9])%list.

Definition with_long_text : toy_fs :=
  [ ([], Dir true); (["README"], File long_text) ].

(** ** [FileExplorer.render_ui]

    What [render_ui] shows is the sequence of its calls
    [stdscr.addstr(row, 0, text)].  The strings it draws hold
    characters outside ASCII, and Python measures a string in code
    points, so a drawn string is the list of its code points. *)

Definition text : Type := list Z.

(** A string of the model as a drawn string. *)
Definition text_of (s : string) : text :=
  map (fun c => Z.of_N (N_of_ascii c)) (list_ascii_of_string s).

(** The index a slice bound [k] stands for in a sequence: counted from
    the end if negative, and cut to the sequence. *)
Definition slice_bound {A : Type} (t : list A) (k : Z) : nat :=
  Z.to_nat (if k <? 0 then Z.max 0 (len t + k) else Z.min k (len t)).

(** [t[:j]] and [t[i:]] *)
Definition slice_to {A : Type} (t : list A) (j : Z) : list A :=
  firstn (slice_bound t j) t.

Definition slice_from {A : Type} (t : list A) (i : Z) : list A :=
  skipn (slice_bound t i) t.

(** [range(a, b)] *)
Definition range (a b : Z) : list Z := upto (Z.to_nat (b - a)) a.

(** [str(path)] for an absolute path. *)
Definition str_of_path (p : path) : string :=
  match p with
  | [] => "/"
  | _ :: _ => fold_right (fun name rest => "/" ++ name ++ rest) "" p
  end.

(** The characters [▌], [◀], [•], [↑], [↓] and the two tree prefixes
    [└── ] and [├── ]. *)
Definition block_cursor : text := [9612].
Definition cursor_marker : text := [32; 9664].
Definition bullet : text := [8226].
Definition arrows : text := [8593; 8595].
Definition last_prefix : text := [9492; 9472; 9472; 32].
Definition tree_prefix : text := [9500; 9472; 9472; 32].

(** The header: the current path, its head replaced by three dots
    when it is too long. *)
Definition header_text (width : Z) (p : path) : text :=
  let path_str := text_of (str_of_path p) in
  if width - 1 <? len path_str
  then (text_of "..." ++ slice_from path_str (- (width - 4)))%list
  else path_str.

(** The search bar and the title bar: a label, the text typed so far
    and a block cursor if there is room for it. *)
Definition entry_bar (width : Z) (label typed : string) : text :=
  let bar := (text_of label ++ text_of typed)%list in
  let bar := if len bar <? width - 1 then (bar ++ block_cursor)%list else bar in
  slice_to bar (width - 1).

(** The line of entry [i] of [total] entries. *)
Definition display_line (width cursor_position total i : Z) (name : string)
  : text :=
  let prefix := if i =? total - 1 then last_prefix else tree_prefix in
  let display_line := (prefix ++ text_of name)%list in
  let display_line :=
    if i =? cursor_position then
      if len display_line <? width - 3 then (display_line ++ cursor_marker)%list
      else (slice_to display_line (width - 4) ++ cursor_marker)%list
    else display_line in
  if width - 1 <? len display_line then slice_to display_line (width - 1)
  else display_line.

(** The loop over the window: it stops when [row >= height - 2];
    [None] is an [IndexError] of [display_items[i]]. *)
Fixpoint draw_items (height width cursor_position : Z)
  (display_items : list Item) (indices : list Z) (row : Z)
  : option (list (Z * text)) :=
  match indices with
  | [] => Some []
  | i :: rest =>
      if height - 2 <=? row then Some []
      else
        match py_index display_items i with
        | None => None
        | Some item =>
            match draw_items height width cursor_position display_items
                    rest (row + 1) with
            | None => None
            | Some calls =>
                Some ((row,
                       display_line width cursor_position (len display_items)
                         i (item_name item)) :: calls)
            end
        end
  end.

Definition status_text (self : FileExplorer) (display_items : list Item)
  : text :=
  (if search_mode self then
     if nonempty display_items then
       text_of "[" ++ text_of (str_of_int (len (filtered_items self)))
       ++ text_of " of " ++ text_of (str_of_int (len (items self)))
       ++ text_of " items] " ++ bullet ++ text_of " ESC clear "
       ++ bullet ++ text_of " Enter open"
     else
       text_of "[0 of " ++ text_of (str_of_int (len (items self)))
       ++ text_of " items] " ++ bullet ++ text_of " ESC clear search"
   else if note_mode self then
     text_of "Enter note title " ++ bullet ++ text_of " ESC cancel "
     ++ bullet ++ text_of " Enter create"
   else
     text_of "[" ++ text_of (str_of_int (len (items self)))
     ++ text_of " items] " ++ bullet ++ text_of " " ++ arrows
     ++ text_of " navigate " ++ bullet ++ text_of " Enter open "
     ++ bullet ++ text_of " q quit " ++ bullet ++ text_of " / search "
     ++ bullet ++ text_of " Ctrl+N/D new daily/note")%list.

Definition no_files_text : text := text_of "No text files found".

(** The row of the first entry: below the header, the bar of the
    mode if there is one, and an empty line. *)
Definition list_top (self : FileExplorer) : Z :=
  if search_mode self || note_mode self then 3 else 2.

(** The calls [stdscr.addstr(row, 0, text)] of [render_ui], in order,
    on a window of [height] rows and [width] columns. *)
Definition render_ui (height width : Z) (self : FileExplorer)
  : option (list (Z * text)) :=
  let row := 0 in
  let header := [(row, header_text width (current_path self))] in
  let row := row + 1 in
  let bar :=
    if search_mode self then
      [(row, entry_bar width "Search: " (search_query self))]
    else if note_mode self then
      [(row, entry_bar width "New note title: " (note_title self))]
    else [] in
  let display_items :=
    if search_mode self then filtered_items self else items self in
  let row := if search_mode self || note_mode self then row + 1 else row in
  let row := row + 1 in
  let listing :=
    if nonempty display_items then
      let available_rows := height - row - 2 in
      let window :=
        visible_window (len display_items) (cursor_position self)
          available_rows in
      draw_items height width (cursor_position self) display_items
        (range (fst window) (snd window)) row
    else
      Some (if row <? height - 1 then [(row, no_files_text)] else []) in
  let status := status_text self display_items in
  let status :=
    if width - 1 <? len status then slice_to status (width - 1) else status in
  match listing with
  | Some calls => Some (header ++ bar ++ calls ++ [(height - 1, status)])%list
  | None => None
  end.

(** A call stays on its row inside the window. *)
Definition fits (height width : Z) (call : Z * text) : Prop :=
  0 <= fst call < height /\ len (snd call) <= width - 1.

(** The parts of [render_ui], named: the bar of the mode, a text cut
    to the window ([if len(t) > width - 1: t = t[:width-1]]), and the
    entries or the message shown instead. *)
Definition mode_bar (width : Z) (self : FileExplorer) : list (Z * text) :=
  if search_mode self then
    [(1, entry_bar width "Search: " (search_query self))]
  else if note_mode self then
    [(1, entry_bar width "New note title: " (note_title self))]
  else [].

Definition clip (width : Z) (t : text) : text :=
  if width - 1 <? len t then slice_to t (width - 1) else t.

Definition listing (height width : Z) (self : FileExplorer)
  : option (list (Z * text)) :=
  let display_items := active_list self in
  let row := list_top self in
  if nonempty display_items then
    let window :=
      visible_window (len display_items) (cursor_position self)
        (height - row - 2) in
    draw_items height width (cursor_position self) display_items
      (range (fst window) (snd window)) row
  else Some (if row <? height - 1 then [(row, no_files_text)] else []).

(* ================================================================== *)
(** * Part III: properties *)
(* ================================================================== *)

(** ** The scroll window *)

(** C5: for a cursor inside a non-empty list and a positive number of
    rows, the window holds the cursor, stays inside the list and
    shows as many items as fit; the two windows of the specification
    are computed. *)
Theorem visible_window_spec :
  (forall total cursor rows : Z,
      0 <= total -> 0 <= cursor < total -> 0 < rows ->
      let (start_idx, end_idx) := visible_window total cursor rows in
      start_idx <= cursor < end_idx
      /\ 0 <= start_idx
      /\ end_idx <= total
      /\ end_idx - start_idx = Z.min total rows)
  /\ visible_window 10 9 3 = (7, 10)
  /\ visible_window 10 0 3 = (0, 3).
Proof.
  split; [ | split; reflexivity ].
  intros total cursor rows Htotal Hcursor Hrows.
  unfold visible_window.
  destruct (Z.eqb_spec
              (Z.min total (Z.max 0 (cursor - rows + 1) + rows)) total) as [E | E];
    lia.
Qed.

Lemma visible_window_spec_witness :
  let (start_idx, end_idx) := visible_window 7 6 4 in
  start_idx <= 6 < end_idx /\ 0 <= start_idx /\ end_idx <= 7
  /\ end_idx - start_idx = Z.min 7 4.
Proof.
  apply (proj1 visible_window_spec 7 6 4); lia.
Defined.

(** ** [sanitize_filename] *)

Example sanitize_multiple_hyphens :
  sanitize_filename "multiple---hyphens" = "multiple-hyphens".
Proof. reflexivity. Qed.

Example sanitize_keeps_safe_names :
  sanitize_filename "123-abc_def" = "123-abc_def".
Proof. reflexivity. Qed.

Lemma startswith_hyphen (s : string) :
  startswith s "-" = match s with
                     | EmptyString => false
                     | String c _ => is_hyphen c
                     end.
Proof.
  destruct s as [| c r]; [reflexivity |].
  unfold startswith. cbn [String.prefix].
  destruct (ascii_dec "-" c) as [<- | Hne].
  - now destruct r.
  - unfold is_hyphen. symmetry. apply Ascii.eqb_neq. congruence.
Qed.

Arguments startswith : simpl never.

Lemma filename_char_alphabet (c : ascii) :
  filename_char c = true -> In c (chars filename_alphabet).
Proof.
  intros Hc.
  assert (Hb : existsb (Ascii.eqb c) (chars filename_alphabet) = true).
  { revert Hc.
    destruct c as [b0 b1 b2 b3 b4 b5 b6 b7].
    destruct b0, b1, b2, b3, b4, b5, b6, b7;
      vm_compute; intros Hc; (reflexivity || discriminate Hc). }
  apply existsb_exists in Hb as (x & Hin & Hx).
  apply Ascii.eqb_eq in Hx. now subst.
Qed.

Lemma chars_str_filter (keep : ascii -> bool) (s : string) (c : ascii) :
  In c (chars (str_filter keep s)) -> keep c = true.
Proof.
  induction s as [| a r IH]; simpl; [tauto |].
  destruct (keep a) eqn:Ha; simpl; [| exact IH].
  intros [<- | Hin]; auto.
Qed.

Lemma chars_collapse_hyphens (s : string) (c : ascii) :
  In c (chars (collapse_hyphens s)) -> In c (chars s).
Proof.
  induction s as [| a r IH]; simpl; [tauto |].
  destruct (is_hyphen a && startswith r "-"); simpl; tauto.
Qed.

Lemma chars_lstrip (p : ascii -> bool) (s : string) (c : ascii) :
  In c (chars (lstrip p s)) -> In c (chars s).
Proof.
  induction s as [| a r IH]; simpl; [tauto |].
  destruct (p a); simpl; tauto.
Qed.

Lemma chars_rstrip (p : ascii -> bool) (s : string) (c : ascii) :
  In c (chars (rstrip p s)) -> In c (chars s).
Proof.
  induction s as [| a r IH]; simpl; [tauto |].
  destruct (p a && str_is_empty (rstrip p r)); simpl; tauto.
Qed.

Lemma chars_sanitize_steps (title : string) (c : ascii) :
  In c (chars (sanitize_steps title)) -> In c (chars filename_alphabet).
Proof.
  unfold sanitize_steps, strip. intros Hin.
  apply chars_lstrip, chars_rstrip, chars_collapse_hyphens in Hin.
  apply chars_str_filter in Hin. now apply filename_char_alphabet.
Qed.

Lemma double_hyphen_sound (s1 s2 : string) :
  double_hyphen (s1 ++ "--" ++ s2) = true.
Proof.
  induction s1 as [| a r IH]; cbn [append double_hyphen] in *.
  - rewrite startswith_hyphen. reflexivity.
  - rewrite IH. apply orb_true_r.
Qed.

Lemma ends_with_hyphen_sound (s : string) :
  ends_with_hyphen (s ++ "-") = true.
Proof.
  induction s as [| a r IH]; simpl; [reflexivity |].
  destruct (r ++ "-") eqn:E; [destruct r; discriminate E |].
  exact IH.
Qed.

Lemma collapse_startswith (s : string) :
  startswith (collapse_hyphens s) "-" = startswith s "-".
Proof.
  induction s as [| a r IH]; simpl; [reflexivity |].
  destruct (is_hyphen a && startswith r "-") eqn:E.
  - apply andb_true_iff in E as [Ha Hr].
    rewrite IH, Hr, (startswith_hyphen (String a r)). now symmetry.
  - now rewrite !startswith_hyphen.
Qed.

Lemma collapse_no_double (s : string) :
  double_hyphen (collapse_hyphens s) = false.
Proof.
  induction s as [| a r IH]; simpl; [reflexivity |].
  destruct (is_hyphen a && startswith r "-") eqn:E; [exact IH |].
  simpl. now rewrite IH, collapse_startswith, E.
Qed.

Lemma lstrip_no_double (p : ascii -> bool) (s : string) :
  double_hyphen s = false -> double_hyphen (lstrip p s) = false.
Proof.
  induction s as [| a r IH]; simpl; [auto |].
  destruct (p a); [| simpl; auto].
  intros Hd. apply orb_false_iff in Hd as [_ Hd]. auto.
Qed.

Lemma rstrip_startswith (p : ascii -> bool) (s : string) :
  startswith (rstrip p s) "-" = true -> startswith s "-" = true.
Proof.
  rewrite !startswith_hyphen.
  destruct s as [| a r]; simpl; [auto |].
  destruct (p a && str_is_empty (rstrip p r)); [discriminate | auto].
Qed.

Lemma rstrip_no_double (p : ascii -> bool) (s : string) :
  double_hyphen s = false -> double_hyphen (rstrip p s) = false.
Proof.
  induction s as [| a r IH]; simpl; [auto |].
  intros Hd. apply orb_false_iff in Hd as [Hhead Htail].
  destruct (p a && str_is_empty (rstrip p r)); [reflexivity |].
  simpl. rewrite (IH Htail), orb_false_r.
  destruct (is_hyphen a); [| reflexivity]. simpl in *.
  destruct (startswith (rstrip p r) "-") eqn:E; [| reflexivity].
  apply rstrip_startswith in E. congruence.
Qed.

Lemma lstrip_no_leading (s : string) :
  startswith (lstrip is_hyphen s) "-" = false.
Proof.
  induction s as [| a r IH]; simpl; [reflexivity |].
  destruct (is_hyphen a) eqn:E; [exact IH |].
  now rewrite startswith_hyphen.
Qed.

Lemma rstrip_no_trailing (s : string) :
  ends_with_hyphen (rstrip is_hyphen s) = false.
Proof.
  induction s as [| a r IH]; simpl; [reflexivity |].
  destruct (is_hyphen a && str_is_empty (rstrip is_hyphen r)) eqn:E;
    [reflexivity |].
  simpl. destruct (str_is_empty (rstrip is_hyphen r)); [| exact IH].
  now rewrite andb_true_r in E.
Qed.

Lemma lstrip_no_trailing (p : ascii -> bool) (s : string) :
  ends_with_hyphen s = false -> ends_with_hyphen (lstrip p s) = false.
Proof.
  induction s as [| a r IH]; simpl; [auto |].
  destruct (p a); [| simpl; auto].
  intros He. apply IH.
  destruct r as [| b t]; [reflexivity | exact He].
Qed.

(** A string that passes the three tests has the shape C6 asks for. *)
Lemma tests_give_shape (r : string) :
  double_hyphen r = false ->
  startswith r "-" = false ->
  ends_with_hyphen r = false ->
  (forall s1 s2, r <> s1 ++ "--" ++ s2)
  /\ (forall s, r <> String "-" s)
  /\ (forall s, r <> s ++ "-").
Proof.
  intros Hd Hl Ht. repeat split.
  - intros s1 s2 ->. rewrite double_hyphen_sound in Hd. discriminate.
  - intros s ->. rewrite startswith_hyphen in Hl. discriminate.
  - intros s ->. rewrite ends_with_hyphen_sound in Ht. discriminate.
Qed.

Lemma sanitize_steps_shape (title : string) :
  double_hyphen (sanitize_steps title) = false
  /\ startswith (sanitize_steps title) "-" = false
  /\ ends_with_hyphen (sanitize_steps title) = false.
Proof.
  unfold sanitize_steps, strip. repeat split.
  - apply lstrip_no_double, rstrip_no_double, collapse_no_double.
  - apply lstrip_no_leading.
  - apply lstrip_no_trailing, rstrip_no_trailing.
Qed.

(** C6: the sanitized title is made of letters, digits, hyphens and
    underscores, has no doubled hyphen and no hyphen at either end;
    it is ["untitled"] when the rewriting steps leave nothing and
    their result otherwise; the four titles of the specification are
    computed. *)
Theorem sanitize_filename_spec :
  (forall title : string,
      let r := sanitize_filename title in
      (forall c, In c (chars r) -> In c (chars filename_alphabet))
      /\ (forall s1 s2, r <> s1 ++ "--" ++ s2)
      /\ (forall s, r <> String "-" s)
      /\ (forall s, r <> s ++ "-")
      /\ (sanitize_steps title = "" -> r = "untitled")
      /\ (sanitize_steps title <> "" -> r = sanitize_steps title))
  /\ sanitize_filename "My Note Title" = "My-Note-Title"
  /\ sanitize_filename "test!@#$%^&*()note" = "testnote"
  /\ sanitize_filename "  spaced  note  " = "spaced-note"
  /\ sanitize_filename "" = "untitled".
Proof.
  split; [| repeat split; reflexivity].
  intros title r. subst r. unfold sanitize_filename.
  destruct (sanitize_steps_shape title) as (Hd & Hl & Ht).
  pose proof (chars_sanitize_steps title) as Hc.
  destruct (sanitize_steps title) as [| a t] eqn:E; simpl.
  - split.
    { intros c Hin. apply filename_char_alphabet.
      simpl in Hin.
      repeat (destruct Hin as [<- | Hin]; [reflexivity |]). contradiction. }
    assert (Hshape := tests_give_shape "untitled" eq_refl eq_refl eq_refl).
    destruct Hshape as (H1 & H2 & H3).
    repeat split; auto. congruence.
  - split; [exact Hc |].
    destruct (tests_give_shape (String a t) Hd Hl Ht) as (H1 & H2 & H3).
    repeat split; auto. discriminate.
Qed.

(** ** The stable sort *)

Section SortFacts.
Context {A K : Type}.
Variable key : A -> K.
Variable lt : K -> K -> bool.

Lemma insert_sorted_perm (x : A) (l : list A) :
  Permutation (insert_sorted key lt x l) (x :: l).
Proof.
  induction l as [| y l IH]; simpl; [reflexivity |].
  destruct (lt (key y) (key x)); [| reflexivity].
  rewrite IH. apply perm_swap.
Qed.

Lemma stable_sort_perm (l : list A) : Permutation (stable_sort key lt l) l.
Proof.
  induction l as [| x l IH]; simpl; [reflexivity |].
  rewrite insert_sorted_perm. now constructor.
Qed.

(** Elements that no comparison puts one before the other keep their
    order: the sort is stable. *)
Lemma insert_sorted_filter (p : A -> bool) (x : A) (l : list A) :
  (forall y, In y l -> p x = true -> p y = true -> lt (key y) (key x) = false) ->
  filter p (insert_sorted key lt x l) = filter p (x :: l).
Proof.
  induction l as [| y l IH]; intros Hxy; [reflexivity |].
  cbn [insert_sorted].
  destruct (lt (key y) (key x)) eqn:E; [| reflexivity].
  cbn [filter]. rewrite IH by (intros z Hz; apply Hxy; now right).
  cbn [filter].
  destruct (p x) eqn:Hx, (p y) eqn:Hy; try reflexivity.
  rewrite Hxy in E; [discriminate | now left | reflexivity | exact Hy].
Qed.

Lemma stable_sort_filter (p : A -> bool) (l : list A) :
  (forall x y, p x = true -> p y = true -> lt (key y) (key x) = false) ->
  filter p (stable_sort key lt l) = filter p l.
Proof.
  intros Hp. induction l as [| x l IH]; [reflexivity |].
  cbn [stable_sort fold_right].
  change (fold_right (insert_sorted key lt) [] l) with (stable_sort key lt l).
  rewrite insert_sorted_filter by (intros; now apply Hp).
  cbn [filter]. now rewrite IH.
Qed.

Hypothesis lt_asym : forall a b, lt a b = true -> lt b a = false.
Hypothesis le_trans :
  forall a b c, lt b a = false -> lt c b = false -> lt c a = false.

Lemma insert_sorted_sorted (x : A) (l : list A) :
  StronglySorted (in_order key lt) l ->
  StronglySorted (in_order key lt) (insert_sorted key lt x l).
Proof.
  induction l as [| y l IH]; intros Hs; simpl.
  - repeat constructor.
  - inversion Hs as [| ? ? Hl Hy]; subst.
    destruct (lt (key y) (key x)) eqn:E.
    + constructor; [now apply IH |].
      eapply Permutation_Forall; [symmetry; apply insert_sorted_perm |].
      constructor; [| exact Hy].
      unfold in_order. now apply lt_asym.
    + constructor; [exact Hs |].
      constructor; [exact E |].
      eapply Forall_impl; [| exact Hy].
      intros z Hz. unfold in_order in *. eapply le_trans; eassumption.
Qed.

Lemma stable_sort_sorted (l : list A) :
  StronglySorted (in_order key lt) (stable_sort key lt l).
Proof.
  induction l as [| x l IH]; simpl; [constructor |].
  now apply insert_sorted_sorted.
Qed.

End SortFacts.

(** ** Order on scores and on strings *)

Lemma Qltb_lt (x y : Q) : Qltb x y = true <-> (x < y)%Q.
Proof.
  unfold Qltb. rewrite negb_true_iff, <- not_true_iff_false, Qle_bool_iff.
  split; [apply Qnot_le_lt | apply Qlt_not_le].
Qed.

Lemma Qltb_ge (x y : Q) : Qltb x y = false <-> (y <= x)%Q.
Proof.
  unfold Qltb. now rewrite negb_false_iff, Qle_bool_iff.
Qed.

Lemma ascii_compare_N (a b : ascii) :
  Ascii.compare a b = N.compare (N_of_ascii a) (N_of_ascii b).
Proof. reflexivity. Qed.

(** [s <= t] on strings, as "not [t < s]", is transitive. *)
Lemma string_le_trans (a b c : string) :
  String.ltb b a = false -> String.ltb c b = false -> String.ltb c a = false.
Proof.
  unfold String.ltb. revert a b.
  induction c as [| c0 c IH]; intros a b Hab Hbc.
  - destruct b as [| b0 b]; [| discriminate Hbc].
    destruct a as [| a0 a]; [reflexivity | discriminate Hab].
  - destruct a as [| a0 a]; [reflexivity |].
    destruct b as [| b0 b]; [discriminate Hab |].
    simpl in *. rewrite ascii_compare_N in *.
    destruct (N.compare_spec (N_of_ascii b0) (N_of_ascii a0)) as [E1 | E1 | E1];
      destruct (N.compare_spec (N_of_ascii c0) (N_of_ascii b0)) as [E2 | E2 | E2];
      try discriminate;
      destruct (N.compare_spec (N_of_ascii c0) (N_of_ascii a0)) as [E3 | E3 | E3];
      try reflexivity; try lia.
    eapply IH; eassumption.
Qed.

Lemma string_lt_asym (a b : string) :
  String.ltb a b = true -> String.ltb b a = false.
Proof.
  unfold String.ltb. rewrite (String.compare_antisym b a).
  destruct (String.compare a b); simpl; congruence.
Qed.

Lemma tuple_lt_asym (a b : bool * string) :
  tuple_ltb a b = true -> tuple_ltb b a = false.
Proof.
  destruct a as [x s], b as [y t]. unfold tuple_ltb, bool_ltb. simpl.
  destruct x, y; simpl; try congruence. all: apply string_lt_asym.
Qed.

Lemma tuple_le_trans (a b c : bool * string) :
  tuple_ltb b a = false -> tuple_ltb c b = false -> tuple_ltb c a = false.
Proof.
  destruct a as [x s], b as [y t], c as [z u]. unfold tuple_ltb, bool_ltb. simpl.
  destruct x, y, z; simpl; try congruence. all: apply string_le_trans.
Qed.

(** ** [handle_search] *)

Lemma subsequence_filter {A : Type} (p : A -> bool) (l : list A) :
  subsequence (filter p l) l.
Proof.
  induction l as [| x l IH]; simpl; [constructor |].
  destruct (p x); now constructor.
Qed.

Lemma StronglySorted_map {A B : Type} (f : A -> B) (R : B -> B -> Prop)
  (l : list A) :
  StronglySorted (fun x y => R (f x) (f y)) l -> StronglySorted R (map f l).
Proof.
  induction 1 as [| x l Hs IH Hx]; simpl; constructor; [exact IH |].
  now apply Forall_map.
Qed.

Lemma StronglySorted_impl_on {A : Type} (P : A -> Prop) (R R' : A -> A -> Prop)
  (l : list A) :
  (forall x y, P x -> P y -> R x y -> R' x y) ->
  Forall P l -> StronglySorted R l -> StronglySorted R' l.
Proof.
  intros Himp HP Hs. induction Hs as [| x l Hs IH Hx]; constructor.
  - apply IH. now inversion HP.
  - inversion HP as [| ? ? Px Pl]; subst.
    rewrite Forall_forall in *. intros y Hy. apply Himp; auto.
Qed.

Section SearchFacts.
Variable ratio : string -> string -> Q.
Variable query : string.

Let score : Item -> Q := search_score ratio query.
Let scored (l : list Item) : list (Q * Item) :=
  map (fun item => (score item, item)) l.
Let tagged (m : Q * Item) : Prop := fst m = score (snd m).

Lemma scored_tagged (l : list Item) (q : Q -> bool) :
  Forall tagged (filter (fun m => q (fst m)) (scored l)).
Proof.
  apply Forall_forall. intros m Hm.
  apply filter_In in Hm as [Hm _].
  apply in_map_iff in Hm as (it & <- & _). reflexivity.
Qed.

Lemma map_snd_filter_scored (l : list Item) (q : Q -> bool) :
  map snd (filter (fun m => q (fst m)) (scored l))
  = filter (fun it => q (score it)) l.
Proof.
  induction l as [| it l IH]; simpl; [reflexivity |].
  destruct (q (score it)); simpl; now rewrite IH.
Qed.

Lemma map_snd_filter_tagged (l : list (Q * Item)) (q : Q -> bool) :
  Forall tagged l ->
  map snd (filter (fun m => q (fst m)) l)
  = filter (fun it => q (score it)) (map snd l).
Proof.
  induction 1 as [| m l Hm Hl IH]; simpl; [reflexivity |].
  rewrite <- Hm. destruct (q (fst m)); simpl; now rewrite IH.
Qed.

Lemma handle_search_filtered (self : FileExplorer) :
  query <> "" ->
  filtered_items (handle_search ratio query self)
  = map snd
      (stable_sort fst (fun a b => Qltb b a)
         (filter (fun m => Qltb (40 # 1) (fst m)) (scored (items self)))).
Proof.
  intros Hq. unfold handle_search.
  destruct query; [congruence | reflexivity].
Qed.

End SearchFacts.

(** C2, as amended: for a non-empty query the filtered list is a
    rearrangement of the subsequence of the items whose score is
    above 40; every item in it scores above 40; the scores do not
    increase along it; and the items of each score stand in the order
    they have in the item list. *)
Theorem handle_search_ranks (ratio : string -> string -> Q) (query : string)
  (self : FileExplorer) :
  query <> "" ->
  let score := search_score ratio query in
  let kept := filter (fun it => Qltb (40 # 1) (score it)) (items self) in
  let result := filtered_items (handle_search ratio query self) in
  subsequence kept (items self)
  /\ Permutation result kept
  /\ Forall (fun it => (40 # 1 < score it)%Q) result
  /\ StronglySorted (fun a b => (score b <= score a)%Q) result
  /\ (forall s : Q,
        filter (fun it => Qeq_bool (score it) s) result
        = filter (fun it => Qeq_bool (score it) s) kept).
Proof.
  intros Hq score kept result. subst score.
  set (matches := filter (fun m : Q * Item => Qltb (40 # 1) (fst m))
                    (map (fun item => (search_score ratio query item, item))
                       (items self))).
  set (sorted := stable_sort fst (fun a b => Qltb b a) matches).
  assert (Hres : result = map snd sorted)
    by (apply handle_search_filtered; exact Hq).
  assert (Hkept : map snd matches = kept)
    by (apply (map_snd_filter_scored ratio query (items self) (Qltb (40 # 1)))).
  assert (Hperm : Permutation result kept).
  { rewrite Hres, <- Hkept. apply Permutation_map, stable_sort_perm. }
  assert (Htag : Forall (fun m => fst m = search_score ratio query (snd m)) sorted).
  { eapply Permutation_Forall; [symmetry; apply stable_sort_perm |].
    apply (scored_tagged ratio query (items self) (Qltb (40 # 1))). }
  split; [apply subsequence_filter |].
  split; [exact Hperm |].
  split.
  { eapply Permutation_Forall; [symmetry; exact Hperm |].
    apply Forall_forall. intros it Hit.
    apply filter_In in Hit as [_ Hit]. now apply Qltb_lt. }
  split.
  { rewrite Hres. apply StronglySorted_map.
    eapply StronglySorted_impl_on; [| exact Htag |].
    2: { apply (stable_sort_sorted fst (fun a b => Qltb b a)).
         - intros a b Hab. apply Qltb_lt in Hab. apply Qltb_ge.
           now apply Qlt_le_weak.
         - intros a b c Hab Hbc. apply Qltb_ge in Hab, Hbc. apply Qltb_ge.
           eapply Qle_trans; eassumption. }
    intros x y Hx Hy Hxy. cbv beta in Hx, Hy. unfold in_order in Hxy.
    apply Qltb_ge in Hxy. now rewrite <- Hx, <- Hy. }
  intros s. rewrite Hres, <- Hkept.
  rewrite <- (map_snd_filter_tagged ratio query sorted (fun v => Qeq_bool v s) Htag).
  rewrite <- (map_snd_filter_tagged ratio query matches (fun v => Qeq_bool v s)
                (scored_tagged ratio query (items self) (Qltb (40 # 1)))).
  f_equal. apply stable_sort_filter.
  intros x y Hx Hy. apply Qeq_bool_iff in Hx, Hy. apply Qltb_ge.
  rewrite Hx, Hy. apply Qle_refl.
Qed.

Lemma handle_search_ranks_witness :
  Permutation (filtered_items (handle_search indel_ratio "b" two_matches))
    [item_ab; item_b]
  /\ filtered_items (handle_search indel_ratio "b" two_matches)
     = [item_b; item_ab].
Proof.
  split; [| reflexivity].
  assert (Hq : "b" <> "") by discriminate.
  destruct (handle_search_ranks indel_ratio "b" two_matches Hq)
    as (_ & Hperm & _).
  exact Hperm.
Defined.

(** C2 as stated fails: the better match comes first, so the filtered
    list is not a subsequence of the item list. *)
Lemma handle_search_not_subsequence :
  "b" <> ""
  /\ items two_matches = [item_ab; item_b]
  /\ filtered_items (handle_search indel_ratio "b" two_matches)
     = [item_b; item_ab]
  /\ ~ subsequence
         (filtered_items (handle_search indel_ratio "b" two_matches))
         (items two_matches).
Proof.
  split; [discriminate |]. split; [reflexivity |]. split; [reflexivity |].
  change (~ subsequence [item_b; item_ab] [item_ab; item_b]).
  intros Hs.
  inversion Hs as [| x l1 l2 Hs1 | x l1 l2 Hs1]; subst.
  inversion Hs1 as [| y k1 k2 Hs2 | y k1 k2 Hs2]; subst.
  - inversion Hs2.
  - inversion Hs2.
Qed.

(** ** [is_text_file] *)

Lemma upto_In (n : nat) (z x : Z) :
  z <= x < z + Z.of_nat n -> In x (upto n z).
Proof.
  revert z. induction n as [| n IH]; intros z Hx; [lia |].
  simpl. destruct (Z.eq_dec z x) as [-> | Hne]; [now left | right].
  apply IH. lia.
Qed.

Lemma float_test_exact_512 : float_test_exact_upto 512 = true.
Proof. vm_cast_no_check (eq_refl true). Qed.

Lemma float_test_exact (count total : Z) :
  0 <= count <= 512 -> 0 <= total <= 512 ->
  PrimFloat.ltb float_0_8 (true_div count total)
  = exceeds_four_fifths count total.
Proof.
  intros Hc Ht.
  pose proof float_test_exact_512 as Htab.
  unfold float_test_exact_upto in Htab.
  rewrite forallb_forall in Htab.
  assert (Hin : forall x, 0 <= x <= 512 -> In x (upto 513 0))
    by (intros x Hx; apply upto_In; lia).
  specialize (Htab total (Hin total Ht)).
  rewrite forallb_forall in Htab.
  specialize (Htab count (Hin count Hc)).
  now apply Bool.eqb_prop in Htab.
Qed.

Lemma count_printable_le (chunk : list byte) :
  (count_printable chunk <= List.length chunk)%nat.
Proof. apply filter_length_le. Qed.

Lemma mostly_printable_exact (chunk : list byte) :
  (List.length chunk <= 512)%nat ->
  mostly_printable chunk = true
  <-> (4 * List.length chunk < 5 * count_printable chunk)%nat.
Proof.
  intros Hlen. unfold mostly_printable.
  pose proof (count_printable_le chunk) as Hc.
  rewrite float_test_exact by lia.
  unfold exceeds_four_fifths. rewrite Z.ltb_lt. lia.
Qed.

Lemma in_text_extensions_In (x : string) :
  in_text_extensions x = true <-> In x TEXT_EXTENSIONS.
Proof.
  unfold in_text_extensions. rewrite existsb_exists. split.
  - intros (y & Hy & Hxy). apply String.eqb_eq in Hxy. now subst.
  - intros Hx. exists x. split; [exact Hx | apply String.eqb_refl].
Qed.

Lemma printable_text_byte (b : byte) : printable b = text_byte b.
Proof. destruct b; reflexivity. Qed.

Lemma count_printable_text_bytes (chunk : list byte) :
  count_printable chunk = List.length (filter text_byte chunk).
Proof.
  unfold count_printable. f_equal. apply filter_ext.
  exact printable_text_byte.
Qed.

(** C8: a recognized extension, compared in lower case, gives [True]
    and no file is opened.  Without an extension the file is opened;
    if that fails the answer is [False] and nothing is read;
    otherwise 512 bytes are asked for, once, and the answer is
    decided by the bytes obtained, the first 512 of the file at
    most: no bytes give [True], bytes that are not UTF-8 give
    [False], and otherwise the answer is [True] exactly when more
    than four fifths of the bytes are printable ASCII, tab, newline
    or carriage return. *)
Theorem is_text_file_spec {W : Type} `{OS W} (p : path) (w : W) :
  (In (lower (suffix p)) TEXT_EXTENSIONS -> is_text_file p w = (true, []))
  /\ (suffix p = "" ->
      (forall e : os_error,
          open_rb p w = inl e -> is_text_file p w = (false, [Open p]))
      /\ forall content : list byte,
          open_rb p w = inr content ->
          let chunk := firstn 512 content in
          snd (is_text_file p w) = [Open p; Read p 512]
          /\ (List.length chunk <= 512)%nat
          /\ (chunk = [] -> fst (is_text_file p w) = true)
          /\ (chunk <> [] -> utf8_decodes chunk = false ->
              fst (is_text_file p w) = false)
          /\ (chunk <> [] -> utf8_decodes chunk = true ->
              (fst (is_text_file p w) = true
               <-> (4 * List.length chunk
                    < 5 * List.length (filter text_byte chunk))%nat))).
Proof.
  split.
  - intros Hext. unfold is_text_file.
    apply in_text_extensions_In in Hext. now rewrite Hext.
  - intros Hsuf. unfold is_text_file, open_traced, read_traced. rewrite Hsuf.
    change (in_text_extensions (lower "")) with false. cbn [str_is_empty].
    split; [intros e Hopen; now rewrite Hopen |].
    intros content Hopen. rewrite Hopen. cbn [fst snd app].
    assert (Hlen : (List.length (read 512 content) <= 512)%nat)
      by (apply firstn_le_length).
    change (firstn 512 content) with (read 512 content).
    set (chunk := read 512 content) in *.
    split; [reflexivity |]. split; [exact Hlen |].
    split; [intros ->; reflexivity |].
    split.
    + intros Hne Hdec. unfold sniff.
      destruct chunk; [congruence | now rewrite Hdec].
    + intros Hne Hdec. unfold sniff.
      destruct chunk as [| b rest] eqn:E; [congruence |].
      rewrite Hdec, <- count_printable_text_bytes.
      now apply mostly_printable_exact.
Qed.

Lemma is_text_file_spec_witness :
  is_text_file ["projects"; "LICENSE"] projects
  = (true, [Open ["projects"; "LICENSE"]; Read ["projects"; "LICENSE"] 512])
  /\ is_text_file ["projects"; "core"] projects
     = (false, [Open ["projects"; "core"]; Read ["projects"; "core"] 512])
  /\ is_text_file ["projects"; "Makefile"] projects
     = (false, [Open ["projects"; "Makefile"]]).
Proof.
  assert (Hlicense : open_rb ["projects"; "LICENSE"] projects
                     = inr (bytes_of "MIT License")) by reflexivity.
  assert (Hcore : open_rb ["projects"; "core"] projects
                  = inr [x00; x01; x02; x41]) by reflexivity.
  assert (Hnone : open_rb ["projects"; "Makefile"] projects
                  = inl OtherOSError) by reflexivity.
  destruct (proj2 (is_text_file_spec ["projects"; "LICENSE"] projects)
              eq_refl) as [_ Hyes].
  destruct (Hyes _ Hlicense) as (Hlog1 & _ & _ & _ & Hratio1).
  destruct (proj2 (is_text_file_spec ["projects"; "core"] projects)
              eq_refl) as [_ Hno].
  destruct (Hno _ Hcore) as (Hlog2 & _ & _ & _ & Hratio2).
  destruct (proj2 (is_text_file_spec ["projects"; "Makefile"] projects)
              eq_refl) as [Hfail _].
  split; [| split; [| exact (Hfail _ Hnone)]].
  - rewrite (surjective_pairing (is_text_file _ projects)), Hlog1.
    apply pair_equal_spec. split; [| reflexivity].
    assert (Hne : firstn 512 (bytes_of "MIT License") <> []) by discriminate.
    apply (proj2 (Hratio1 Hne eq_refl)). vm_compute. lia.
  - rewrite (surjective_pairing (is_text_file _ projects)), Hlog2.
    apply pair_equal_spec. split; [| reflexivity].
    apply not_true_is_false. intros Htrue.
    assert (Hne : firstn 512 [x00; x01; x02; x41] <> []) by discriminate.
    apply (proj1 (Hratio2 Hne eq_refl)) in Htrue.
    vm_compute in Htrue. lia.
Defined.

(** C10: a name with an extension outside [TEXT_EXTENSIONS] gives
    [False], and no file is opened. *)
Theorem is_text_file_other_extension {W : Type} `{OS W} (p : path) (w : W) :
  suffix p <> "" ->
  ~ In (lower (suffix p)) TEXT_EXTENSIONS ->
  is_text_file p w = (false, []).
Proof.
  intros Hsuf Hext. unfold is_text_file.
  rewrite <- in_text_extensions_In in Hext.
  apply not_true_is_false in Hext. rewrite Hext.
  destruct (suffix p); [congruence | reflexivity].
Qed.

Lemma is_text_file_other_extension_witness :
  is_text_file ["home"; "binary.bin"] home = (false, []).
Proof.
  apply (is_text_file_other_extension ["home"; "binary.bin"] home).
  - vm_compute. discriminate.
  - rewrite <- in_text_extensions_In. vm_compute. discriminate.
Defined.

Example extensionless_empty_file_is_text :
  sniff (read 512 []) = true.
Proof. reflexivity. Qed.

Example raw_bytes_are_not_text :
  sniff (read 512 [x00; x01; x02; x03]) = false.
Proof. vm_compute. reflexivity. Qed.

Example invalid_utf8_is_not_text :
  sniff (read 512 [x48; xff; x49]) = false.
Proof. vm_compute. reflexivity. Qed.

Example plain_ascii_is_text :
  sniff (read 512 (bytes_of "Hello world")) = true.
Proof. vm_compute. reflexivity. Qed.


(** ** The file name of a new note *)

Section UniquePath.
Context {W : Type} `{OS W}.
Variables (dir : path) (stem : string) (w : W).

(** The loop ends at the first test that does not answer [True]:
    with the name if the answer is [False], with the error if the
    test raises. *)
Lemma free_path_loop_ends (k n j fuel : nat) :
  exists_ (candidate dir stem k) w <> inr true ->
  (forall i, (i < k)%nat -> exists_ (candidate dir stem i) w = inr true) ->
  (j + n = k)%nat -> (n < fuel)%nat ->
  free_path_loop fuel dir stem (Z.of_nat (S j)) (candidate dir stem j) w
  = match exists_ (candidate dir stem k) w with
    | inl err => Raised (OSError err)
    | inr _ => Returned (candidate dir stem k)
    end.
Proof.
  intros Hend Hbusy. revert j fuel.
  induction n as [| n IH]; intros j fuel Hj Hfuel;
    (destruct fuel as [| fuel]; [lia |]); cbn [free_path_loop].
  - replace j with k by lia.
    destruct (exists_ (candidate dir stem k) w) as [err | [|]];
      [reflexivity | congruence | reflexivity].
  - rewrite Hbusy by lia.
    replace (Z.of_nat (S j) + 1) with (Z.of_nat (S (S j))) by lia.
    apply (IH (S j)); lia.
Qed.

Lemma free_path_loop_finds (k n j fuel : nat) :
  exists_ (candidate dir stem k) w = inr false ->
  (forall i, (i < k)%nat -> exists_ (candidate dir stem i) w = inr true) ->
  (j + n = k)%nat -> (n < fuel)%nat ->
  free_path_loop fuel dir stem (Z.of_nat (S j)) (candidate dir stem j) w
  = Returned (candidate dir stem k).
Proof.
  intros Hfree Hbusy Hj Hfuel.
  rewrite (free_path_loop_ends k n j fuel); auto; rewrite Hfree;
    [reflexivity | discriminate].
Qed.

Lemma free_path_loop_raises (k n j fuel : nat) (err : os_error) :
  exists_ (candidate dir stem k) w = inl err ->
  (forall i, (i < k)%nat -> exists_ (candidate dir stem i) w = inr true) ->
  (j + n = k)%nat -> (n < fuel)%nat ->
  free_path_loop fuel dir stem (Z.of_nat (S j)) (candidate dir stem j) w
  = Raised (OSError err).
Proof.
  intros Herr Hbusy Hj Hfuel.
  rewrite (free_path_loop_ends k n j fuel); auto; rewrite Herr;
    [reflexivity | discriminate].
Qed.

(** When every name is taken the loop never ends: no amount of fuel
    gives a result. *)
Lemma free_path_loop_spins (j fuel : nat) :
  (forall i, exists_ (candidate dir stem i) w = inr true) ->
  free_path_loop fuel dir stem (Z.of_nat (S j)) (candidate dir stem j) w
  = Spinning.
Proof.
  intros Hbusy. revert j.
  induction fuel as [| fuel IH]; intros j; cbn [free_path_loop]; [reflexivity |].
  rewrite Hbusy.
  replace (Z.of_nat (S j) + 1) with (Z.of_nat (S (S j))) by lia.
  apply (IH (S j)).
Qed.

End UniquePath.

(** C9: while the tests of [exists] answer, the loop returns the
    first free name among [stem.md], [stem-1.md], [stem-2.md], ...:
    with [k] the least index of a free name, [k + 1] tests are enough
    and more change nothing; [stem-2.md] is returned when [stem.md]
    and [stem-1.md] exist and [stem-2.md] does not.  But the tests
    stand outside the [try] of [create_note]: when the first test
    that does not answer [True] raises, the loop returns no name and
    the error leaves it, whatever the fuel. *)
Theorem resolve_unique_path_spec {W : Type} `{OS W}
  (dir : path) (stem : string) (w : W) :
  (forall k : nat,
      exists_ (candidate dir stem k) w = inr false ->
      (forall i, (i < k)%nat -> exists_ (candidate dir stem i) w = inr true) ->
      forall fuel, (k < fuel)%nat ->
        resolve_unique_path fuel dir stem w = Returned (candidate dir stem k))
  /\ (exists_ (joinpath dir (stem ++ ".md")) w = inr false ->
      forall fuel, (0 < fuel)%nat ->
        resolve_unique_path fuel dir stem w
        = Returned (joinpath dir (stem ++ ".md")))
  /\ (exists_ (joinpath dir (stem ++ ".md")) w = inr true ->
      exists_ (joinpath dir (stem ++ "-1.md")) w = inr true ->
      exists_ (joinpath dir (stem ++ "-2.md")) w = inr false ->
      forall fuel, (2 < fuel)%nat ->
        resolve_unique_path fuel dir stem w
        = Returned (joinpath dir (stem ++ "-2.md")))
  /\ (forall (k : nat) (err : os_error),
        exists_ (candidate dir stem k) w = inl err ->
        (forall i, (i < k)%nat ->
                   exists_ (candidate dir stem i) w = inr true) ->
        forall fuel, (k < fuel)%nat ->
          resolve_unique_path fuel dir stem w = Raised (OSError err)).
Proof.
  assert (Hgen : forall k : nat,
      exists_ (candidate dir stem k) w = inr false ->
      (forall i, (i < k)%nat -> exists_ (candidate dir stem i) w = inr true) ->
      forall fuel, (k < fuel)%nat ->
        resolve_unique_path fuel dir stem w = Returned (candidate dir stem k)).
  { intros k Hfree Hbusy fuel Hfuel. unfold resolve_unique_path.
    apply (free_path_loop_finds dir stem w k k 0 fuel); auto. }
  split; [exact Hgen |]. split; [| split].
  - intros Hfree fuel Hfuel. apply (Hgen 0%nat); auto. intros i Hi. lia.
  - intros H0 H1 H2 fuel Hfuel. apply (Hgen 2%nat); auto.
    intros i Hi.
    destruct i as [| [| i]]; [exact H0 | exact H1 | lia].
  - intros k err Herr Hbusy fuel Hfuel. unfold resolve_unique_path.
    apply (free_path_loop_raises dir stem w k k 0 fuel); auto.
Qed.

(** In the unreadable directory [secret] no file [a.md] exists, and
    the loop raises where the specification has it return
    [secret/a.md]. *)
Lemma resolve_unique_path_spec_witness :
  lookup ["home"; "secret"; "a.md"] home = None
  /\ resolve_unique_path 1 ["home"; "secret"] "a" home
     = Raised (OSError PermissionError)
  /\ resolve_unique_path 3 ["home"] "note" home
     = Returned ["home"; "note-2.md"].
Proof.
  split; [reflexivity |]. split.
  - assert (Herr : exists_ (candidate ["home"; "secret"] "a" 0) home
                   = inl PermissionError) by reflexivity.
    apply (proj2 (proj2 (proj2
             (resolve_unique_path_spec ["home"; "secret"] "a" home)))
             0%nat PermissionError Herr); [| lia].
    intros i Hi. lia.
  - apply (proj1 (proj2 (proj2
             (resolve_unique_path_spec ["home"] "note" home))));
      [reflexivity | reflexivity | reflexivity | lia].
Defined.

(** From there the error leaves [create_note] and [handle_input]:
    Ctrl+N, the title [a] and Enter in the directory [secret]. *)
Example note_in_unreadable_directory :
  create_note 1 "a" in_secret home
  = (Raised (OSError PermissionError), in_secret, home)
  /\ handle_input indel_ratio 1 10
       (set_note_title "a" (set_note_mode true in_secret)) home
     = (Raised (OSError PermissionError),
        set_note_title "a" (set_note_mode true in_secret), home).
Proof. split; vm_compute; reflexivity. Qed.

Example taken_name_is_skipped :
  resolve_unique_path 5 ["home"] "test" home = Returned ["home"; "test.md"]
  /\ resolve_unique_path 2 ["home"] "note" home = Spinning.
Proof. split; reflexivity. Qed.


(** ** [scan_directory] *)

Section ScanFacts.
Context {W : Type} `{OS W}.

(** [scan_directory] in one equation, by the result of [iterdir]. *)
Lemma scan_directory_eq (self : FileExplorer) (w : W) :
  scan_directory self w =
  let dir := current_path self in
  match iterdir dir w with
  | inr children =>
      (Returned tt,
       clamp_cursor
         (set_items (parent_entries dir ++ scanned_entries dir children w) self),
       w)
  | inl PermissionError =>
      (Returned tt, clamp_cursor (set_items (parent_entries dir) self), w)
  | inl OtherOSError =>
      (Raised (OSError OtherOSError), set_items (parent_entries dir) self, w)
  end.
Proof.
  unfold scan_directory, bind, assign, get_self, get_world, try_except,
    observe, ret, clamp_cursor, parent_entries, scanned_entries.
  cbn [items set_items current_path negb].
  destruct (path_eqb (current_path self) (parent (current_path self)));
    cbn [negb items set_items current_path app];
    destruct (iterdir (current_path self) w) as [[|] | children];
    cbn [is_permission_error items set_items current_path app];
    try reflexivity.
  all: match goal with
       | |- context [nonempty ?l] => destruct l; reflexivity
       end.
Qed.

End ScanFacts.

Lemma path_eqb_eq (p q : path) : path_eqb p q = true <-> p = q.
Proof.
  unfold path_eqb. destruct (list_eq_dec string_dec p q); split; congruence.
Qed.

Lemma path_name_joinpath (dir : path) (name : string) :
  path_name (joinpath dir name) = name.
Proof. unfold path_name, joinpath. apply last_last. Qed.

Lemma string_ltb_leb (a b : string) :
  String.ltb b a = false <-> String.leb a b = true.
Proof.
  unfold String.ltb, String.leb. rewrite (String.compare_antisym a b).
  destruct (String.compare b a); simpl; split; congruence.
Qed.

Section ScanListing.
Context {W : Type} `{OS W}.

(** What one child contributes. *)
Lemma scan_child_In (item : path) (w : W) (it : Item) :
  In it (scan_child item w)
  <-> startswith (path_name item) "." = false
      /\ ((is_dir item w = inr true
           /\ it = mkItem (path_name item ++ "/") true item)
          \/ (is_dir item w = inr false
              /\ is_file item w = inr true
              /\ fst (is_text_file item w) = true
              /\ it = mkItem (path_name item) false item)).
Proof.
  unfold scan_child.
  destruct (startswith (path_name item) ".");
    [simpl; split; [tauto | intros [Hf _]; discriminate] |].
  destruct (is_dir item w) as [e | [|]].
  - simpl. split; [tauto |].
    intros [_ [[Hd _] | [Hd _]]]; discriminate.
  - simpl. split.
    + intros [<- | []]. split; [reflexivity | left; now split].
    + intros [_ [[_ ->] | [Hd _]]]; [now left | discriminate].
  - destruct (is_file item w) as [e | [|]].
    + simpl. split; [tauto |].
      intros [_ [[Hd _] | [_ [Hf _]]]]; discriminate.
    + destruct (fst (is_text_file item w)); simpl.
      * split.
        -- intros [<- | []]. split; [reflexivity | right; now repeat split].
        -- intros [_ [[Hd _] | (_ & _ & _ & ->)]]; [discriminate | now left].
      * split; [tauto |].
        intros [_ [[Hd _] | (_ & _ & Ht & _)]]; discriminate.
    + simpl. split; [tauto |].
      intros [_ [[Hd _] | [_ [Hf _]]]]; discriminate.
Qed.

End ScanListing.

Section ScanOrder.
Context {W : Type} `{OS W}.

(** Directories sort before files. *)
Lemma sorted_dirs_first (l : list Item) :
  StronglySorted (in_order scan_key tuple_ltb) l ->
  l = (filter item_is_dir l
       ++ filter (fun it => negb (item_is_dir it)) l)%list.
Proof.
  induction 1 as [| x l Hs IH Hx]; [reflexivity |].
  cbn [filter]. destruct (item_is_dir x) eqn:Ex; cbn [negb app].
  - now rewrite <- IH.
  - assert (Hfiles : Forall (fun it => item_is_dir it = false) l).
    { eapply Forall_impl; [| exact Hx]. intros y Hy.
      unfold in_order, scan_key, tuple_ltb, bool_ltb in Hy. cbn [fst snd] in Hy.
      rewrite Ex in Hy. destruct (item_is_dir y); [discriminate | reflexivity]. }
    assert (Hnone : filter item_is_dir l = []).
    { clear -Hfiles. induction Hfiles as [| y l Hy _ IHl]; [reflexivity |].
      cbn [filter]. now rewrite Hy. }
    assert (Hall : filter (fun it => negb (item_is_dir it)) l = l).
    { clear -Hfiles. induction Hfiles as [| y l Hy _ IHl]; [reflexivity |].
      cbn [filter]. rewrite Hy. cbn [negb]. now rewrite IHl. }
    now rewrite Hnone, Hall.
Qed.

Lemma StronglySorted_filter {A : Type} (R : A -> A -> Prop) (p : A -> bool)
  (l : list A) :
  StronglySorted R l -> StronglySorted R (filter p l).
Proof.
  induction 1 as [| x l Hs IH Hx]; [constructor |].
  cbn [filter]. destruct (p x); [| exact IH].
  constructor; [exact IH |].
  apply Forall_forall. intros y Hy. apply filter_In in Hy as [Hy _].
  rewrite Forall_forall in Hx. now apply Hx.
Qed.

(** Within one kind the key order is the order of the lower-cased
    names. *)
Lemma same_kind_by_name (b : bool) (l : list Item) :
  Forall (fun it => item_is_dir it = b) l ->
  StronglySorted (in_order scan_key tuple_ltb) l ->
  StronglySorted
    (fun x y =>
       String.leb (str_lower (item_name x)) (str_lower (item_name y)) = true) l.
Proof.
  intros Hkind Hs.
  eapply StronglySorted_impl_on; [| exact Hkind | exact Hs].
  intros x y Hx Hy Hxy. cbv beta in Hx, Hy.
  unfold in_order, scan_key, tuple_ltb, bool_ltb in Hxy. cbn [fst snd] in Hxy.
  rewrite Hx, Hy in Hxy. apply string_ltb_leb.
  destruct b; cbn in Hxy; exact Hxy.
Qed.

End ScanOrder.

(** C4: when the directory can be listed, the scan returns and the
    items are the parent entry (unless the directory is the root,
    which is its own parent) followed by the kept children: no child
    whose name starts with a dot, every other child that is a
    directory, every other child that is a file the classifier
    accepts, and nothing else; directories stand before files and
    each group is sorted by display name without regard to case: by
    what [str.lower] makes of the name. *)
Theorem scan_directory_listing {W : Type} `{OS W}
  (self : FileExplorer) (w : W) (children : list string) :
  iterdir (current_path self) w = inr children ->
  let dir := current_path self in
  exists (self' : FileExplorer) (dirs files : list Item),
    scan_directory self w = (Returned tt, self', w)
    /\ (dir = parent dir -> items self' = (dirs ++ files)%list)
    /\ (dir <> parent dir ->
        items self' = (mkItem "../" true (parent dir) :: dirs ++ files)%list)
    /\ (forall it : Item,
          In it (dirs ++ files)
          <-> exists name : string,
              In name children
              /\ startswith name "." = false
              /\ ((is_dir (joinpath dir name) w = inr true
                   /\ it = mkItem (name ++ "/") true (joinpath dir name))
                  \/ (is_dir (joinpath dir name) w = inr false
                      /\ is_file (joinpath dir name) w = inr true
                      /\ fst (is_text_file (joinpath dir name) w) = true
                      /\ it = mkItem name false (joinpath dir name))))
    /\ Forall (fun it => item_is_dir it = true) dirs
    /\ Forall (fun it => item_is_dir it = false) files
    /\ StronglySorted
         (fun x y =>
            String.leb (str_lower (item_name x)) (str_lower (item_name y))
            = true)
         dirs
    /\ StronglySorted
         (fun x y =>
            String.leb (str_lower (item_name x)) (str_lower (item_name y))
            = true)
         files.
Proof.
  intros Hls dir.
  set (entries := scanned_entries dir children w).
  assert (Hsorted : StronglySorted (in_order scan_key tuple_ltb) entries).
  { apply stable_sort_sorted; [apply tuple_lt_asym | apply tuple_le_trans]. }
  exists (clamp_cursor (set_items (parent_entries dir ++ entries) self)),
    (filter item_is_dir entries),
    (filter (fun it => negb (item_is_dir it)) entries).
  rewrite <- (sorted_dirs_first entries Hsorted).
  assert (Hitems :
    items (clamp_cursor (set_items (parent_entries dir ++ entries) self))
    = (parent_entries dir ++ entries)%list).
  { unfold clamp_cursor.
    destruct (nonempty (items (set_items (parent_entries dir ++ entries) self)));
      reflexivity. }
  split.
  { rewrite scan_directory_eq. cbv zeta. now rewrite Hls. }
  split.
  { intros Hroot. rewrite Hitems. unfold parent_entries.
    apply path_eqb_eq in Hroot. now rewrite Hroot. }
  split.
  { intros Hsub. rewrite Hitems. unfold parent_entries.
    destruct (path_eqb dir (parent dir)) eqn:E; [| reflexivity].
    apply path_eqb_eq in E. contradiction. }
  split.
  { intros it. unfold entries, scanned_entries, py_sort.
    set (raw := flat_map (fun name => scan_child (joinpath dir name) w) children).
    assert (Hraw : In it (stable_sort scan_key tuple_ltb raw) <-> In it raw).
    { split; apply Permutation_in;
        [apply stable_sort_perm | symmetry; apply stable_sort_perm]. }
    rewrite Hraw. unfold raw. rewrite in_flat_map. split.
    - intros (name & Hname & Hin). exists name. split; [exact Hname |].
      apply scan_child_In in Hin. now rewrite path_name_joinpath in Hin.
    - intros (name & Hname & Hrest). exists name. split; [exact Hname |].
      apply scan_child_In. now rewrite path_name_joinpath. }
  assert (Hd : Forall (fun it => item_is_dir it = true) (filter item_is_dir entries)).
  { apply Forall_forall. intros it Hit. now apply filter_In in Hit. }
  assert (Hf : Forall (fun it => item_is_dir it = false)
                 (filter (fun it => negb (item_is_dir it)) entries)).
  { apply Forall_forall. intros it Hit. apply filter_In in Hit as [_ Hit].
    now apply negb_true_iff. }
  split; [exact Hd |]. split; [exact Hf |].
  split.
  - apply (same_kind_by_name true); [exact Hd |].
    now apply StronglySorted_filter.
  - apply (same_kind_by_name false); [exact Hf |].
    now apply StronglySorted_filter.
Qed.

(** In [projects] the names differ in case: [archive/] stands before
    [Beta/], and [LICENSE] between [alpha.txt] and [Zeta.txt]. *)
Lemma scan_directory_listing_witness :
  exists (self' : FileExplorer) (dirs files : list Item),
    scan_directory (entered ["projects"] (init projects)) projects
    = (Returned tt, self', projects)
    /\ items self' = (mkItem "../" true [] :: dirs ++ files)%list
    /\ Forall (fun it => item_is_dir it = true) dirs
    /\ Forall (fun it => item_is_dir it = false) files
    /\ StronglySorted
         (fun x y =>
            String.leb (lower (item_name x)) (lower (item_name y)) = true)
         dirs
    /\ StronglySorted
         (fun x y =>
            String.leb (lower (item_name x)) (lower (item_name y)) = true)
         files
    /\ map item_name (items self')
       = ["../"; "archive/"; "Beta/"; "alpha.txt"; "LICENSE"; "Zeta.txt"].
Proof.
  assert (Hls : iterdir (current_path (entered ["projects"] (init projects)))
                  projects
                = inr ["Zeta.txt"; "alpha.txt"; "Beta"; "archive"; "LICENSE";
                       "core"])
    by (vm_compute; reflexivity).
  destruct (scan_directory_listing (entered ["projects"] (init projects))
              projects _ Hls)
    as (self' & dirs & files & Hrun & _ & Hitems & _ & Hd & Hf & Hsd & Hsf).
  exists self', dirs, files.
  split; [exact Hrun |].
  split; [apply Hitems; discriminate |].
  split; [exact Hd |]. split; [exact Hf |].
  split; [exact Hsd |]. split; [exact Hsf |].
  assert (Hself : self'
                  = snd (fst (scan_directory
                                (entered ["projects"] (init projects))
                                projects)))
    by (rewrite Hrun; reflexivity).
  rewrite Hself. vm_compute. reflexivity.
Defined.

(** The scanning example of the specification: hidden and binary
    files are left out, directories come first. *)
Example scan_home :
  map item_name (items (snd (fst (scan_directory (init home) home))))
  = ["../"; "secret/"; "subdir/"; "note-1.md"; "note.md"; "script.py";
     "test.txt"].
Proof. vm_compute. reflexivity. Qed.


(** ** [navigate_to] *)

Section NavigateFacts.
Context {W : Type} `{OS W}.

Lemma navigate_to_eq (p : path) (self : FileExplorer) (w : W) :
  navigate_to p self w =
  match resolve p w with
  | inr q => scan_directory (entered q self) w
  | inl PermissionError => (Returned tt, self, w)
  | inl OtherOSError => (Raised (OSError OtherOSError), self, w)
  end.
Proof.
  unfold navigate_to, try_except, bind, observe, assign.
  destruct (resolve p w) as [[|] | q]; cbn [is_permission_error]; try reflexivity.
  fold (entered q self).
  rewrite scan_directory_eq. cbv zeta.
  destruct (iterdir (current_path (entered q self)) w) as [[|] | children];
    reflexivity.
Qed.

End NavigateFacts.

(** C3, as amended: a navigation that fails with a [PermissionError]
    does not raise.  If resolving the target fails nothing changes,
    the mode included.  If listing the resolved target fails the
    explorer has moved there: the cursor is 0, the items are the
    parent entry alone (none at the root), query and title are empty
    and the mode is Browse. *)
Theorem navigate_to_permission_denied {W : Type} `{OS W}
  (p : path) (self : FileExplorer) (w : W) :
  (resolve p w = inl PermissionError ->
   navigate_to p self w = (Returned tt, self, w))
  /\ (forall q : path,
        resolve p w = inr q ->
        iterdir q w = inl PermissionError ->
        exists self' : FileExplorer,
          navigate_to p self w = (Returned tt, self', w)
          /\ current_path self' = q
          /\ cursor_position self' = 0
          /\ (q = parent q -> items self' = [])
          /\ (q <> parent q -> items self' = [mkItem "../" true (parent q)])
          /\ search_mode self' = false
          /\ note_mode self' = false
          /\ search_query self' = ""
          /\ note_title self' = ""
          /\ filtered_items self' = filtered_items self).
Proof.
  split.
  - intros Hres. now rewrite navigate_to_eq, Hres.
  - intros q Hres Hls.
    exists (clamp_cursor (set_items (parent_entries q) (entered q self))).
    split.
    { rewrite navigate_to_eq, Hres, scan_directory_eq. cbv zeta.
      change (current_path (entered q self)) with q. now rewrite Hls. }
    unfold clamp_cursor, parent_entries.
    destruct (path_eqb q (parent q)) eqn:E; cbn.
    + apply path_eqb_eq in E. repeat split; auto. intros Hne. contradiction.
    + assert (Hne : q <> parent q)
        by (intros Heq; apply path_eqb_eq in Heq; congruence).
      repeat split; auto. intros Heq. contradiction.
Qed.

Lemma navigate_to_permission_denied_witness :
  exists self' : FileExplorer,
    navigate_to ["home"; "secret"] (init home) home = (Returned tt, self', home)
    /\ cursor_position self' = 0
    /\ items self' = [mkItem "../" true ["home"]]
    /\ search_mode self' = false.
Proof.
  assert (Hres : resolve ["home"; "secret"] home = inr ["home"; "secret"])
    by reflexivity.
  assert (Hls : iterdir ["home"; "secret"] home = inl PermissionError)
    by (vm_compute; reflexivity).
  destruct (proj2 (navigate_to_permission_denied ["home"; "secret"] (init home) home)
              ["home"; "secret"] Hres Hls)
    as (self' & Hrun & _ & Hcur & _ & Hitems & Hmode & _).
  exists self'. repeat split; try assumption.
  apply Hitems. discriminate.
Defined.


(** ** [handle_input] *)

Section InputFacts.
Context {W : Type} `{OS W}.
Variable ratio : string -> string -> Q.

Lemma search_keys_fall_through (key : Z) :
  key = KEY_UP \/ key = KEY_DOWN ->
  (key =? 27) = false /\ is_backspace key = false /\ is_enter key = false
  /\ ((32 <=? key) && (key <=? 126)) = false.
Proof. intros [-> | ->]; repeat split; reflexivity. Qed.

(** C1 does not hold of the code: in Search mode the arrow keys match
    no branch of [handle_input], and the call returns with the
    explorer as it was. *)
Theorem search_mode_ignores_arrows (fuel : nat) (key : Z)
  (self : FileExplorer) (w : W) :
  search_mode self = true ->
  key = KEY_UP \/ key = KEY_DOWN ->
  handle_input ratio fuel key self w = (Returned true, self, w).
Proof.
  intros Hmode Hkey.
  destruct (search_keys_fall_through key Hkey) as (H1 & H2 & H3 & H4).
  unfold handle_input, bind, get_self.
  rewrite Hmode, H1, H2, H3, H4. reflexivity.
Qed.

End InputFacts.

Lemma search_mode_ignores_arrows_witness :
  filtered_items searching = [item_b; item_ab]
  /\ cursor_position searching = 0
  /\ handle_input indel_ratio 1 KEY_DOWN searching home
     = (Returned true, searching, home).
Proof.
  split; [reflexivity |]. split; [reflexivity |].
  apply (search_mode_ignores_arrows indel_ratio 1 KEY_DOWN searching home).
  - reflexivity.
  - now right.
Defined.

(** In Browse mode the same key moves the cursor. *)
Example browse_mode_moves_down :
  cursor_position
    (snd (fst (handle_input indel_ratio 1 KEY_DOWN
                 (set_search_mode false two_matches) home))) = 1.
Proof. reflexivity. Qed.

(** C3 as stated fails: Enter on a directory that cannot be listed
    returns, but the cursor and the items are not what they were. *)
Lemma failed_navigation_changes_listing :
  map item_name (items on_secret)
  = ["../"; "secret/"; "subdir/"; "note-1.md"; "note.md"; "script.py";
     "test.txt"]
  /\ cursor_position on_secret = 1
  /\ iterdir ["home"; "secret"] home = inl PermissionError
  /\ fst (fst (handle_input indel_ratio 1 10 on_secret home)) = Returned true
  /\ map item_name
       (items (snd (fst (handle_input indel_ratio 1 10 on_secret home))))
     = ["../"]
  /\ cursor_position (snd (fst (handle_input indel_ratio 1 10 on_secret home)))
     = 0.
Proof. repeat split; vm_compute; reflexivity. Qed.


(** ** The notes *)

Section NoteFacts.
Context {W : Type} `{OS W}.

(** [open_file] leaves the explorer and the world as they are; it
    ends in the editor, or at the prompt, which returns or raises. *)
Lemma open_file_frame (p : path) (self : FileExplorer) (w : W) :
  exists o : outcome unit,
    open_file p self w = (o, self, w)
    /\ (o = Replaced
        \/ (o = Returned tt /\ input_ w = inr tt)
        \/ exists ie : input_error,
             input_ w = inl ie /\ o = Raised (input_exn ie)).
Proof.
  assert (Hprompt : exists o : outcome unit,
             press_enter self w = (o, self, w)
             /\ (o = Replaced
                 \/ (o = Returned tt /\ input_ w = inr tt)
                 \/ exists ie : input_error,
                      input_ w = inl ie /\ o = Raised (input_exn ie))).
  { unfold press_enter. destruct (input_ w) as [ie | []] eqn:Ei.
    - exists (Raised (input_exn ie)). split; [reflexivity |].
      right. right. now exists ie.
    - exists (Returned tt). split; [reflexivity |]. right. left. now split. }
  unfold open_file.
  destruct (getenv_EDITOR w) as [editor |]; [| exact Hprompt].
  destruct (str_is_empty editor); [exact Hprompt |].
  destruct (execvp editor p w); [| exact Hprompt].
  exists Replaced. split; [reflexivity | now left].
Qed.

Lemma try_write_text_eq (p : path) (self : FileExplorer) (w : W) :
  try_write_text p self w =
  match write_text p w with
  | inr w' => (Returned true, self, w')
  | inl _ => (Returned false, self, w)
  end.
Proof.
  unfold try_write_text, try_except, bind, write_empty, ret.
  now destruct (write_text p w).
Qed.

(** [create_note] in one equation. *)
Lemma create_note_eq (fuel : nat) (title : string) (self : FileExplorer)
  (w : W) :
  create_note fuel title self w =
  if str_is_empty (strip_ws title) then (Returned false, self, w)
  else
    match resolve_unique_path fuel (current_path self)
            (sanitize_filename (strip_ws title)) w with
    | Returned file_path =>
        match write_text file_path w with
        | inl _ => (Returned false, self, w)
        | inr w1 =>
            match open_file file_path self w1 with
            | (Returned _, s2, w2) => (Returned true, s2, w2)
            | (Raised e, s2, w2) =>
                if is_exception e then (Returned false, s2, w2)
                else (Raised e, s2, w2)
            | (Replaced, s2, w2) => (Replaced, s2, w2)
            | (Spinning, s2, w2) => (Spinning, s2, w2)
            end
        end
    | Raised e => (Raised e, self, w)
    | Replaced => (Replaced, self, w)
    | Spinning => (Spinning, self, w)
    end.
Proof.
  unfold create_note.
  destruct (str_is_empty (strip_ws title)); [reflexivity |].
  unfold bind at 1 2, get_self, get_world.
  destruct (resolve_unique_path fuel (current_path self)
              (sanitize_filename (strip_ws title)) w) as [file_path | e | |];
    try reflexivity.
  unfold try_except, bind, write_empty, ret.
  destruct (write_text file_path w) as [err | w1]; [reflexivity |].
  destruct (open_file file_path self w1) as [[[u | e | |] s2] w2];
    reflexivity.
Qed.

(** [open_daily_note] in one equation. *)
Lemma open_daily_note_eq (self : FileExplorer) (w : W) :
  open_daily_note self w =
  let file_path := joinpath (current_path self) (get_daily_note_filename w) in
  match exists_ file_path w with
  | inl err => (Raised (OSError err), self, w)
  | inr true => continue_after (open_file file_path self w)
  | inr false =>
      match write_text file_path w with
      | inl _ => (Returned false, self, w)
      | inr w1 => continue_after (open_file file_path self w1)
      end
  end.
Proof.
  unfold open_daily_note. unfold bind at 1 2 3, get_self, get_world, observe.
  cbv zeta.
  set (file_path := joinpath (current_path self) (get_daily_note_filename w)).
  destruct (exists_ file_path w) as [err | [|]]; [reflexivity | |].
  - unfold bind, ret, continue_after.
    destruct (open_file file_path self w) as [[[u | e | |] s2] w2];
      reflexivity.
  - unfold bind at 1. rewrite try_write_text_eq.
    destruct (write_text file_path w) as [err | w1]; [reflexivity |].
    unfold bind, ret, continue_after.
    destruct (open_file file_path self w1) as [[[u | e | |] s2] w2];
      reflexivity.
Qed.

End NoteFacts.


(** ** The cursor invariant *)

Section CursorInvariant.
Context {W : Type} `{OS W}.
Variable ratio : string -> string -> Q.

Lemma clamp_cursor_ok (s : FileExplorer) :
  search_mode s = false -> cursor_ok (clamp_cursor s).
Proof.
  intros Hs. unfold cursor_ok, active_list, clamp_cursor.
  destruct (items s) as [| x l] eqn:E; cbn [nonempty];
    cbn [search_mode set_cursor_position items cursor_position];
    rewrite Hs, E; [reflexivity |].
  unfold len. cbn [List.length]. lia.
Qed.

Lemma clamp_cursor_mode (s : FileExplorer) :
  search_mode (clamp_cursor s) = search_mode s.
Proof. unfold clamp_cursor. now destruct (nonempty (items s)). Qed.

Lemma scan_directory_ok (self self' : FileExplorer) (w w' : W) (u : unit) :
  search_mode self = false ->
  scan_directory self w = (Returned u, self', w') ->
  cursor_ok self' /\ search_mode self' = false.
Proof.
  intros Hs Hrun. rewrite scan_directory_eq in Hrun. cbv zeta in Hrun.
  destruct (iterdir (current_path self) w) as [[|] | children];
    inversion Hrun; subst; clear Hrun;
    (split; [apply clamp_cursor_ok | rewrite clamp_cursor_mode]); exact Hs.
Qed.

Lemma navigate_to_ok (p : path) (self self' : FileExplorer) (w w' : W) (u : unit) :
  cursor_ok self ->
  navigate_to p self w = (Returned u, self', w') ->
  cursor_ok self'.
Proof.
  intros Hok Hrun. rewrite navigate_to_eq in Hrun.
  destruct (resolve p w) as [[|] | q].
  - now inversion Hrun; subst.
  - discriminate Hrun.
  - now apply scan_directory_ok in Hrun.
Qed.

Lemma open_file_self (p : path) (self self' : FileExplorer) (w w' : W)
  (o : outcome unit) :
  open_file p self w = (o, self', w') -> self' = self.
Proof.
  intros Hrun. destruct (open_file_frame p self w) as (o' & Ho & _).
  rewrite Ho in Hrun. now inversion Hrun.
Qed.

Lemma create_note_self (fuel : nat) (title : string)
  (self self' : FileExplorer) (w w' : W) (o : outcome bool) :
  create_note fuel title self w = (o, self', w') -> self' = self.
Proof.
  rewrite create_note_eq.
  destruct (str_is_empty (strip_ws title)); [now inversion 1 |].
  destruct (resolve_unique_path fuel (current_path self)
              (sanitize_filename (strip_ws title)) w) as [file_path | e | |];
    try (now inversion 1).
  destruct (write_text file_path w) as [err | w1]; [now inversion 1 |].
  destruct (open_file_frame file_path self w1) as (oo & Ho & _).
  rewrite Ho. destruct oo as [u | e | |]; try (now inversion 1).
  destruct (is_exception e); now inversion 1.
Qed.

Lemma open_daily_note_self (self self' : FileExplorer) (w w' : W)
  (o : outcome bool) :
  open_daily_note self w = (o, self', w') -> self' = self.
Proof.
  rewrite open_daily_note_eq. cbv zeta.
  set (file_path := joinpath (current_path self) (get_daily_note_filename w)).
  destruct (exists_ file_path w) as [err | [|]]; [now inversion 1 | |].
  - destruct (open_file_frame file_path self w) as (oo & Ho & _).
    rewrite Ho. destruct oo; now inversion 1.
  - destruct (write_text file_path w) as [err | w1]; [now inversion 1 |].
    destruct (open_file_frame file_path self w1) as (oo & Ho & _).
    rewrite Ho. destruct oo; now inversion 1.
Qed.

Lemma activate_ok (l : list Item) (c : Z) (self self' : FileExplorer)
  (w w' : W) (u : unit) :
  cursor_ok self ->
  activate l c self w = (Returned u, self', w') ->
  cursor_ok self'.
Proof.
  intros Hok. unfold activate, index, bind.
  destruct (py_index l c) as [selected |]; [| discriminate].
  cbn [ret]. destruct (item_is_dir selected).
  - apply navigate_to_ok, Hok.
  - intros Hrun. apply open_file_self in Hrun. now subst.
Qed.

Lemma handle_search_ok (query : string) (self : FileExplorer) :
  search_mode self = true -> cursor_ok (handle_search ratio query self).
Proof.
  intros Hs. unfold handle_search, cursor_ok, active_list.
  destruct (str_is_empty query);
    cbn [search_mode set_cursor_position set_filtered_items filtered_items
         cursor_position];
    rewrite Hs.
  - destruct (items self); [reflexivity |]. unfold len. cbn [List.length]. lia.
  - match goal with
    | |- context [map snd ?m] => destruct (map snd m)
    end; [reflexivity |]. unfold len. cbn [List.length]. lia.
Qed.

End CursorInvariant.


Section Transitions.
Context {W : Type} `{OS W}.
Variable ratio : string -> string -> Q.

Ltac step_in H := cbn [bind assign ret get_self get_world] in H.
Ltac done_in H := inversion H; subst; clear H.

Lemma handle_input_ok (fuel : nat) (key : Z) (self self' : FileExplorer)
  (w w' : W) (go_on : bool) :
  cursor_ok self ->
  handle_input ratio fuel key self w = (Returned go_on, self', w') ->
  cursor_ok self'.
Proof.
  intros Hok Hrun. unfold handle_input in Hrun.
  unfold bind at 1, get_self in Hrun.
  destruct (search_mode self) eqn:Hs.
  - (* Search *)
    destruct (key =? 27).
    { step_in Hrun. done_in Hrun.
      unfold cursor_ok, active_list. cbn.
      destruct (items self); [reflexivity |]. unfold len. cbn [List.length]. lia. }
    destruct (is_backspace key).
    { step_in Hrun. done_in Hrun. now apply handle_search_ok. }
    destruct (is_enter key && nonempty (filtered_items self)).
    { unfold bind in Hrun.
      destruct (activate (filtered_items self) (cursor_position self) self w)
        as [[o s1] w1] eqn:Ea.
      destruct o; try discriminate. cbn [ret] in Hrun. done_in Hrun.
      eapply activate_ok; eassumption. }
    destruct ((32 <=? key) && (key <=? 126)).
    { step_in Hrun. done_in Hrun. now apply handle_search_ok. }
    step_in Hrun. now done_in Hrun.
  - (* NoteEntry and Browse share the item list *)
    assert (Hkeep : forall s : FileExplorer,
               search_mode s = false -> items s = items self ->
               cursor_position s = cursor_position self -> cursor_ok s).
    { intros s Hm Hi Hc. unfold cursor_ok, active_list in *.
      rewrite Hs in Hok. now rewrite Hm, Hi, Hc. }
    destruct (note_mode self) eqn:Hn.
    + destruct (key =? 27).
      { step_in Hrun. done_in Hrun. now apply Hkeep. }
      destruct (is_backspace key).
      { step_in Hrun. done_in Hrun. now apply Hkeep. }
      destruct (is_enter key).
      { destruct (negb (str_is_empty (strip_ws (note_title self)))).
        - unfold bind at 1 2 3 in Hrun.
          destruct (create_note fuel (note_title self) self w)
            as [[o s1] w1] eqn:Ec.
          apply create_note_self in Ec. subst s1.
          destruct o; try discriminate.
          step_in Hrun. done_in Hrun. now apply Hkeep.
        - step_in Hrun. done_in Hrun. now apply Hkeep. }
      destruct ((32 <=? key) && (key <=? 126)).
      { step_in Hrun. done_in Hrun. now apply Hkeep. }
      step_in Hrun. done_in Hrun. exact Hok.
    + destruct (key =? ord_q).
      { step_in Hrun. now done_in Hrun. }
      destruct (key =? ord_slash).
      { step_in Hrun. done_in Hrun. now apply handle_search_ok. }
      destruct (key =? 14).
      { step_in Hrun. done_in Hrun. now apply Hkeep. }
      destruct (key =? 4).
      { unfold bind at 1 2 in Hrun.
        destruct (open_daily_note self w) as [[o s1] w1] eqn:Ed.
        apply open_daily_note_self in Ed. subst s1.
        destruct o; try discriminate.
        step_in Hrun. now done_in Hrun. }
      destruct ((key =? KEY_UP) && nonempty (items self)) eqn:Eup.
      { step_in Hrun. done_in Hrun.
        apply andb_true_iff in Eup as [_ Hne].
        unfold cursor_ok, active_list in *.
        cbn [search_mode set_cursor_position items cursor_position].
        rewrite Hs in *. destruct (items self); [discriminate Hne |].
        unfold len in *. cbn [List.length] in *. lia. }
      destruct ((key =? KEY_DOWN) && nonempty (items self)) eqn:Edown.
      { step_in Hrun. done_in Hrun.
        apply andb_true_iff in Edown as [_ Hne].
        unfold cursor_ok, active_list in *.
        cbn [search_mode set_cursor_position items cursor_position].
        rewrite Hs in *. destruct (items self); [discriminate Hne |].
        unfold len in *. cbn [List.length] in *. lia. }
      destruct (is_enter key && nonempty (items self)).
      { unfold bind in Hrun.
        destruct (activate (items self) (cursor_position self) self w)
          as [[o s1] w1] eqn:Ea.
        destruct o; try discriminate. cbn [ret] in Hrun. done_in Hrun.
        eapply activate_ok; eassumption. }
      step_in Hrun. now done_in Hrun.
Qed.

Lemma reachable_ok (self : FileExplorer) (w : W) :
  reachable ratio self w -> cursor_ok self.
Proof.
  induction 1 as [w w' self' Hrun | fuel key go_on self self' w w' _ IH Hrun
                 | self w w' _ IH].
  - now apply scan_directory_ok in Hrun.
  - eapply handle_input_ok; eassumption.
  - exact IH.
Qed.

Lemma scan_empty_directory (self self' : FileExplorer) (w w' : W)
  (o : outcome unit) :
  iterdir (current_path self) w = inr [] ->
  scan_directory self w = (o, self', w') ->
  o = Returned tt /\ cursor_position self' = 0.
Proof.
  intros Hls Hrun. rewrite scan_directory_eq in Hrun. cbv zeta in Hrun.
  rewrite Hls in Hrun. inversion Hrun; subst; clear Hrun.
  split; [reflexivity |].
  unfold clamp_cursor, parent_entries, scanned_entries.
  destruct (path_eqb (current_path self) (parent (current_path self)));
    cbn; [reflexivity | lia].
Qed.

End Transitions.

(** C7: every explorer the main loop can hold satisfies the cursor
    invariant, for it holds after the first scan and every key event
    that returns keeps it; a scan made in a mode other than Search
    (as all scans of the program are) establishes it whatever the
    cursor was; and after scanning a directory without children the
    cursor is 0. *)
Theorem cursor_invariant {W : Type} `{OS W} (ratio : string -> string -> Q) :
  (forall (self : FileExplorer) (w : W),
      reachable ratio self w -> cursor_ok self)
  /\ (forall (fuel : nat) (key : Z) (go_on : bool)
        (self self' : FileExplorer) (w w' : W),
        cursor_ok self ->
        handle_input ratio fuel key self w = (Returned go_on, self', w') ->
        cursor_ok self')
  /\ (forall (self self' : FileExplorer) (w w' : W) (u : unit),
        search_mode self = false ->
        scan_directory self w = (Returned u, self', w') ->
        cursor_ok self')
  /\ (forall (self self' : FileExplorer) (w w' : W) (o : outcome unit),
        iterdir (current_path self) w = inr [] ->
        scan_directory self w = (o, self', w') ->
        o = Returned tt /\ cursor_position self' = 0).
Proof.
  split; [apply reachable_ok |].
  split; [intros; eapply handle_input_ok; eassumption |].
  split; [| apply scan_empty_directory].
  intros self self' w w' u Hs Hrun. now apply scan_directory_ok in Hrun.
Qed.

Lemma cursor_invariant_witness :
  cursor_position on_secret = 1 /\ cursor_ok on_secret.
Proof.
  split; [reflexivity |].
  apply (proj1 (cursor_invariant indel_ratio) on_secret home).
  eapply (reachable_key indel_ratio 1 KEY_DOWN true
            (snd (fst (scan_directory (init home) home))) on_secret home home).
  - apply (reachable_run indel_ratio home home). vm_compute. reflexivity.
  - vm_compute. reflexivity.
Defined.


(* ================================================================== *)
(** * Part IV: further properties of the program *)
(* ================================================================== *)

(** ** [handle_input], branch by branch *)

Section InputEquations.
Context {W : Type} `{OS W}.
Variable ratio : string -> string -> Q.

Lemma handle_input_search (fuel : nat) (key : Z) (self : FileExplorer) (w : W) :
  search_mode self = true ->
  handle_input ratio fuel key self w =
  if key =? 27 then
    (Returned true,
     set_cursor_position 0 (set_search_query "" (set_search_mode false self)), w)
  else if is_backspace key then
    (Returned true,
     handle_search ratio (drop_last (search_query self))
       (set_search_query (drop_last (search_query self)) self), w)
  else if is_enter key && nonempty (filtered_items self) then
    continue_after (activate (filtered_items self) (cursor_position self) self w)
  else if is_printable_key key then
    (Returned true,
     handle_search ratio (append_chr (search_query self) key)
       (set_search_query (append_chr (search_query self) key) self), w)
  else (Returned true, self, w).
Proof.
  intros Hs. unfold handle_input, is_printable_key.
  unfold bind at 1, get_self. rewrite Hs.
  destruct (key =? 27); [reflexivity |].
  destruct (is_backspace key); [reflexivity |].
  destruct (is_enter key && nonempty (filtered_items self)).
  { unfold bind, continue_after.
    destruct (activate (filtered_items self) (cursor_position self) self w)
      as [[[u | e | |] s1] w1]; reflexivity. }
  destruct ((32 <=? key) && (key <=? 126)); reflexivity.
Qed.

Lemma handle_input_note (fuel : nat) (key : Z) (self : FileExplorer) (w : W) :
  search_mode self = false -> note_mode self = true ->
  handle_input ratio fuel key self w =
  if key =? 27 then
    (Returned true, set_note_title "" (set_note_mode false self), w)
  else if is_backspace key then
    (Returned true, set_note_title (drop_last (note_title self)) self, w)
  else if is_enter key then
    if negb (str_is_empty (strip_ws (note_title self))) then
      match create_note fuel (note_title self) self w with
      | (Returned _, s, w1) =>
          (Returned true, set_note_title "" (set_note_mode false s), w1)
      | (Raised e, s, w1) => (Raised e, s, w1)
      | (Replaced, s, w1) => (Replaced, s, w1)
      | (Spinning, s, w1) => (Spinning, s, w1)
      end
    else (Returned true, set_note_title "" (set_note_mode false self), w)
  else if is_printable_key key then
    (Returned true, set_note_title (append_chr (note_title self) key) self, w)
  else (Returned true, self, w).
Proof.
  intros Hs Hn. unfold handle_input, is_printable_key.
  unfold bind at 1, get_self. rewrite Hs, Hn.
  destruct (key =? 27); [reflexivity |].
  destruct (is_backspace key); [reflexivity |].
  destruct (is_enter key).
  { destruct (negb (str_is_empty (strip_ws (note_title self)))); [| reflexivity].
    unfold bind, assign, ret.
    destruct (create_note fuel (note_title self) self w)
      as [[[b | e | |] s1] w1]; reflexivity. }
  destruct ((32 <=? key) && (key <=? 126)); reflexivity.
Qed.

Lemma handle_input_browse (fuel : nat) (key : Z) (self : FileExplorer) (w : W) :
  search_mode self = false -> note_mode self = false ->
  handle_input ratio fuel key self w =
  if key =? ord_q then (Returned false, self, w)
  else if key =? ord_slash then
    (Returned true,
     handle_search ratio "" (set_search_query "" (set_search_mode true self)), w)
  else if key =? 14 then
    (Returned true, set_note_title "" (set_note_mode true self), w)
  else if key =? 4 then continue_after (open_daily_note self w)
  else if (key =? KEY_UP) && nonempty (items self) then
    (Returned true,
     set_cursor_position (Z.max 0 (cursor_position self - 1)) self, w)
  else if (key =? KEY_DOWN) && nonempty (items self) then
    (Returned true,
     set_cursor_position
       (Z.min (len (items self) - 1) (cursor_position self + 1)) self, w)
  else if is_enter key && nonempty (items self) then
    continue_after (activate (items self) (cursor_position self) self w)
  else (Returned true, self, w).
Proof.
  intros Hs Hn. unfold handle_input.
  unfold bind at 1, get_self. rewrite Hs, Hn.
  destruct (key =? ord_q); [reflexivity |].
  destruct (key =? ord_slash); [reflexivity |].
  destruct (key =? 14); [reflexivity |].
  destruct (key =? 4).
  { unfold bind, continue_after, ret.
    destruct (open_daily_note self w) as [[[b | e | |] s1] w1]; reflexivity. }
  destruct ((key =? KEY_UP) && nonempty (items self)); [reflexivity |].
  destruct ((key =? KEY_DOWN) && nonempty (items self)); [reflexivity |].
  destruct (is_enter key && nonempty (items self)); [| reflexivity].
  unfold bind, continue_after.
  destruct (activate (items self) (cursor_position self) self w)
    as [[[u | e | |] s1] w1]; reflexivity.
Qed.

End InputEquations.

(** ** Modes *)

Lemma continue_after_returned {W A : Type} (r : outcome A * FileExplorer * W)
  (b : bool) (s : FileExplorer) (w : W) :
  continue_after r = (Returned b, s, w) ->
  b = true /\ exists a : A, r = (Returned a, s, w).
Proof.
  destruct r as [[[a | e | |] s1] w1]; simpl; intros Hr; inversion Hr; subst.
  split; [reflexivity | now exists a].
Qed.

Section ModeFacts.
Context {W : Type} `{OS W}.
Variable ratio : string -> string -> Q.

(** A scan changes the items and the cursor and nothing else. *)
Lemma scan_directory_frame (self self' : FileExplorer) (w w' : W)
  (o : outcome unit) :
  scan_directory self w = (o, self', w') ->
  w' = w
  /\ current_path self' = current_path self
  /\ search_mode self' = search_mode self
  /\ note_mode self' = note_mode self
  /\ search_query self' = search_query self
  /\ note_title self' = note_title self
  /\ filtered_items self' = filtered_items self.
Proof.
  rewrite scan_directory_eq. cbv zeta. unfold clamp_cursor.
  destruct (iterdir (current_path self) w) as [[|] | children];
    intros Hrun; inversion Hrun; subst; clear Hrun;
    try match goal with
        | |- context [nonempty ?l] => destruct (nonempty l)
        end;
    repeat split; reflexivity.
Qed.

(** Navigation either fails at once, leaving the explorer as it was,
    or ends in Browse mode. *)
Lemma navigate_to_modes (p : path) (self self' : FileExplorer) (w w' : W)
  (o : outcome unit) :
  navigate_to p self w = (o, self', w') ->
  self' = self \/ browsing self'.
Proof.
  rewrite navigate_to_eq.
  destruct (resolve p w) as [[|] | q].
  - intros Hrun. left. now inversion Hrun.
  - intros Hrun. left. now inversion Hrun.
  - intros Hrun. right.
    apply scan_directory_frame in Hrun as (_ & _ & Hs & Hn & _).
    split; [rewrite Hs | rewrite Hn]; reflexivity.
Qed.

Lemma activate_modes (l : list Item) (c : Z) (self self' : FileExplorer)
  (w w' : W) (o : outcome unit) :
  activate l c self w = (o, self', w') ->
  self' = self \/ browsing self'.
Proof.
  unfold activate, index, bind.
  destruct (py_index l c) as [selected |];
    [| intros Hrun; left; now inversion Hrun].
  cbn [ret]. destruct (item_is_dir selected).
  - apply navigate_to_modes.
  - intros Hrun. left. now apply open_file_self in Hrun.
Qed.

Lemma handle_input_modes (fuel : nat) (key : Z) (self self' : FileExplorer)
  (w w' : W) (go_on : bool) :
  modes_exclusive self ->
  handle_input ratio fuel key self w = (Returned go_on, self', w') ->
  modes_exclusive self'.
Proof.
  unfold modes_exclusive. intros Hex Hrun.
  destruct (search_mode self) eqn:Hs.
  - specialize (Hex eq_refl).
    rewrite handle_input_search in Hrun by exact Hs.
    destruct (key =? 27); [inversion Hrun; subst; discriminate |].
    destruct (is_backspace key).
    { inversion Hrun; subst. intros _.
      unfold handle_search. now destruct (str_is_empty _). }
    destruct (is_enter key && nonempty (filtered_items self)).
    { apply continue_after_returned in Hrun as (_ & u & Hrun).
      apply activate_modes in Hrun as [-> | [Hs' Hn']]; [auto | congruence]. }
    destruct (is_printable_key key).
    { inversion Hrun; subst. intros _.
      unfold handle_search. now destruct (str_is_empty _). }
    inversion Hrun; subst. auto.
  - destruct (note_mode self) eqn:Hn.
    + assert (Hsame : search_mode self' = false).
      { rewrite handle_input_note in Hrun by assumption.
        destruct (key =? 27); [now inversion Hrun; subst |].
        destruct (is_backspace key); [now inversion Hrun; subst |].
        destruct (is_enter key).
        { destruct (negb (str_is_empty (strip_ws (note_title self))));
            [| now inversion Hrun; subst].
          destruct (create_note fuel (note_title self) self w)
            as [[[b | e | |] s1] w1] eqn:Ec; try discriminate.
          apply create_note_self in Ec. subst s1.
          now inversion Hrun; subst. }
        destruct (is_printable_key key); now inversion Hrun; subst. }
      congruence.
    + rewrite handle_input_browse in Hrun by assumption.
      destruct (key =? ord_q); [inversion Hrun; subst; congruence |].
      destruct (key =? ord_slash).
      { inversion Hrun; subst. intros _.
        unfold handle_search. cbn. exact Hn. }
      destruct (key =? 14); [inversion Hrun; subst; cbn; congruence |].
      destruct (key =? 4).
      { apply continue_after_returned in Hrun as (_ & b & Hrun).
        apply open_daily_note_self in Hrun. subst. congruence. }
      destruct ((key =? KEY_UP) && nonempty (items self));
        [inversion Hrun; subst; cbn; congruence |].
      destruct ((key =? KEY_DOWN) && nonempty (items self));
        [inversion Hrun; subst; cbn; congruence |].
      destruct (is_enter key && nonempty (items self)).
      { apply continue_after_returned in Hrun as (_ & u & Hrun).
        apply activate_modes in Hrun as [-> | [Hs' Hn']]; congruence. }
      inversion Hrun; subst. congruence.
Qed.

Lemma reachable_modes (self : FileExplorer) (w : W) :
  reachable ratio self w -> modes_exclusive self.
Proof.
  induction 1 as [w w' self' Hrun | fuel key go_on self self' w w' _ IH Hrun
                 | self w w' _ IH].
  - apply scan_directory_frame in Hrun as (_ & _ & Hs & _).
    unfold modes_exclusive. rewrite Hs. discriminate.
  - eapply handle_input_modes; eassumption.
  - exact IH.
Qed.

End ModeFacts.

Lemma on_secret_reachable : reachable indel_ratio on_secret home.
Proof.
  eapply (reachable_key indel_ratio 1 KEY_DOWN true
            (snd (fst (scan_directory (init home) home))) on_secret home home).
  - apply (reachable_run indel_ratio home home). vm_compute. reflexivity.
  - vm_compute. reflexivity.
Qed.

(** X1: [handle_input] returns [False] only for the key [q] in Browse
    mode, and then nothing has changed; in Search and NoteEntry mode
    [q] is text. *)
Theorem quit_only_in_browse {W : Type} `{OS W} (ratio : string -> string -> Q)
  (fuel : nat) (key : Z) (self self' : FileExplorer) (w w' : W) (go_on : bool) :
  handle_input ratio fuel key self w = (Returned go_on, self', w') ->
  (go_on = false
   <-> (search_mode self = false /\ note_mode self = false /\ key = ord_q))
  /\ (go_on = false -> self' = self /\ w' = w).
Proof.
  intros Hrun.
  assert (Hcases :
    (go_on = true
     /\ ~ (search_mode self = false /\ note_mode self = false /\ key = ord_q))
    \/ (go_on = false /\ self' = self /\ w' = w
        /\ search_mode self = false /\ note_mode self = false /\ key = ord_q)).
  { destruct (search_mode self) eqn:Hs.
    - left. split; [| intros (Hf & _); discriminate].
      rewrite handle_input_search in Hrun by exact Hs.
      destruct (key =? 27); [now inversion Hrun |].
      destruct (is_backspace key); [now inversion Hrun |].
      destruct (is_enter key && nonempty (filtered_items self));
        [now apply continue_after_returned in Hrun |].
      destruct (is_printable_key key); now inversion Hrun.
    - destruct (note_mode self) eqn:Hn.
      + left. split; [| intros (_ & Hf & _); discriminate].
        rewrite handle_input_note in Hrun by assumption.
        destruct (key =? 27); [now inversion Hrun |].
        destruct (is_backspace key); [now inversion Hrun |].
        destruct (is_enter key).
        { destruct (negb (str_is_empty (strip_ws (note_title self))));
            [| now inversion Hrun].
          destruct (create_note fuel (note_title self) self w)
            as [[[b | e | |] s1] w1]; try discriminate. now inversion Hrun. }
        destruct (is_printable_key key); now inversion Hrun.
      + rewrite handle_input_browse in Hrun by assumption.
        destruct (Z.eqb_spec key ord_q) as [Hq | Hq].
        { right. inversion Hrun; subst. repeat split; reflexivity. }
        left. split; [| intros (_ & _ & Hk); contradiction].
        destruct (key =? ord_slash); [now inversion Hrun |].
        destruct (key =? 14); [now inversion Hrun |].
        destruct (key =? 4); [now apply continue_after_returned in Hrun |].
        destruct ((key =? KEY_UP) && nonempty (items self));
          [now inversion Hrun |].
        destruct ((key =? KEY_DOWN) && nonempty (items self));
          [now inversion Hrun |].
        destruct (is_enter key && nonempty (items self));
          [now apply continue_after_returned in Hrun |].
        now inversion Hrun. }
  destruct Hcases as [[Hgo Hnot] | (Hgo & Hself & Hw & Hmode)].
  - subst go_on. split; [split; [discriminate | tauto] | discriminate].
  - split; [tauto | auto].
Qed.

Lemma quit_only_in_browse_witness :
  handle_input indel_ratio 1 ord_q on_secret home = (Returned false, on_secret, home)
  /\ (search_mode on_secret = false /\ note_mode on_secret = false
      /\ ord_q = ord_q).
Proof.
  assert (Hrun : handle_input indel_ratio 1 ord_q on_secret home
                 = (Returned false, on_secret, home))
    by (vm_compute; reflexivity).
  split; [exact Hrun |].
  apply (proj1 (quit_only_in_browse indel_ratio 1 ord_q on_secret on_secret
                  home home false Hrun)).
  reflexivity.
Defined.

(** X2: the explorer is never in Search mode and NoteEntry mode at
    once. *)
Theorem modes_never_overlap {W : Type} `{OS W} (ratio : string -> string -> Q)
  (self : FileExplorer) (w : W) :
  reachable ratio self w ->
  search_mode self && note_mode self = false.
Proof.
  intros Hreach. apply reachable_modes in Hreach. unfold modes_exclusive in Hreach.
  destruct (search_mode self); [| reflexivity].
  now rewrite Hreach.
Qed.

Lemma modes_never_overlap_witness :
  search_mode on_secret && note_mode on_secret = false.
Proof.
  exact (modes_never_overlap indel_ratio on_secret home on_secret_reachable).
Defined.

(** X3: Escape always leads to Browse mode: it leaves Search mode
    with the query cleared and the cursor at 0, leaves NoteEntry mode
    with the title cleared, and does nothing in Browse mode; the
    items and the directory stay as they are. *)
Theorem escape_returns_to_browse {W : Type} `{OS W}
  (ratio : string -> string -> Q) (fuel : nat) (self : FileExplorer) (w : W) :
  reachable ratio self w ->
  exists self' : FileExplorer,
    handle_input ratio fuel 27 self w = (Returned true, self', w)
    /\ browsing self'
    /\ items self' = items self
    /\ current_path self' = current_path self
    /\ (search_mode self = true ->
        search_query self' = "" /\ cursor_position self' = 0)
    /\ (note_mode self = true ->
        note_title self' = "" /\ cursor_position self' = cursor_position self)
    /\ (browsing self -> self' = self).
Proof.
  intros Hreach. apply reachable_modes in Hreach. unfold modes_exclusive in Hreach.
  destruct (search_mode self) eqn:Hs.
  - specialize (Hreach eq_refl).
    exists (set_cursor_position 0 (set_search_query "" (set_search_mode false self))).
    rewrite handle_input_search by exact Hs. cbn.
    repeat split; auto; try congruence.
    intros [Hf _]. congruence.
  - destruct (note_mode self) eqn:Hn.
    + exists (set_note_title "" (set_note_mode false self)).
      rewrite handle_input_note by assumption. cbn.
      repeat split; auto; try congruence.
      intros [_ Hf]. congruence.
    + exists self.
      rewrite handle_input_browse by assumption. cbn.
      repeat split; auto; congruence.
Qed.

Lemma escape_returns_to_browse_witness :
  exists self' : FileExplorer,
    handle_input indel_ratio 1 27 on_secret home = (Returned true, self', home)
    /\ browsing self'.
Proof.
  destruct (escape_returns_to_browse indel_ratio 1 on_secret home
              on_secret_reachable) as (self' & Hrun & Hb & _).
  now exists self'.
Defined.

(** ** Exceptions *)

Section UniquePathSound.
Context {W : Type} `{OS W}.
Variables (dir : path) (stem : string) (w : W).

(** However the loop ends, every name tried before the last is
    taken; the loop returns a name that is free, raises the error of
    the test that raised, or has run out of tests. *)
Lemma free_path_loop_sound (fuel j : nat) :
  (free_path_loop fuel dir stem (Z.of_nat (S j)) (candidate dir stem j) w
   = Spinning
   /\ forall i, (j <= i < j + fuel)%nat ->
                exists_ (candidate dir stem i) w = inr true)
  \/ exists k : nat,
       (j <= k < j + fuel)%nat
       /\ (forall i, (j <= i < k)%nat ->
                     exists_ (candidate dir stem i) w = inr true)
       /\ ((exists_ (candidate dir stem k) w = inr false
            /\ free_path_loop fuel dir stem (Z.of_nat (S j))
                 (candidate dir stem j) w
               = Returned (candidate dir stem k))
           \/ exists err : os_error,
                exists_ (candidate dir stem k) w = inl err
                /\ free_path_loop fuel dir stem (Z.of_nat (S j))
                     (candidate dir stem j) w
                   = Raised (OSError err)).
Proof.
  revert j. induction fuel as [| fuel IH]; intros j; cbn [free_path_loop].
  { left. split; [reflexivity |]. intros i Hi. lia. }
  destruct (exists_ (candidate dir stem j) w) as [err | [|]] eqn:E.
  - right. exists j. split; [lia |]. split; [intros i Hi; lia |].
    right. now exists err.
  - replace (Z.of_nat (S j) + 1) with (Z.of_nat (S (S j))) by lia.
    destruct (IH (S j)) as [[Hspin Hbusy] | (k & Hk & Hbusy & Hend)].
    + left. split; [exact Hspin |]. intros i Hi.
      destruct (Nat.eq_dec i j) as [-> | Hne]; [exact E | apply Hbusy; lia].
    + right. exists k. split; [lia |]. split; [| exact Hend].
      intros i Hi.
      destruct (Nat.eq_dec i j) as [-> | Hne]; [exact E | apply Hbusy; lia].
  - right. exists j. split; [lia |]. split; [intros i Hi; lia |].
    left. now split.
Qed.

Lemma resolve_unique_path_sound (fuel : nat) :
  (resolve_unique_path fuel dir stem w = Spinning
   /\ forall i, (i < fuel)%nat -> exists_ (candidate dir stem i) w = inr true)
  \/ exists k : nat,
       (k < fuel)%nat
       /\ (forall i, (i < k)%nat -> exists_ (candidate dir stem i) w = inr true)
       /\ ((exists_ (candidate dir stem k) w = inr false
            /\ resolve_unique_path fuel dir stem w
               = Returned (candidate dir stem k))
           \/ exists err : os_error,
                exists_ (candidate dir stem k) w = inl err
                /\ resolve_unique_path fuel dir stem w = Raised (OSError err)).
Proof.
  destruct (free_path_loop_sound fuel 0)
    as [[Hspin Hbusy] | (k & Hk & Hbusy & Hend)].
  - left. split; [exact Hspin |]. intros i Hi. apply Hbusy. lia.
  - right. exists k. split; [lia |].
    split; [intros i Hi; apply Hbusy; lia | exact Hend].
Qed.

End UniquePathSound.

Lemma candidate_child (dir : path) (stem : string) (k : nat) :
  exists name : string, candidate dir stem k = joinpath dir name.
Proof. destruct k; eexists; reflexivity. Qed.

Section ExceptionFacts.
Context {W : Type} `{OS W}.
Variable ratio : string -> string -> Q.







End ExceptionFacts.



Lemma enter_key_tests (key : Z) :
  is_enter key = true ->
  (key =? 27) = false /\ is_backspace key = false
  /\ (key =? ord_q) = false /\ (key =? ord_slash) = false
  /\ (key =? 14) = false /\ (key =? 4) = false
  /\ (key =? KEY_UP) = false /\ (key =? KEY_DOWN) = false.
Proof.
  unfold is_enter. rewrite orb_true_iff, !Z.eqb_eq.
  intros [-> | ->]; repeat split; reflexivity.
Qed.

Lemma py_index_nonempty {A : Type} (l : list A) (i : Z) (x : A) :
  py_index l i = Some x -> nonempty l = true.
Proof.
  destruct l as [| y l]; [| reflexivity].
  unfold py_index, len. cbn [List.length Z.of_nat Z.opp Z.add].
  destruct (Z.leb_spec 0 i), (Z.ltb_spec i 0); cbn; try discriminate; lia.
Qed.

(** Enter on a directory entry is the navigation to it. *)
Lemma handle_input_enter_directory {W : Type} `{OS W}
  (ratio : string -> string -> Q) (fuel : nat) (key : Z)
  (self : FileExplorer) (w : W) (selected : Item) :
  search_mode self = true \/ note_mode self = false ->
  is_enter key = true ->
  py_index (active_list self) (cursor_position self) = Some selected ->
  item_is_dir selected = true ->
  handle_input ratio fuel key self w
  = continue_after (navigate_to (item_path selected) self w).
Proof.
  intros Hmode Henter Hsel Hdir.
  pose proof (py_index_nonempty _ _ _ Hsel) as Hne.
  destruct (enter_key_tests key Henter)
    as (H27 & Hbs & Hq & Hsl & H14 & H4 & Hup & Hdown).
  assert (Hact : activate (active_list self) (cursor_position self) self w
                 = navigate_to (item_path selected) self w).
  { unfold activate, index, bind. rewrite Hsel. cbn [ret]. now rewrite Hdir. }
  unfold active_list in *.
  destruct (search_mode self) eqn:Hs.
  - rewrite handle_input_search by exact Hs.
    now rewrite H27, Hbs, Henter, Hne, <- Hact.
  - destruct Hmode as [Hmode | Hn]; [discriminate |].
    rewrite handle_input_browse by assumption.
    now rewrite Hq, Hsl, H14, H4, Hup, Hdown, Henter, Hne, <- Hact.
Qed.

(** X5: Enter on a directory entry whose listing fails with an
    [OSError] other than [PermissionError] (the directory has
    vanished, say) raises out of [handle_input], and by then the
    explorer has already moved: the current path is the target, the
    items are the parent entry alone, the cursor is 0 and the modes
    are cleared. *)
Theorem enter_on_unlistable_directory_raises {W : Type} `{OS W}
  (ratio : string -> string -> Q) (fuel : nat) (key : Z)
  (self : FileExplorer) (w : W) (selected : Item) (q : path) :
  search_mode self = true \/ note_mode self = false ->
  is_enter key = true ->
  py_index (active_list self) (cursor_position self) = Some selected ->
  item_is_dir selected = true ->
  resolve (item_path selected) w = inr q ->
  iterdir q w = inl OtherOSError ->
  exists self' : FileExplorer,
    handle_input ratio fuel key self w = (Raised (OSError OtherOSError), self', w)
    /\ current_path self' = q
    /\ items self' = parent_entries q
    /\ cursor_position self' = 0
    /\ browsing self'
    /\ search_query self' = "" /\ note_title self' = "".
Proof.
  intros Hmode Henter Hsel Hdir Hres Hls.
  exists (set_items (parent_entries q) (entered q self)).
  split; [| repeat split; reflexivity].
  rewrite (handle_input_enter_directory ratio fuel key self w selected)
    by assumption.
  rewrite navigate_to_eq, Hres, scan_directory_eq. cbv zeta.
  change (current_path (entered q self)) with q. now rewrite Hls.
Qed.

Lemma enter_on_unlistable_directory_raises_witness :
  exists self' : FileExplorer,
    handle_input indel_ratio 1 13 on_subdir subdir_gone
    = (Raised (OSError OtherOSError), self', subdir_gone)
    /\ current_path self' = ["home"; "subdir"]
    /\ items self' = parent_entries ["home"; "subdir"].
Proof.
  assert (Hsel : py_index (active_list on_subdir) (cursor_position on_subdir)
                 = Some (mkItem "subdir/" true ["home"; "subdir"]))
    by (vm_compute; reflexivity).
  assert (Hls : iterdir ["home"; "subdir"] subdir_gone = inl OtherOSError)
    by (vm_compute; reflexivity).
  assert (Hres : resolve (item_path (mkItem "subdir/" true ["home"; "subdir"]))
                   subdir_gone = inr ["home"; "subdir"]) by reflexivity.
  assert (Hmode : search_mode on_subdir = true \/ note_mode on_subdir = false)
    by (right; vm_compute; reflexivity).
  destruct (enter_on_unlistable_directory_raises indel_ratio 1 13 on_subdir
              subdir_gone _ ["home"; "subdir"]
              Hmode eq_refl Hsel eq_refl Hres Hls)
    as (self' & Hrun & Hpath & Hitems & _).
  exists self'. auto.
Defined.

(** ** Text entry *)

Lemma drop_last_append (s : string) (c : ascii) :
  drop_last (s ++ String c EmptyString) = s.
Proof.
  induction s as [| a r IH]; [reflexivity |].
  cbn [append drop_last]. rewrite IH.
  destruct r; reflexivity.
Qed.

Lemma printable_key_tests (key : Z) :
  is_printable_key key = true ->
  (key =? 27) = false /\ is_backspace key = false /\ is_enter key = false.
Proof.
  unfold is_printable_key, is_backspace, is_enter, KEY_BACKSPACE.
  rewrite andb_true_iff, !Z.leb_le. intros [Hlo Hhi].
  repeat split;
    repeat match goal with
           | |- context [?a =? ?b] => destruct (Z.eqb_spec a b); [lia |]
           end; reflexivity.
Qed.

Lemma backspace_key_tests (key : Z) :
  is_backspace key = true -> (key =? 27) = false.
Proof.
  unfold is_backspace, KEY_BACKSPACE. rewrite !orb_true_iff, !Z.eqb_eq.
  intros [[-> | ->] | ->]; reflexivity.
Qed.

Section SearchState.
Variable ratio : string -> string -> Q.

(** [handle_search] reads the items and writes the filtered items and
    the cursor. *)
Lemma handle_search_frame (query : string) (s : FileExplorer) :
  current_path (handle_search ratio query s) = current_path s
  /\ items (handle_search ratio query s) = items s
  /\ search_mode (handle_search ratio query s) = search_mode s
  /\ search_query (handle_search ratio query s) = search_query s
  /\ note_mode (handle_search ratio query s) = note_mode s
  /\ note_title (handle_search ratio query s) = note_title s
  /\ cursor_position (handle_search ratio query s) = 0.
Proof.
  unfold handle_search. destruct (str_is_empty query); repeat split; reflexivity.
Qed.

Lemma handle_search_ext (query : string) (s s' : FileExplorer) :
  current_path s = current_path s' -> items s = items s' ->
  search_mode s = search_mode s' -> search_query s = search_query s' ->
  note_mode s = note_mode s' -> note_title s = note_title s' ->
  handle_search ratio query s = handle_search ratio query s'.
Proof.
  destruct s, s'. cbn. intros; subst.
  unfold handle_search. cbn. destruct (str_is_empty query); reflexivity.
Qed.

Lemma handle_search_twice (q q' : string) (s : FileExplorer) :
  handle_search ratio q (handle_search ratio q' s) = handle_search ratio q s.
Proof.
  destruct (handle_search_frame q' s) as (H1 & H2 & H3 & H4 & H5 & H6 & _).
  now apply handle_search_ext.
Qed.

Lemma search_current_after (query : string) (s : FileExplorer) :
  search_current ratio (handle_search ratio query (set_search_query query s)).
Proof.
  intros _.
  destruct (handle_search_frame query (set_search_query query s))
    as (_ & _ & _ & Hq & _).
  rewrite Hq. cbn [search_query set_search_query].
  apply handle_search_twice.
Qed.

End SearchState.

Section SearchInvariant.
Context {W : Type} `{OS W}.
Variable ratio : string -> string -> Q.

(** Search mode is entered by the key [/] only. *)
Lemma handle_input_enters_search (fuel : nat) (key : Z)
  (self self' : FileExplorer) (w w' : W) (o : outcome bool) :
  search_mode self = false ->
  handle_input ratio fuel key self w = (o, self', w') ->
  search_mode self' = true ->
  self' = handle_search ratio "" (set_search_query "" (set_search_mode true self)).
Proof.
  intros Hs Hrun Hs'.
  destruct (note_mode self) eqn:Hn.
  - exfalso. rewrite handle_input_note in Hrun by assumption.
    destruct (key =? 27); [inversion Hrun; subst; cbn in Hs'; congruence |].
    destruct (is_backspace key);
      [inversion Hrun; subst; cbn in Hs'; congruence |].
    destruct (is_enter key).
    { destruct (negb (str_is_empty (strip_ws (note_title self))));
        [| inversion Hrun; subst; cbn in Hs'; congruence].
      destruct (create_note fuel (note_title self) self w)
        as [[[b | e | |] s1] w1] eqn:Ec;
        apply create_note_self in Ec; subst s1;
        inversion Hrun; subst; cbn in Hs'; congruence. }
    destruct (is_printable_key key);
      inversion Hrun; subst; cbn in Hs'; congruence.
  - rewrite handle_input_browse in Hrun by assumption.
    destruct (key =? ord_q); [inversion Hrun; subst; congruence |].
    destruct (key =? ord_slash); [now inversion Hrun |].
    exfalso.
    destruct (key =? 14); [inversion Hrun; subst; cbn in Hs'; congruence |].
    destruct (key =? 4).
    { destruct (open_daily_note self w) as [[od s1] w1] eqn:Ed.
      apply open_daily_note_self in Ed. subst s1.
      destruct od; inversion Hrun; subst; congruence. }
    destruct ((key =? KEY_UP) && nonempty (items self));
      [inversion Hrun; subst; cbn in Hs'; congruence |].
    destruct ((key =? KEY_DOWN) && nonempty (items self));
      [inversion Hrun; subst; cbn in Hs'; congruence |].
    destruct (is_enter key && nonempty (items self)).
    { destruct (activate (items self) (cursor_position self) self w)
        as [[oa s1] w1] eqn:Ea.
      apply activate_modes in Ea as [-> | [Hs1 _]];
        destruct oa; inversion Hrun; subst; congruence. }
    inversion Hrun; subst. congruence.
Qed.

Lemma handle_input_search_current (fuel : nat) (key : Z)
  (self self' : FileExplorer) (w w' : W) (o : outcome bool) :
  search_current ratio self ->
  handle_input ratio fuel key self w = (o, self', w') ->
  search_current ratio self'.
Proof.
  intros Hcur Hrun.
  destruct (search_mode self) eqn:Hs.
  - rewrite handle_input_search in Hrun by exact Hs.
    destruct (key =? 27); [inversion Hrun; subst; intros Hf; discriminate Hf |].
    destruct (is_backspace key).
    { inversion Hrun; subst. apply search_current_after. }
    destruct (is_enter key && nonempty (filtered_items self)).
    { destruct (activate (filtered_items self) (cursor_position self) self w)
        as [[oa s1] w1] eqn:Ea.
      assert (Hs1 : s1 = self') by (destruct oa; now inversion Hrun).
      subst s1.
      apply activate_modes in Ea as [-> | [Hs' _]]; [exact Hcur |].
      intros Hf. congruence. }
    destruct (is_printable_key key).
    { inversion Hrun; subst. apply search_current_after. }
    inversion Hrun; subst. exact Hcur.
  - intros Hs'.
    rewrite (handle_input_enters_search fuel key self self' w w' o Hs Hrun Hs').
    now apply (search_current_after ratio "" (set_search_mode true self)).
Qed.

Lemma reachable_search_current (self : FileExplorer) (w : W) :
  reachable ratio self w -> search_current ratio self.
Proof.
  induction 1 as [w w' self' Hrun | fuel key go_on self self' w w' _ IH Hrun
                 | self w w' _ IH].
  - apply scan_directory_frame in Hrun as (_ & _ & Hs & _).
    intros Hf. rewrite Hs in Hf. discriminate Hf.
  - eapply handle_input_search_current; eassumption.
  - exact IH.
Qed.

End SearchInvariant.

Lemma in_search_reachable : reachable indel_ratio in_search home.
Proof.
  eapply (reachable_key indel_ratio 1 ord_slash true on_secret in_search home home).
  - exact on_secret_reachable.
  - vm_compute. reflexivity.
Qed.

Lemma in_note_reachable : reachable indel_ratio in_note home.
Proof.
  eapply (reachable_key indel_ratio 1 14 true on_secret in_note home home).
  - exact on_secret_reachable.
  - vm_compute. reflexivity.
Qed.

(** X6: in Search mode the filtered items are always the search
    results of the current items for the query shown, and the cursor
    is always on the first of them; with an empty query they are the
    items themselves. *)
Theorem search_results_follow_query {W : Type} `{OS W}
  (ratio : string -> string -> Q) (self : FileExplorer) (w : W) :
  reachable ratio self w ->
  search_mode self = true ->
  cursor_position self = 0
  /\ filtered_items self
     = filtered_items (handle_search ratio (search_query self) self)
  /\ (search_query self = "" -> filtered_items self = items self).
Proof.
  intros Hreach Hs.
  pose proof (reachable_search_current ratio self w Hreach Hs) as Hcur.
  split; [| split].
  - rewrite <- Hcur. apply handle_search_frame.
  - now rewrite Hcur.
  - intros Hq. rewrite <- Hcur at 1. rewrite Hq. reflexivity.
Qed.

Lemma search_results_follow_query_witness :
  cursor_position in_search = 0
  /\ filtered_items in_search
     = filtered_items (handle_search indel_ratio (search_query in_search) in_search).
Proof.
  assert (Hs : search_mode in_search = true) by (vm_compute; reflexivity).
  destruct (search_results_follow_query indel_ratio in_search home
              in_search_reachable Hs) as (Hc & Hf & _).
  split; assumption.
Defined.

(** X7: in Search mode and in NoteEntry mode, typing a printable
    character appends it to the text of the mode, and Backspace right
    after it gives back the explorer exactly as it was, filtered
    items and cursor included. *)
Theorem typing_undone_by_backspace {W : Type} `{OS W}
  (ratio : string -> string -> Q) (fuel : nat) (key bs : Z)
  (self : FileExplorer) (w : W) :
  reachable ratio self w ->
  search_mode self = true \/ note_mode self = true ->
  is_printable_key key = true ->
  is_backspace bs = true ->
  exists typed : FileExplorer,
    handle_input ratio fuel key self w = (Returned true, typed, w)
    /\ (search_mode self = true ->
        search_query typed = append_chr (search_query self) key)
    /\ (note_mode self = true ->
        note_title typed = append_chr (note_title self) key)
    /\ handle_input ratio fuel bs typed w = (Returned true, self, w).
Proof.
  intros Hreach Hmode Hkey Hbs.
  destruct (printable_key_tests key Hkey) as (K27 & Kbs & Kent).
  pose proof (backspace_key_tests bs Hbs) as B27.
  pose proof (reachable_modes ratio self w Hreach) as Hex.
  pose proof (reachable_search_current ratio self w Hreach) as Hcur.
  unfold modes_exclusive in Hex.
  destruct (search_mode self) eqn:Hs.
  - specialize (Hex eq_refl). specialize (Hcur Hs).
    set (q := append_chr (search_query self) key).
    exists (handle_search ratio q (set_search_query q self)).
    destruct (handle_search_frame ratio q (set_search_query q self))
      as (F1 & F2 & F3 & F4 & F5 & F6 & _).
    split.
    { rewrite handle_input_search by exact Hs.
      now rewrite K27, Kbs, Kent, Hkey. }
    split; [intros _; exact F4 |].
    split; [intros Hn; congruence |].
    rewrite handle_input_search by (rewrite F3; exact Hs).
    rewrite B27, Hbs, F4. cbn [search_query set_search_query].
    unfold q, append_chr. rewrite drop_last_append.
    f_equal. f_equal. etransitivity; [| exact Hcur].
    apply handle_search_ext; unfold handle_search;
      destruct (str_is_empty _); reflexivity.
  - destruct Hmode as [Hf | Hn]; [discriminate |].
    exists (set_note_title (append_chr (note_title self) key) self).
    split.
    { rewrite handle_input_note by assumption.
      now rewrite K27, Kbs, Kent, Hkey. }
    split; [intros Hf; discriminate |].
    split; [intros _; reflexivity |].
    rewrite handle_input_note by assumption.
    rewrite B27, Hbs. cbn [note_title set_note_title].
    unfold append_chr. rewrite drop_last_append.
    destruct self; reflexivity.
Qed.

Lemma typing_undone_by_backspace_witness :
  exists typed : FileExplorer,
    handle_input indel_ratio 1 110 in_search home = (Returned true, typed, home)
    /\ handle_input indel_ratio 1 127 typed home = (Returned true, in_search, home).
Proof.
  assert (Hmode : search_mode in_search = true \/ note_mode in_search = true)
    by (left; vm_compute; reflexivity).
  destruct (typing_undone_by_backspace indel_ratio 1 110 127 in_search home
              in_search_reachable Hmode eq_refl eq_refl)
    as (typed & Hrun & _ & _ & Hback).
  exists typed. split; assumption.
Defined.

(** ** Notes *)

Section NoteWrites.
Context {W : Type} `{OS W}.

(** What the two note commands do to the world. *)
Lemma create_note_world (fuel : nat) (title : string)
  (self self' : FileExplorer) (w w' : W) (o : outcome bool) :
  create_note fuel title self w = (o, self', w') ->
  w' = w
  \/ exists name : string,
       exists_ (joinpath (current_path self) name) w = inr false
       /\ write_text (joinpath (current_path self) name) w = inr w'.
Proof.
  rewrite create_note_eq.
  destruct (str_is_empty (strip_ws title)); [inversion 1; now left |].
  destruct (resolve_unique_path_sound (current_path self)
              (sanitize_filename (strip_ws title)) w fuel)
    as [[-> _] | (k & _ & _ & [[Hfree ->] | (err & _ & ->)])];
    try (inversion 1; now left).
  destruct (candidate_child (current_path self)
              (sanitize_filename (strip_ws title)) k) as (name & Hname).
  rewrite Hname in *.
  destruct (write_text (joinpath (current_path self) name) w)
    as [err | w1] eqn:Ew; [inversion 1; now left |].
  destruct (open_file_frame (joinpath (current_path self) name) self w1)
    as (oo & -> & _).
  intros Hrun. right. exists name. split; [exact Hfree |].
  destruct oo as [u | e | |]; try (inversion Hrun; subst; exact Ew).
  destruct (is_exception e); inversion Hrun; subst; exact Ew.
Qed.

Lemma open_daily_note_world (self self' : FileExplorer) (w w' : W)
  (o : outcome bool) :
  open_daily_note self w = (o, self', w') ->
  w' = w
  \/ (exists_ (joinpath (current_path self) (get_daily_note_filename w)) w
      = inr false
      /\ write_text (joinpath (current_path self) (get_daily_note_filename w)) w
         = inr w').
Proof.
  rewrite open_daily_note_eq. cbv zeta.
  set (file_path := joinpath (current_path self) (get_daily_note_filename w)).
  destruct (exists_ file_path w) as [err | [|]]; [inversion 1; now left | |].
  - destruct (open_file_frame file_path self w) as (oo & -> & _).
    intros Hrun. left. destruct oo; now inversion Hrun.
  - destruct (write_text file_path w) as [err | w1] eqn:Ew;
      [inversion 1; now left |].
    destruct (open_file_frame file_path self w1) as (oo & -> & _).
    intros Hrun. right. split; [reflexivity |].
    destruct oo; inversion Hrun; subst; reflexivity.
Qed.

End NoteWrites.

(** X8: [create_note] never overwrites a file and never changes the
    explorer.  A blank title returns [False] and writes nothing.
    Otherwise the loop tries the names [stem.md], [stem-1.md],
    [stem-2.md], ... in order.  If all the names it can try are taken
    it has not ended.  If the test of a name raises, the error leaves
    [create_note] and nothing is written.  If a name is free, exactly
    one empty file is written, there, or the write fails and the call
    returns [False] with nothing written.  After the write the editor
    takes over, or the prompt is answered and the call returns
    [True]; at the end of the input the call returns [False] although
    the file is written, and [KeyboardInterrupt] leaves the call. *)
Theorem create_note_never_overwrites {W : Type} `{OS W}
  (fuel : nat) (title : string) (self self' : FileExplorer) (w w' : W)
  (o : outcome bool) :
  create_note fuel title self w = (o, self', w') ->
  let dir := current_path self in
  let stem := sanitize_filename (strip_ws title) in
  self' = self
  /\ (str_is_empty (strip_ws title) = true -> o = Returned false /\ w' = w)
  /\ (str_is_empty (strip_ws title) = false ->
      (o = Spinning /\ w' = w
       /\ forall i, (i < fuel)%nat ->
                    exists_ (candidate dir stem i) w = inr true)
      \/ exists k : nat,
           (k < fuel)%nat
           /\ (forall i, (i < k)%nat ->
                         exists_ (candidate dir stem i) w = inr true)
           /\ ((exists err : os_error,
                   exists_ (candidate dir stem k) w = inl err
                   /\ o = Raised (OSError err) /\ w' = w)
               \/ (exists_ (candidate dir stem k) w = inr false
                   /\ ((exists err : os_error,
                           write_text (candidate dir stem k) w = inl err
                           /\ o = Returned false /\ w' = w)
                       \/ (write_text (candidate dir stem k) w = inr w'
                           /\ (o = Replaced
                               \/ (o = Returned true /\ input_ w' = inr tt)
                               \/ (o = Returned false
                                   /\ input_ w' = inl EndOfInput)
                               \/ (o = Raised KeyboardInterrupt
                                   /\ input_ w' = inl Interrupted))))))).
Proof.
  intros Hrun dir stem.
  split; [now apply create_note_self in Hrun |].
  rewrite create_note_eq in Hrun. fold dir stem in Hrun.
  destruct (str_is_empty (strip_ws title)) eqn:Eblank.
  { inversion Hrun; subst. split; [auto | discriminate]. }
  split; [discriminate | intros _].
  destruct (resolve_unique_path_sound dir stem w fuel)
    as [[Hspin Hbusy] | (k & Hk & Hbusy & [[Hfree Hret] | (err & Herr & Hraise)])].
  - rewrite Hspin in Hrun. inversion Hrun; subst. left. auto.
  - rewrite Hret in Hrun. right. exists k.
    split; [exact Hk |]. split; [exact Hbusy |]. right.
    split; [exact Hfree |].
    destruct (write_text (candidate dir stem k) w) as [err | w1] eqn:Ew.
    { inversion Hrun; subst. left. now exists err. }
    right.
    destruct (open_file_frame (candidate dir stem k) self w1)
      as (oo & Ho & Hcases).
    rewrite Ho in Hrun.
    destruct Hcases as [-> | [[-> Hin] | (ie & Hin & ->)]].
    + inversion Hrun; subst. auto.
    + inversion Hrun; subst. auto.
    + destruct ie; cbn in Hrun; inversion Hrun; subst; auto 6.
  - rewrite Hraise in Hrun. inversion Hrun; subst. right. exists k.
    split; [exact Hk |]. split; [exact Hbusy |]. left. now exists err.
Qed.

(** The note [note-2.md] is written in [home], and with the input at
    its end the call returns [False] all the same. *)
Lemma create_note_never_overwrites_witness :
  snd (fst (create_note 3 "note" on_secret home)) = on_secret
  /\ exists_ (candidate ["home"] "note" 2) home = inr false
  /\ write_text (candidate ["home"] "note" 2) home
     = inr (snd (create_note 3 "note" on_secret home))
  /\ fst (fst (@create_note toy_fs no_terminal_OS 3 "note" on_secret home))
     = Returned false
  /\ @write_text toy_fs no_terminal_OS (candidate ["home"] "note" 2) home
     = inr (snd (@create_note toy_fs no_terminal_OS 3 "note" on_secret home)).
Proof.
  assert (Ho : fst (fst (create_note 3 "note" on_secret home)) = Returned true)
    by (vm_compute; reflexivity).
  assert (Hw : snd (@create_note toy_fs no_terminal_OS 3 "note" on_secret home)
               <> home)
    by (vm_compute; discriminate).
  assert (Htaken : forall k : nat,
             exists_ (candidate ["home"] "note" k) home = inr false ->
             (forall i, (i < k)%nat ->
                        exists_ (candidate ["home"] "note" i) home = inr true) ->
             k = 2%nat).
  { intros k Hfree Hbusy.
    destruct k as [| [| [| k]]]; [discriminate Hfree | discriminate Hfree
                                 | reflexivity |].
    specialize (Hbusy 2%nat ltac:(lia)). discriminate Hbusy. }
  destruct (create_note 3 "note" on_secret home) as [[o s'] w'] eqn:Hrun.
  destruct (@create_note toy_fs no_terminal_OS 3 "note" on_secret home)
    as [[o2 s2] w2] eqn:Hrun2.
  cbn [fst snd] in *. subst o.
  destruct (create_note_never_overwrites 3 "note" on_secret s' home w' _ Hrun)
    as (Hself & _ & Hcases).
  destruct (@create_note_never_overwrites toy_fs no_terminal_OS
              3 "note" on_secret s2 home w2 _ Hrun2)
    as (_ & _ & Hcases2).
  split; [exact Hself |].
  destruct (Hcases eq_refl)
    as [(Hf & _) | (k & _ & Hbusy & [(err & _ & Hf & _)
                                    | (Hfree & [(err & _ & Hf & _) | (Hwr & _)])])];
    try discriminate Hf.
  pose proof (Htaken k Hfree Hbusy) as ->.
  split; [exact Hfree |]. split; [exact Hwr |].
  destruct (Hcases2 eq_refl)
    as [(_ & Hf & _) | (k & _ & Hbusy2 & [(err & _ & _ & Hf)
                                    | (Hfree2 & [(err & _ & _ & Hf)
                                                | (Hwr2 & Hout)])])];
    try (now contradiction Hw).
  pose proof (Htaken k Hfree2 Hbusy2) as ->.
  split; [| exact Hwr2].
  destruct Hout as [-> | [[_ Hin] | [[-> _] | [_ Hin]]]];
    [discriminate Hrun2 || (vm_compute in Hrun2; discriminate Hrun2)
    | discriminate Hin | reflexivity | discriminate Hin].
Defined.

(** X9: [open_daily_note] never overwrites today's note and never
    changes the explorer.  If the test of [exists] raises, the error
    leaves the call and nothing is written.  If the file exists
    nothing is written and it is opened; if not, an empty file is
    written at [current_path / "<date>.md"] and opened, or, when that
    write fails, the call returns [False] and nothing is written.
    Opening ends in the editor, or returns [True] once the prompt is
    answered, or raises what [input] raises at the prompt. *)
Theorem open_daily_note_keeps_existing {W : Type} `{OS W}
  (self self' : FileExplorer) (w w' : W) (o : outcome bool) :
  open_daily_note self w = (o, self', w') ->
  let file_path := joinpath (current_path self) (get_daily_note_filename w) in
  self' = self
  /\ (forall err : os_error,
        exists_ file_path w = inl err -> o = Raised (OSError err) /\ w' = w)
  /\ (exists_ file_path w = inr true ->
      w' = w
      /\ (o = Replaced
          \/ (o = Returned true /\ input_ w' = inr tt)
          \/ exists ie : input_error,
               input_ w' = inl ie /\ o = Raised (input_exn ie)))
  /\ (exists_ file_path w = inr false ->
      (o = Returned false /\ w' = w
       /\ exists e : os_error, write_text file_path w = inl e)
      \/ (write_text file_path w = inr w'
          /\ (o = Replaced
              \/ (o = Returned true /\ input_ w' = inr tt)
              \/ exists ie : input_error,
                   input_ w' = inl ie /\ o = Raised (input_exn ie)))).
Proof.
  intros Hrun file_path.
  split; [now apply open_daily_note_self in Hrun |].
  rewrite open_daily_note_eq in Hrun. cbv zeta in Hrun.
  fold file_path in Hrun.
  assert (Hopen : forall w1 : W,
             continue_after (open_file file_path self w1) = (o, self', w') ->
             w' = w1
             /\ (o = Replaced
                 \/ (o = Returned true /\ input_ w' = inr tt)
                 \/ exists ie : input_error,
                      input_ w' = inl ie /\ o = Raised (input_exn ie))).
  { intros w1 Hr.
    destruct (open_file_frame file_path self w1) as (oo & Ho & Hcases).
    rewrite Ho in Hr.
    destruct Hcases as [-> | [[-> Hin] | (ie & Hin & ->)]];
      cbn in Hr; inversion Hr; subst; split; auto.
    right. right. now exists ie. }
  destruct (exists_ file_path w) as [err | [|]] eqn:Ex.
  - split; [| split; discriminate].
    intros err' Herr. inversion Herr; subst. now inversion Hrun.
  - split; [discriminate |]. split; [intros _ | discriminate].
    now apply Hopen.
  - split; [discriminate |]. split; [discriminate | intros _].
    destruct (write_text file_path w) as [err | w1] eqn:Ew.
    { inversion Hrun; subst. left. repeat split; auto. now exists err. }
    right. apply Hopen in Hrun as [-> Hout]. now split.
Qed.

(** Today's note is written in [home]; in [secret] the test raises. *)
Lemma open_daily_note_keeps_existing_witness :
  snd (fst (open_daily_note on_secret home)) = on_secret
  /\ write_text ["home"; "2024-03-07.md"] home
     = inr (snd (open_daily_note on_secret home))
  /\ open_daily_note in_secret home
     = (Raised (OSError PermissionError), in_secret, home).
Proof.
  assert (Ho : fst (fst (open_daily_note on_secret home)) = Returned true)
    by (vm_compute; reflexivity).
  assert (Hsecret : snd (fst (open_daily_note in_secret home)) = in_secret
                    -> fst (fst (open_daily_note in_secret home))
                       = Raised (OSError PermissionError)
                    -> snd (open_daily_note in_secret home) = home
                    -> open_daily_note in_secret home
                       = (Raised (OSError PermissionError), in_secret, home)).
  { destruct (open_daily_note in_secret home) as [[o3 s3] w3].
    cbn [fst snd]. now intros -> -> ->. }
  destruct (open_daily_note on_secret home) as [[o s'] w'] eqn:Hrun.
  destruct (open_daily_note in_secret home) as [[o2 s2] w2] eqn:Hrun2.
  cbn [fst snd] in *. subst o.
  destruct (open_daily_note_keeps_existing on_secret s' home w' _ Hrun)
    as (Hself & _ & _ & Hnew).
  destruct (open_daily_note_keeps_existing in_secret s2 home w2 _ Hrun2)
    as (Hself2 & Herr & _).
  split; [exact Hself |]. split.
  - destruct (Hnew eq_refl) as [(Hf & _) | (Hw & _)];
      [discriminate Hf | exact Hw].
  - destruct (Herr PermissionError eq_refl) as [Ho2 Hw2].
    now apply Hsecret.
Defined.

(** ** What a key can change *)

Lemma parent_joinpath (dir : path) (name : string) :
  parent (joinpath dir name) = dir.
Proof. unfold parent, joinpath. apply removelast_last. Qed.

Section KeyFacts.
Context {W : Type} `{OS W}.
Variable ratio : string -> string -> Q.

(** Enter outside NoteEntry mode, on a list that is not empty, is the
    activation of the entry under the cursor. *)
Lemma handle_input_enter (fuel : nat) (key : Z) (self : FileExplorer) (w : W) :
  search_mode self = true \/ note_mode self = false ->
  is_enter key = true ->
  nonempty (active_list self) = true ->
  handle_input ratio fuel key self w
  = continue_after (activate (active_list self) (cursor_position self) self w).
Proof.
  intros Hmode Henter Hne.
  destruct (enter_key_tests key Henter)
    as (H27 & Hbs & Hq & Hsl & H14 & H4 & Hup & Hdown).
  unfold active_list in *.
  destruct (search_mode self) eqn:Hs.
  - rewrite handle_input_search by exact Hs.
    now rewrite H27, Hbs, Henter, Hne.
  - destruct Hmode as [Hmode | Hn]; [discriminate |].
    rewrite handle_input_browse by assumption.
    now rewrite Hq, Hsl, H14, H4, Hup, Hdown, Henter, Hne.
Qed.

Lemma navigate_to_world (p : path) (self self' : FileExplorer) (w w' : W)
  (o : outcome unit) :
  navigate_to p self w = (o, self', w') -> w' = w.
Proof.
  rewrite navigate_to_eq.
  destruct (resolve p w) as [[|] | q].
  - now inversion 1.
  - now inversion 1.
  - intros Hrun. now apply scan_directory_frame in Hrun.
Qed.

(** Activation changes the world never, and the explorer only by a
    navigation. *)
Lemma activate_frame (l : list Item) (c : Z) (self self' : FileExplorer)
  (w w' : W) (o : outcome unit) :
  activate l c self w = (o, self', w') ->
  w' = w
  /\ (self' = self
      \/ exists selected : Item,
           py_index l c = Some selected /\ item_is_dir selected = true
           /\ navigate_to (item_path selected) self w = (o, self', w')).
Proof.
  unfold activate, index, bind.
  destruct (py_index l c) as [selected |];
    [| intros Hrun; inversion Hrun; auto].
  cbn [ret]. destruct (item_is_dir selected) eqn:Ed.
  - intros Hrun. split; [now apply navigate_to_world in Hrun |].
    right. now exists selected.
  - intros Hrun.
    destruct (open_file_frame (item_path selected) self w) as (oo & Ho & _).
    rewrite Ho in Hrun. inversion Hrun; subst. auto.
Qed.

End KeyFacts.

(** X10: Enter on a file entry, in Browse or Search mode, changes
    neither the explorer nor the world.  The process becomes the
    editor exactly when [EDITOR] is set and not empty and [execvp]
    succeeds; otherwise the user is asked to press Enter, and
    [handle_input] returns [True] once [input] returns, or raises
    what [input] raises: [EOFError] at the end of the input,
    [KeyboardInterrupt] on Ctrl-C. *)
Theorem enter_on_file_keeps_state {W : Type} `{OS W}
  (ratio : string -> string -> Q) (fuel : nat) (key : Z)
  (self : FileExplorer) (w : W) (selected : Item) :
  search_mode self = true \/ note_mode self = false ->
  is_enter key = true ->
  py_index (active_list self) (cursor_position self) = Some selected ->
  item_is_dir selected = false ->
  exists o : outcome bool,
    handle_input ratio fuel key self w = (o, self, w)
    /\ (o = Replaced
        \/ (o = Returned true /\ input_ w = inr tt)
        \/ exists ie : input_error,
             input_ w = inl ie /\ o = Raised (input_exn ie))
    /\ (o = Replaced
        <-> exists editor : string,
              getenv_EDITOR w = Some editor
              /\ str_is_empty editor = false
              /\ execvp editor (item_path selected) w = true).
Proof.
  intros Hmode Henter Hsel Hdir.
  rewrite (handle_input_enter ratio fuel key self w Hmode Henter
             (py_index_nonempty _ _ _ Hsel)).
  unfold activate, index, bind. rewrite Hsel. cbn [ret]. rewrite Hdir.
  assert (Hprompt :
    (forall editor : string,
        getenv_EDITOR w = Some editor ->
        str_is_empty editor = false ->
        execvp editor (item_path selected) w = true -> False) ->
    exists o : outcome bool,
      continue_after (press_enter self w) = (o, self, w)
      /\ (o = Replaced
          \/ (o = Returned true /\ input_ w = inr tt)
          \/ exists ie : input_error,
               input_ w = inl ie /\ o = Raised (input_exn ie))
      /\ (o = Replaced
          <-> exists editor : string,
                getenv_EDITOR w = Some editor
                /\ str_is_empty editor = false
                /\ execvp editor (item_path selected) w = true)).
  { intros Hno. unfold press_enter.
    destruct (input_ w) as [ie | []] eqn:Ein; cbn [continue_after].
    - exists (Raised (input_exn ie)). split; [reflexivity |].
      split; [right; right; now exists ie |].
      split; [discriminate |].
      intros (ed & Hed & Hne & Hex). destruct (Hno ed Hed Hne Hex).
    - exists (Returned true). split; [reflexivity |].
      split; [right; left; now split |].
      split; [discriminate |].
      intros (ed & Hed & Hne & Hex). destruct (Hno ed Hed Hne Hex). }
  unfold open_file.
  destruct (getenv_EDITOR w) as [editor |] eqn:Eed.
  - destruct (str_is_empty editor) eqn:Eem.
    + apply Hprompt. intros ed Hed Hne _. congruence.
    + destruct (execvp editor (item_path selected) w) eqn:Eex.
      * exists Replaced. split; [reflexivity |]. split; [now left |].
        split; [| reflexivity]. intros _. now exists editor.
      * apply Hprompt. intros ed Hed _ Hex. congruence.
  - apply Hprompt. intros ed Hed _ _. discriminate Hed.
Qed.

(** Enter on [test.txt] without an editor: [True] when the prompt is
    answered, [EOFError] when the input is at its end. *)
Lemma enter_on_file_keeps_state_witness :
  handle_input indel_ratio 1 10 (set_cursor_position 6 on_secret) home
  = (Returned true, set_cursor_position 6 on_secret, home)
  /\ @handle_input toy_fs no_terminal_OS indel_ratio 1 10
       (set_cursor_position 6 on_secret) home
     = (Raised EOFError, set_cursor_position 6 on_secret, home).
Proof.
  assert (Hsel : py_index (active_list (set_cursor_position 6 on_secret))
                   (cursor_position (set_cursor_position 6 on_secret))
                 = Some (mkItem "test.txt" false ["home"; "test.txt"]))
    by (vm_compute; reflexivity).
  assert (Hmode : search_mode (set_cursor_position 6 on_secret) = true
                  \/ note_mode (set_cursor_position 6 on_secret) = false)
    by (right; vm_compute; reflexivity).
  split.
  - destruct (enter_on_file_keeps_state indel_ratio 1 10
                (set_cursor_position 6 on_secret) home _ Hmode eq_refl Hsel
                eq_refl)
      as (o & Hrun & [Ho | [[Ho _] | (ie & Hie & _)]] & Hrep).
    + exfalso. apply Hrep in Ho as (ed & Hed & _). discriminate Hed.
    + now rewrite <- Ho.
    + discriminate Hie.
  - destruct (@enter_on_file_keeps_state toy_fs no_terminal_OS indel_ratio 1 10
                (set_cursor_position 6 on_secret) home _ Hmode eq_refl Hsel
                eq_refl)
      as (o & Hrun & [Ho | [[_ Hin] | (ie & Hie & Ho)]] & Hrep).
    + exfalso. apply Hrep in Ho as (ed & Hed & _). discriminate Hed.
    + discriminate Hin.
    + rewrite Hrun, Ho. injection Hie as <-. reflexivity.
Defined.

(** X11: Enter in NoteEntry mode, when it returns, returns [True] and
    leaves the explorer as it was but for the mode, which is Browse,
    and the title, which is empty: the items are not scanned again,
    so a note just created is not listed.  A blank title writes
    nothing; any other runs [create_note] on it. *)
Theorem note_enter_leaves_note_mode {W : Type} `{OS W}
  (ratio : string -> string -> Q) (fuel : nat) (key : Z)
  (self self' : FileExplorer) (w w' : W) (go_on : bool) :
  search_mode self = false -> note_mode self = true ->
  is_enter key = true ->
  handle_input ratio fuel key self w = (Returned go_on, self', w') ->
  go_on = true
  /\ self' = set_note_title "" (set_note_mode false self)
  /\ items self' = items self
  /\ browsing self'
  /\ (str_is_empty (strip_ws (note_title self)) = true -> w' = w)
  /\ (str_is_empty (strip_ws (note_title self)) = false ->
      exists created : bool,
        create_note fuel (note_title self) self w = (Returned created, self, w')).
Proof.
  intros Hs Hn Henter Hrun.
  destruct (enter_key_tests key Henter) as (H27 & Hbs & _).
  rewrite handle_input_note in Hrun by assumption.
  rewrite H27, Hbs, Henter in Hrun.
  destruct (str_is_empty (strip_ws (note_title self))) eqn:Eblank;
    cbn [negb] in Hrun.
  - inversion Hrun; subst. repeat split; auto. discriminate.
  - destruct (create_note fuel (note_title self) self w)
      as [[[b | e | |] s1] w1] eqn:Ec; try discriminate.
    pose proof (create_note_self _ _ _ _ _ _ _ Ec) as ->.
    inversion Hrun; subst. repeat split; auto; try discriminate.
    intros _. now exists b.
Qed.

Lemma note_enter_leaves_note_mode_witness :
  snd (fst (handle_input indel_ratio 1 13 in_note home))
  = set_note_title "" (set_note_mode false in_note)
  /\ snd (handle_input indel_ratio 1 13 in_note home) = home.
Proof.
  assert (Ho : fst (fst (handle_input indel_ratio 1 13 in_note home))
               = Returned true) by (vm_compute; reflexivity).
  destruct (handle_input indel_ratio 1 13 in_note home) as [[o s'] w'] eqn:Hrun.
  cbn [fst snd] in *. subst o.
  destruct (note_enter_leaves_note_mode indel_ratio 1 13 in_note s' home w' true
              eq_refl eq_refl eq_refl Hrun) as (_ & Hself & _ & _ & Hblank & _).
  split; [exact Hself | exact (Hblank eq_refl)].
Defined.

(** X12: a key event writes at most one file, and only as a note:
    the world after [handle_input] is the world before it, unless the
    key was Ctrl+D in Browse mode or Enter in NoteEntry mode, and then
    the one thing written is a direct child of the current directory
    that did not exist. *)
Theorem only_notes_touch_the_world {W : Type} `{OS W}
  (ratio : string -> string -> Q) (fuel : nat) (key : Z)
  (self self' : FileExplorer) (w w' : W) (o : outcome bool) :
  handle_input ratio fuel key self w = (o, self', w') ->
  w' = w
  \/ ((key = 4 /\ browsing self
       \/ is_enter key = true /\ search_mode self = false /\ note_mode self = true)
      /\ exists name : string,
           exists_ (joinpath (current_path self) name) w = inr false
           /\ write_text (joinpath (current_path self) name) w = inr w').
Proof.
  intros Hrun.
  destruct (search_mode self) eqn:Hs.
  - left. rewrite handle_input_search in Hrun by exact Hs.
    destruct (key =? 27); [now inversion Hrun |].
    destruct (is_backspace key); [now inversion Hrun |].
    destruct (is_enter key && nonempty (filtered_items self)).
    { destruct (activate (filtered_items self) (cursor_position self) self w)
        as [[oa s1] w1] eqn:Ea.
      apply activate_frame in Ea as [-> _].
      destruct oa; now inversion Hrun. }
    destruct (is_printable_key key); now inversion Hrun.
  - destruct (note_mode self) eqn:Hn.
    + rewrite handle_input_note in Hrun by assumption.
      destruct (key =? 27); [left; now inversion Hrun |].
      destruct (is_backspace key); [left; now inversion Hrun |].
      destruct (is_enter key) eqn:Henter.
      { destruct (negb (str_is_empty (strip_ws (note_title self))));
          [| left; now inversion Hrun].
        destruct (create_note fuel (note_title self) self w)
          as [[oc s1] w1] eqn:Ec.
        assert (Hw : w1 = w').
        { destruct oc; now inversion Hrun. }
        subst w1.
        apply create_note_world in Ec as [-> | Hwrite]; [now left | right].
        split; [right; auto | exact Hwrite]. }
      left. destruct (is_printable_key key); now inversion Hrun.
    + rewrite handle_input_browse in Hrun by assumption.
      destruct (key =? ord_q); [left; now inversion Hrun |].
      destruct (key =? ord_slash); [left; now inversion Hrun |].
      destruct (key =? 14); [left; now inversion Hrun |].
      destruct (Z.eqb_spec key 4) as [H4 | H4].
      { destruct (open_daily_note self w) as [[od s1] w1] eqn:Ed.
        assert (Hw : w1 = w') by (destruct od; now inversion Hrun).
        subst w1.
        apply open_daily_note_world in Ed as [-> | Hwrite]; [now left | right].
        split; [left; split; [exact H4 | now split] |].
        now exists (get_daily_note_filename w). }
      left.
      destruct ((key =? KEY_UP) && nonempty (items self));
        [now inversion Hrun |].
      destruct ((key =? KEY_DOWN) && nonempty (items self));
        [now inversion Hrun |].
      destruct (is_enter key && nonempty (items self)).
      { destruct (activate (items self) (cursor_position self) self w)
          as [[oa s1] w1] eqn:Ea.
        apply activate_frame in Ea as [-> _].
        destruct oa; now inversion Hrun. }
      now inversion Hrun.
Qed.

Lemma only_notes_touch_the_world_witness :
  exists name : string,
    exists_ (joinpath ["home"] name) home = inr false
    /\ write_text (joinpath ["home"] name) home
       = inr (snd (handle_input indel_ratio 1 4 on_secret home)).
Proof.
  assert (Hw : List.length (snd (handle_input indel_ratio 1 4 on_secret home))
               = 11%nat) by (vm_compute; reflexivity).
  destruct (handle_input indel_ratio 1 4 on_secret home) as [[o s'] w'] eqn:Hrun.
  cbn [fst snd] in *.
  destruct (only_notes_touch_the_world indel_ratio 1 4 on_secret s' home w' o Hrun)
    as [-> | [_ Hwrite]]; [discriminate Hw | exact Hwrite].
Defined.

(** X13: the directory and its items change only by Enter on a
    directory entry, in Browse or Search mode, whose path resolves:
    after any other key event, however it ends, [current_path] and
    [items] are what they were. *)
Theorem only_enter_changes_listing {W : Type} `{OS W}
  (ratio : string -> string -> Q) (fuel : nat) (key : Z)
  (self self' : FileExplorer) (w w' : W) (o : outcome bool) :
  handle_input ratio fuel key self w = (o, self', w') ->
  (current_path self' = current_path self /\ items self' = items self)
  \/ (is_enter key = true
      /\ (search_mode self = true \/ note_mode self = false)
      /\ exists (selected : Item) (q : path),
           py_index (active_list self) (cursor_position self) = Some selected
           /\ item_is_dir selected = true
           /\ resolve (item_path selected) w = inr q
           /\ current_path self' = q).
Proof.
  intros Hrun.
  assert (Hact : forall (oa : outcome unit) (s1 : FileExplorer) (w1 : W),
             activate (active_list self) (cursor_position self) self w
             = (oa, s1, w1) ->
             (current_path s1 = current_path self /\ items s1 = items self)
             \/ exists (selected : Item) (q : path),
                  py_index (active_list self) (cursor_position self)
                  = Some selected
                  /\ item_is_dir selected = true
                  /\ resolve (item_path selected) w = inr q
                  /\ current_path s1 = q).
  { intros oa s1 w1 Ea.
    apply activate_frame in Ea as [_ [-> | (sel & Hsel & Hdir & Hnav)]];
      [now left |].
    rewrite navigate_to_eq in Hnav.
    destruct (resolve (item_path sel) w) as [[|] | q] eqn:Er.
    - left. now inversion Hnav.
    - left. now inversion Hnav.
    - right. exists sel, q. repeat split; auto.
      now apply scan_directory_frame in Hnav as (_ & -> & _). }
  unfold active_list in Hact.
  destruct (search_mode self) eqn:Hs.
  - rewrite handle_input_search in Hrun by exact Hs.
    destruct (key =? 27); [left; now inversion Hrun |].
    destruct (is_backspace key).
    { left. inversion Hrun; subst.
      unfold handle_search. destruct (str_is_empty _); split; reflexivity. }
    destruct (is_enter key && nonempty (filtered_items self)) eqn:Een.
    { apply andb_true_iff in Een as [Henter _].
      destruct (activate (filtered_items self) (cursor_position self) self w)
        as [[oa s1] w1] eqn:Ea.
      assert (Hs1 : s1 = self') by (destruct oa; now inversion Hrun).
      subst s1.
      destruct (Hact _ _ _ eq_refl) as [Hsame | Hnav]; [now left | right].
      unfold active_list. rewrite Hs. auto. }
    destruct (is_printable_key key).
    { left. inversion Hrun; subst.
      unfold handle_search. destruct (str_is_empty _); split; reflexivity. }
    left. now inversion Hrun.
  - destruct (note_mode self) eqn:Hn.
    + left. rewrite handle_input_note in Hrun by assumption.
      destruct (key =? 27); [now inversion Hrun |].
      destruct (is_backspace key); [now inversion Hrun |].
      destruct (is_enter key).
      { destruct (negb (str_is_empty (strip_ws (note_title self))));
          [| now inversion Hrun].
        destruct (create_note fuel (note_title self) self w)
          as [[oc s1] w1] eqn:Ec.
        apply create_note_self in Ec. subst s1.
        destruct oc; now inversion Hrun. }
      destruct (is_printable_key key); now inversion Hrun.
    + rewrite handle_input_browse in Hrun by assumption.
      destruct (key =? ord_q); [left; now inversion Hrun |].
      destruct (key =? ord_slash); [left; now inversion Hrun |].
      destruct (key =? 14); [left; now inversion Hrun |].
      destruct (key =? 4).
      { left. destruct (open_daily_note self w) as [[od s1] w1] eqn:Ed.
        apply open_daily_note_self in Ed. subst s1.
        destruct od; now inversion Hrun. }
      destruct ((key =? KEY_UP) && nonempty (items self));
        [left; now inversion Hrun |].
      destruct ((key =? KEY_DOWN) && nonempty (items self));
        [left; now inversion Hrun |].
      destruct (is_enter key && nonempty (items self)) eqn:Een.
      { apply andb_true_iff in Een as [Henter _].
        destruct (activate (items self) (cursor_position self) self w)
          as [[oa s1] w1] eqn:Ea.
        assert (Hs1 : s1 = self') by (destruct oa; now inversion Hrun).
        subst s1.
        destruct (Hact _ _ _ eq_refl) as [Hsame | Hnav]; [now left | right].
        unfold active_list. rewrite Hs. auto. }
      left. now inversion Hrun.
Qed.

Lemma only_enter_changes_listing_witness :
  current_path in_search = current_path on_secret
  /\ items in_search = items on_secret.
Proof.
  assert (Hrun : handle_input indel_ratio 1 ord_slash on_secret home
                 = (Returned true, in_search, home))
    by (vm_compute; reflexivity).
  destruct (only_enter_changes_listing indel_ratio 1 ord_slash on_secret
              in_search home home _ Hrun) as [Hsame | (Henter & _)].
  - exact Hsame.
  - discriminate Henter.
Defined.

(** ** Navigation and scanning *)

Lemma clamp_cursor_idem (l : list Item) (s : FileExplorer) :
  clamp_cursor (set_items l (clamp_cursor (set_items l s)))
  = clamp_cursor (set_items l s).
Proof.
  destruct s as [cp c its sm sq fi nm nt].
  unfold clamp_cursor, set_items, set_cursor_position.
  destruct l as [| x l];
    cbn [nonempty items cursor_position current_path search_mode search_query
         filtered_items note_mode note_title]; [reflexivity |].
  f_equal. unfold len. cbn [List.length]. lia.
Qed.

Lemma clamp_cursor_path (s : FileExplorer) :
  current_path (clamp_cursor s) = current_path s.
Proof. unfold clamp_cursor. now destruct (nonempty (items s)). Qed.

(** X14: Enter on a directory entry whose path resolves and whose
    listing succeeds returns [True] with the explorer in the resolved
    directory, in Browse mode, both texts empty, the cursor on the
    first entry and the items those of a scan of the new directory;
    the filtered items are left as they were. *)
Theorem enter_on_directory_navigates {W : Type} `{OS W}
  (ratio : string -> string -> Q) (fuel : nat) (key : Z)
  (self : FileExplorer) (w : W) (selected : Item) (q : path)
  (children : list string) :
  search_mode self = true \/ note_mode self = false ->
  is_enter key = true ->
  py_index (active_list self) (cursor_position self) = Some selected ->
  item_is_dir selected = true ->
  resolve (item_path selected) w = inr q ->
  iterdir q w = inr children ->
  exists self' : FileExplorer,
    handle_input ratio fuel key self w = (Returned true, self', w)
    /\ current_path self' = q
    /\ items self' = (parent_entries q ++ scanned_entries q children w)%list
    /\ cursor_position self' = 0
    /\ browsing self'
    /\ search_query self' = "" /\ note_title self' = ""
    /\ filtered_items self' = filtered_items self.
Proof.
  intros Hmode Henter Hsel Hdir Hres Hls.
  set (listing := (parent_entries q ++ scanned_entries q children w)%list).
  exists (clamp_cursor (set_items listing (entered q self))).
  split.
  { rewrite (handle_input_enter_directory ratio fuel key self w selected)
      by assumption.
    rewrite navigate_to_eq, Hres, scan_directory_eq. cbv zeta.
    change (current_path (entered q self)) with q. now rewrite Hls. }
  unfold clamp_cursor.
  cbn [items set_items entered cursor_position set_cursor_position
       set_current_path set_search_mode set_search_query set_note_mode
       set_note_title].
  destruct listing as [| x l] eqn:El; cbn [nonempty];
    repeat split; try reflexivity.
  cbn [cursor_position set_cursor_position]. unfold len. cbn [List.length]. lia.
Qed.

Lemma enter_on_directory_navigates_witness :
  exists self' : FileExplorer,
    handle_input indel_ratio 1 10 on_subdir home = (Returned true, self', home)
    /\ current_path self' = ["home"; "subdir"]
    /\ cursor_position self' = 0.
Proof.
  assert (Hsel : py_index (active_list on_subdir) (cursor_position on_subdir)
                 = Some (mkItem "subdir/" true ["home"; "subdir"]))
    by (vm_compute; reflexivity).
  assert (Hls : iterdir ["home"; "subdir"] home = inr [])
    by (vm_compute; reflexivity).
  assert (Hres : resolve (item_path (mkItem "subdir/" true ["home"; "subdir"]))
                   home = inr ["home"; "subdir"]) by reflexivity.
  assert (Hmode : search_mode on_subdir = true \/ note_mode on_subdir = false)
    by (right; vm_compute; reflexivity).
  destruct (enter_on_directory_navigates indel_ratio 1 10 on_subdir home _
              ["home"; "subdir"] [] Hmode eq_refl Hsel eq_refl Hres Hls)
    as (self' & Hrun & Hpath & _ & Hcur & _).
  exists self'. auto.
Defined.

(** X15: scanning is idempotent: a second scan, made right after a
    scan that returned and in the same world, returns with the
    explorer as the first scan left it. *)
Theorem scan_directory_idempotent {W : Type} `{OS W}
  (self self' : FileExplorer) (w w' : W) (u : unit) :
  scan_directory self w = (Returned u, self', w') ->
  scan_directory self' w' = (Returned tt, self', w').
Proof.
  intros Hrun. rewrite scan_directory_eq in Hrun. cbv zeta in Hrun.
  rewrite scan_directory_eq. cbv zeta.
  destruct (iterdir (current_path self) w) as [[|] | children] eqn:Els;
    inversion Hrun; subst; clear Hrun;
    rewrite clamp_cursor_path; cbn [current_path set_items];
    rewrite Els, clamp_cursor_idem; reflexivity.
Qed.

Lemma scan_directory_idempotent_witness :
  scan_directory (snd (fst (scan_directory (init home) home))) home
  = (Returned tt, snd (fst (scan_directory (init home) home)), home).
Proof.
  apply (scan_directory_idempotent (init home) _ home home tt).
  vm_compute. reflexivity.
Defined.

(** ** Browsing *)

Section ArrowFacts.
Context {W : Type} `{OS W}.
Variable ratio : string -> string -> Q.

Lemma handle_input_down (fuel : nat) (self : FileExplorer) (w : W) :
  browsing self -> nonempty (items self) = true ->
  handle_input ratio fuel KEY_DOWN self w
  = (Returned true,
     set_cursor_position
       (Z.min (len (items self) - 1) (cursor_position self + 1)) self, w).
Proof.
  intros [Hs Hn] Hne. rewrite handle_input_browse by assumption.
  rewrite Hne. reflexivity.
Qed.

Lemma handle_input_up (fuel : nat) (self : FileExplorer) (w : W) :
  browsing self -> nonempty (items self) = true ->
  handle_input ratio fuel KEY_UP self w
  = (Returned true,
     set_cursor_position (Z.max 0 (cursor_position self - 1)) self, w).
Proof.
  intros [Hs Hn] Hne. rewrite handle_input_browse by assumption.
  rewrite Hne. reflexivity.
Qed.

Lemma handle_input_arrow_empty (fuel : nat) (key : Z) (self : FileExplorer)
  (w : W) :
  browsing self -> items self = [] -> key = KEY_UP \/ key = KEY_DOWN ->
  handle_input ratio fuel key self w = (Returned true, self, w).
Proof.
  intros [Hs Hn] Hempty Hkey. rewrite handle_input_browse by assumption.
  rewrite Hempty. destruct Hkey as [-> | ->]; reflexivity.
Qed.

End ArrowFacts.

Lemma set_cursor_position_twice (a b : Z) (s : FileExplorer) :
  set_cursor_position a (set_cursor_position b s) = set_cursor_position a s.
Proof. reflexivity. Qed.

Lemma set_cursor_position_same (s : FileExplorer) :
  set_cursor_position (cursor_position s) s = s.
Proof. now destruct s. Qed.

(** X16: in Browse mode, under the cursor invariant, the arrow keys
    move the cursor by exactly one entry and undo each other: Down
    then Up gives back the explorer unless the cursor was on the last
    entry, Up then Down unless it was on the first; on the last entry
    Down changes nothing, on the first Up changes nothing. *)
Theorem arrow_keys_move_by_one {W : Type} `{OS W}
  (ratio : string -> string -> Q) (fuel : nat) (self : FileExplorer) (w : W) :
  browsing self ->
  cursor_ok self ->
  (cursor_position self + 1 < len (items self) ->
   exists moved : FileExplorer,
     handle_input ratio fuel KEY_DOWN self w = (Returned true, moved, w)
     /\ cursor_position moved = cursor_position self + 1
     /\ handle_input ratio fuel KEY_UP moved w = (Returned true, self, w))
  /\ (0 < cursor_position self ->
      exists moved : FileExplorer,
        handle_input ratio fuel KEY_UP self w = (Returned true, moved, w)
        /\ cursor_position moved = cursor_position self - 1
        /\ handle_input ratio fuel KEY_DOWN moved w = (Returned true, self, w))
  /\ (cursor_position self + 1 >= len (items self) ->
      handle_input ratio fuel KEY_DOWN self w = (Returned true, self, w))
  /\ (cursor_position self <= 0 ->
      handle_input ratio fuel KEY_UP self w = (Returned true, self, w)).
Proof.
  intros Hb Hok.
  assert (Hmoved : forall c : Z, browsing (set_cursor_position c self))
    by (intros c; exact Hb).
  unfold cursor_ok, active_list in Hok. rewrite (proj1 Hb) in Hok.
  destruct (items self) as [| x l] eqn:Ei.
  - (* nothing is listed: the cursor is 0 and the arrows do nothing *)
    unfold len. cbn [List.length Z.of_nat].
    split; [intros Hlt; lia |]. split; [intros Hgt; lia |].
    split; intros _; apply handle_input_arrow_empty; auto.
  - assert (Hne : nonempty (items self) = true) by now rewrite Ei.
    assert (Hlen : len (items self) = len (x :: l)) by now rewrite Ei.
    assert (Hpos : 0 < len (x :: l)) by (unfold len; cbn [List.length]; lia).
    rewrite <- Hlen in *.
    split; [| split; [| split]].
    + intros Hlt. exists (set_cursor_position (cursor_position self + 1) self).
      rewrite handle_input_down by assumption.
      rewrite Z.min_r by lia.
      split; [reflexivity |]. split; [reflexivity |].
      rewrite handle_input_up by (auto; exact Hne).
      cbn [cursor_position set_cursor_position].
      rewrite Z.max_r by lia.
      replace (cursor_position self + 1 - 1) with (cursor_position self) by lia.
      now rewrite set_cursor_position_twice, set_cursor_position_same.
    + intros Hgt. exists (set_cursor_position (cursor_position self - 1) self).
      rewrite handle_input_up by assumption.
      rewrite Z.max_r by lia.
      split; [reflexivity |]. split; [reflexivity |].
      rewrite handle_input_down by (auto; exact Hne).
      cbn [cursor_position set_cursor_position items].
      rewrite Z.min_r by lia.
      replace (cursor_position self - 1 + 1) with (cursor_position self) by lia.
      now rewrite set_cursor_position_twice, set_cursor_position_same.
    + intros Hlast. rewrite handle_input_down by assumption.
      rewrite Z.min_l by lia.
      replace (len (items self) - 1) with (cursor_position self) by lia.
      now rewrite set_cursor_position_same.
    + intros Hfirst. rewrite handle_input_up by assumption.
      rewrite Z.max_l by lia.
      replace 0 with (cursor_position self) at 1 by lia.
      now rewrite set_cursor_position_same.
Qed.

Lemma arrow_keys_move_by_one_witness :
  exists moved : FileExplorer,
    handle_input indel_ratio 1 KEY_DOWN on_secret home = (Returned true, moved, home)
    /\ cursor_position moved = 2
    /\ handle_input indel_ratio 1 KEY_UP moved home = (Returned true, on_secret, home).
Proof.
  assert (Hb : browsing on_secret) by (split; reflexivity).
  assert (Hok : cursor_ok on_secret) by (vm_compute; split; congruence).
  assert (Hlt : cursor_position on_secret + 1 < len (items on_secret))
    by (vm_compute; reflexivity).
  destruct (proj1 (arrow_keys_move_by_one indel_ratio 1 on_secret home Hb Hok) Hlt)
    as (moved & Hdown & Hcur & Hup).
  exists moved. repeat split; assumption.
Defined.

(** ** Texts outside their mode *)

Section TextInvariant.
Context {W : Type} `{OS W}.
Variable ratio : string -> string -> Q.

Lemma scan_directory_text (self self' : FileExplorer) (w w' : W)
  (o : outcome unit) :
  text_cleared self ->
  scan_directory self w = (o, self', w') -> text_cleared self'.
Proof.
  unfold text_cleared. intros Hc Hrun.
  apply scan_directory_frame in Hrun as (_ & _ & -> & -> & -> & -> & _).
  exact Hc.
Qed.

Lemma activate_text (l : list Item) (c : Z) (self self' : FileExplorer)
  (w w' : W) (o : outcome unit) :
  text_cleared self ->
  activate l c self w = (o, self', w') -> text_cleared self'.
Proof.
  intros Hc Hrun.
  apply activate_frame in Hrun as [_ [-> | (sel & _ & _ & Hnav)]];
    [exact Hc |].
  rewrite navigate_to_eq in Hnav.
  destruct (resolve (item_path sel) w) as [[|] | q].
  - now inversion Hnav; subst.
  - now inversion Hnav; subst.
  - apply scan_directory_text in Hnav; [exact Hnav |].
    split; reflexivity.
Qed.

Lemma handle_input_text (fuel : nat) (key : Z) (self self' : FileExplorer)
  (w w' : W) (o : outcome bool) :
  text_cleared self ->
  handle_input ratio fuel key self w = (o, self', w') ->
  text_cleared self'.
Proof.
  intros Hc Hrun. pose proof Hc as [Hq Ht].
  assert (Hsearch : forall (q : string) (s : FileExplorer),
             search_mode s = true ->
             (note_mode s = false -> note_title s = "") ->
             text_cleared (handle_search ratio q (set_search_query q s))).
  { intros q s Hs Hnt.
    destruct (handle_search_frame ratio q (set_search_query q s))
      as (_ & _ & F3 & _ & F5 & F6 & _).
    split; [rewrite F3; cbn; congruence | rewrite F5, F6; exact Hnt]. }
  destruct (search_mode self) eqn:Hs.
  - rewrite handle_input_search in Hrun by exact Hs.
    destruct (key =? 27);
      [inversion Hrun; subst; split; [reflexivity | exact Ht] |].
    destruct (is_backspace key); [inversion Hrun; subst; now apply Hsearch |].
    destruct (is_enter key && nonempty (filtered_items self)).
    { destruct (activate (filtered_items self) (cursor_position self) self w)
        as [[oa s1] w1] eqn:Ea.
      assert (Hs1 : s1 = self') by (destruct oa; now inversion Hrun).
      subst s1. eapply activate_text; eassumption. }
    destruct (is_printable_key key);
      [inversion Hrun; subst; now apply Hsearch |].
    now inversion Hrun; subst.
  - specialize (Hq eq_refl).
    destruct (note_mode self) eqn:Hn.
    + rewrite handle_input_note in Hrun by assumption.
      assert (Hleft : text_cleared (set_note_title "" (set_note_mode false self)))
        by (split; [cbn; intros _; exact Hq | reflexivity]).
      assert (Hedit : forall t : string, text_cleared (set_note_title t self))
        by (intros t; split; cbn; [intros _; exact Hq | congruence]).
      destruct (key =? 27); [now inversion Hrun; subst |].
      destruct (is_backspace key); [now inversion Hrun; subst |].
      destruct (is_enter key).
      { destruct (negb (str_is_empty (strip_ws (note_title self))));
          [| now inversion Hrun; subst].
        destruct (create_note fuel (note_title self) self w)
          as [[oc s1] w1] eqn:Ec.
        apply create_note_self in Ec. subst s1.
        destruct oc; now inversion Hrun; subst. }
      destruct (is_printable_key key); now inversion Hrun; subst.
    + specialize (Ht eq_refl).
      rewrite handle_input_browse in Hrun by assumption.
      destruct (key =? ord_q); [now inversion Hrun; subst |].
      destruct (key =? ord_slash).
      { inversion Hrun; subst. apply Hsearch; [reflexivity |].
        intros _. exact Ht. }
      destruct (key =? 14).
      { inversion Hrun; subst. split; cbn; [intros _; exact Hq | congruence]. }
      destruct (key =? 4).
      { destruct (open_daily_note self w) as [[od s1] w1] eqn:Ed.
        apply open_daily_note_self in Ed. subst s1.
        destruct od; now inversion Hrun; subst. }
      destruct ((key =? KEY_UP) && nonempty (items self));
        [inversion Hrun; subst; exact Hc |].
      destruct ((key =? KEY_DOWN) && nonempty (items self));
        [inversion Hrun; subst; exact Hc |].
      destruct (is_enter key && nonempty (items self)).
      { destruct (activate (items self) (cursor_position self) self w)
          as [[oa s1] w1] eqn:Ea.
        assert (Hs1 : s1 = self') by (destruct oa; now inversion Hrun).
        subst s1. eapply activate_text; eassumption. }
      now inversion Hrun; subst.
Qed.

Lemma reachable_text (self : FileExplorer) (w : W) :
  reachable ratio self w -> text_cleared self.
Proof.
  induction 1 as [w w' self' Hrun | fuel key go_on self self' w w' _ IH Hrun
                 | self w w' _ IH].
  - apply scan_directory_text in Hrun; [exact Hrun | split; reflexivity].
  - eapply handle_input_text; eassumption.
  - exact IH.
Qed.

End TextInvariant.

(** X17: outside Search mode the query is empty and outside
    NoteEntry mode the title is empty, in every state the main loop
    can hold.  So in Browse mode Ctrl+N followed by Escape gives back
    the explorer exactly as it was. *)
Theorem texts_empty_outside_their_mode {W : Type} `{OS W}
  (ratio : string -> string -> Q) (fuel : nat) (self : FileExplorer) (w : W) :
  reachable ratio self w ->
  (search_mode self = false -> search_query self = "")
  /\ (note_mode self = false -> note_title self = "")
  /\ (browsing self ->
      exists titled : FileExplorer,
        handle_input ratio fuel 14 self w = (Returned true, titled, w)
        /\ note_mode titled = true
        /\ handle_input ratio fuel 27 titled w = (Returned true, self, w)).
Proof.
  intros Hreach. destruct (reachable_text ratio self w Hreach) as [Hq Ht].
  split; [exact Hq |]. split; [exact Ht |].
  intros [Hs Hn]. exists (set_note_title "" (set_note_mode true self)).
  split; [now rewrite handle_input_browse by assumption |].
  split; [reflexivity |].
  rewrite handle_input_note by (cbn; auto). cbn [Z.eqb Pos.eqb].
  f_equal. f_equal. specialize (Ht Hn).
  destruct self as [cp c its sm sq fi nm nt].
  cbn in Hn, Ht |- *. now subst.
Qed.

Lemma texts_empty_outside_their_mode_witness :
  search_query on_secret = ""
  /\ exists titled : FileExplorer,
       handle_input indel_ratio 1 14 on_secret home = (Returned true, titled, home)
       /\ handle_input indel_ratio 1 27 titled home = (Returned true, on_secret, home).
Proof.
  destruct (texts_empty_outside_their_mode indel_ratio 1 on_secret home
              on_secret_reachable) as (Hq & _ & Hround).
  split; [exact (Hq eq_refl) |].
  destruct (Hround (conj eq_refl eq_refl)) as (titled & Hrun & _ & Hback).
  exists titled. split; assumption.
Defined.

(** ** [sanitize_filename] on names that are already clean *)

Lemma str_map_id (f : ascii -> ascii) (s : string) :
  (forall c, In c (chars s) -> f c = c) -> str_map f s = s.
Proof.
  induction s as [| a r IH]; cbn [str_map]; [reflexivity |].
  intros Hf. rewrite (Hf a) by now left.
  rewrite IH; [reflexivity |]. intros c Hc. apply Hf. now right.
Qed.

Lemma str_filter_id (keep : ascii -> bool) (s : string) :
  (forall c, In c (chars s) -> keep c = true) -> str_filter keep s = s.
Proof.
  induction s as [| a r IH]; cbn [str_filter]; [reflexivity |].
  intros Hk. rewrite (Hk a) by now left.
  rewrite IH; [reflexivity |]. intros c Hc. apply Hk. now right.
Qed.

Lemma collapse_hyphens_id (s : string) :
  double_hyphen s = false -> collapse_hyphens s = s.
Proof.
  induction s as [| a r IH]; cbn [double_hyphen collapse_hyphens];
    [reflexivity |].
  intros Hd. apply orb_false_iff in Hd as [Hhead Htail].
  rewrite Hhead. now rewrite IH.
Qed.

Lemma rstrip_id (s : string) :
  ends_with_hyphen s = false -> rstrip is_hyphen s = s.
Proof.
  induction s as [| a r IH]; cbn [ends_with_hyphen rstrip]; [reflexivity |].
  destruct r as [| b t].
  - cbn [str_is_empty rstrip]. intros ->. reflexivity.
  - cbn [str_is_empty]. intros He. rewrite (IH He).
    cbn [str_is_empty]. now rewrite andb_false_r.
Qed.

Lemma lstrip_id (s : string) :
  startswith s "-" = false -> lstrip is_hyphen s = s.
Proof.
  rewrite startswith_hyphen. destruct s as [| a r]; [reflexivity |].
  cbn [lstrip]. now intros ->.
Qed.

Lemma filename_char_no_space (c : ascii) :
  filename_char c = true -> (if (c =? " ")%char then "-"%char else c) = c.
Proof.
  destruct (Ascii.eqb_spec c " ") as [-> | Hne]; [discriminate | reflexivity].
Qed.

(** A name that is clean already is what the steps make of it. *)
Lemma sanitize_steps_clean (s : string) :
  (forall c, In c (chars s) -> filename_char c = true) ->
  double_hyphen s = false ->
  startswith s "-" = false ->
  ends_with_hyphen s = false ->
  sanitize_steps s = s.
Proof.
  intros Hc Hd Hl Ht. unfold sanitize_steps, strip, spaces_to_hyphens.
  rewrite str_map_id by (intros c Hin; now apply filename_char_no_space, Hc).
  rewrite (str_filter_id _ s Hc).
  rewrite (collapse_hyphens_id s Hd).
  rewrite (rstrip_id s Ht).
  apply lstrip_id, Hl.
Qed.

Lemma chars_sanitize_steps_kept (title : string) (c : ascii) :
  In c (chars (sanitize_steps title)) -> filename_char c = true.
Proof.
  unfold sanitize_steps, strip. intros Hin.
  apply chars_lstrip, chars_rstrip, chars_collapse_hyphens in Hin.
  now apply chars_str_filter in Hin.
Qed.

(** X18: [sanitize_filename] leaves a clean name alone, and so is
    idempotent: a name that is not empty, made of letters, digits,
    hyphens and underscores, without doubled hyphen and without
    hyphen at either end, is returned as it is; and sanitizing a
    sanitized title changes nothing. *)
Theorem sanitize_filename_idempotent :
  (forall s : string,
      s <> "" ->
      (forall c, In c (chars s) -> filename_char c = true) ->
      double_hyphen s = false ->
      startswith s "-" = false ->
      ends_with_hyphen s = false ->
      sanitize_filename s = s)
  /\ (forall title : string,
        sanitize_filename (sanitize_filename title) = sanitize_filename title).
Proof.
  assert (Hclean : forall s : string,
             s <> "" ->
             (forall c, In c (chars s) -> filename_char c = true) ->
             double_hyphen s = false ->
             startswith s "-" = false ->
             ends_with_hyphen s = false ->
             sanitize_filename s = s).
  { intros s Hne Hc Hd Hl Ht. unfold sanitize_filename.
    rewrite (sanitize_steps_clean s Hc Hd Hl Ht).
    destruct s; [congruence | reflexivity]. }
  split; [exact Hclean |].
  intros title. unfold sanitize_filename at 2 3.
  destruct (sanitize_steps title) as [| a r] eqn:E; cbn [str_is_empty];
    [reflexivity |].
  destruct (sanitize_steps_shape title) as (Hd & Hl & Ht).
  rewrite E in Hd, Hl, Ht.
  apply Hclean; try assumption; [discriminate |].
  intros c Hin. apply (chars_sanitize_steps_kept title). now rewrite E.
Qed.

Lemma sanitize_filename_idempotent_witness :
  sanitize_filename "My-Note_2" = "My-Note_2".
Proof.
  apply (proj1 sanitize_filename_idempotent).
  - discriminate.
  - intros c Hin. cbn in Hin.
    repeat (destruct Hin as [<- | Hin]; [reflexivity |]). contradiction.
  - reflexivity.
  - reflexivity.
  - reflexivity.
Defined.

(** ** A chunk that ends inside a character *)

Lemma lead_byte_alone (b : byte) :
  in_range 194 244 b = true -> utf8_decodes [b] = false.
Proof. destruct b; intros Hb; (discriminate Hb || reflexivity). Qed.

Lemma lead_byte_no_continuation (b : byte) :
  in_range 194 244 b = true -> continuation b = false.
Proof. destruct b; intros Hb; (discriminate Hb || reflexivity). Qed.

(** No byte sequence that ends with the first byte of a multi-byte
    character decodes. *)
Lemma utf8_decodes_cut (n : nat) (l : list byte) (b : byte) :
  (List.length l <= n)%nat ->
  in_range 194 244 b = true ->
  utf8_decodes (l ++ [b]) = false.
Proof.
  revert l. induction n as [| n IH]; intros l Hlen Hb.
  - destruct l; [now apply lead_byte_alone | cbn in Hlen; lia].
  - destruct l as [| b0 r0]; [now apply lead_byte_alone |].
    cbn [List.length] in Hlen.
    pose proof (lead_byte_no_continuation b Hb) as Hc.
    cbn [app utf8_decodes].
    destruct (in_range 0 127 b0); [apply IH; [lia | exact Hb] |].
    destruct (in_range 194 223 b0).
    { destruct r0 as [| b1 r1]; cbn [app].
      - now rewrite Hc.
      - cbn [List.length] in Hlen.
        rewrite IH by (try exact Hb; lia). apply andb_false_r. }
    destruct (in_range 224 239 b0).
    { destruct r0 as [| b1 [| b2 r2]]; cbn [app].
      - reflexivity.
      - rewrite Hc. now rewrite andb_false_r.
      - cbn [List.length] in Hlen.
        rewrite IH by (try exact Hb; lia). apply andb_false_r. }
    destruct (in_range 240 244 b0); [| reflexivity].
    destruct r0 as [| b1 [| b2 [| b3 r3]]]; cbn [app].
    + reflexivity.
    + reflexivity.
    + rewrite Hc. now rewrite andb_false_r.
    + cbn [List.length] in Hlen.
      rewrite IH by (try exact Hb; lia). apply andb_false_r.
Qed.

Lemma firstn_snoc {A : Type} (n : nat) (l : list A) (x : A) :
  nth_error l n = Some x -> firstn (S n) l = (firstn n l ++ [x])%list.
Proof.
  revert l. induction n as [| n IH]; intros [| y l] Hx;
    try discriminate Hx.
  - cbn in Hx. inversion Hx; subst. reflexivity.
  - cbn [nth_error] in Hx. rewrite firstn_cons, (IH l Hx). reflexivity.
Qed.

(** X19: a file without extension whose 512th byte is the first byte
    of a multi-byte UTF-8 character is not a text file for
    [is_text_file], whatever its other bytes are: the chunk of 512
    bytes ends inside the character and does not decode. *)
Theorem cut_character_rejects_text {W : Type} `{OS W}
  (p : path) (w : W) (content : list byte) (lead : byte) :
  suffix p = "" ->
  open_rb p w = inr content ->
  nth_error content 511 = Some lead ->
  in_range 194 244 lead = true ->
  utf8_decodes (read 512 content) = false
  /\ fst (is_text_file p w) = false.
Proof.
  intros Hsuf Hopen Hnth Hlead.
  assert (Hcut : utf8_decodes (read 512 content) = false).
  { unfold read. rewrite (firstn_snoc 511 content lead Hnth).
    apply (utf8_decodes_cut 511); [apply firstn_le_length | exact Hlead]. }
  split; [exact Hcut |].
  unfold is_text_file, open_traced, read_traced. rewrite Hsuf.
  change (in_text_extensions (lower "")) with false. cbn [str_is_empty].
  rewrite Hopen. cbn [fst]. unfold sniff. rewrite Hcut.
  now destruct (read 512 content).
Qed.

Lemma cut_character_rejects_text_witness :
  utf8_decodes long_text = true
  /\ fst (is_text_file ["README"] with_long_text) = false.
Proof.
  split; [vm_compute; reflexivity |].
  assert (Hopen : open_rb ["README"] with_long_text = inr long_text)
    by reflexivity.
  assert (Hnth : nth_error long_text 511 = Some xc3)
    by (vm_compute; reflexivity).
  assert (Hlead : in_range 194 244 xc3 = true) by reflexivity.
  exact (proj2 (cut_character_rejects_text ["README"] with_long_text long_text
                  xc3 eq_refl Hopen Hnth Hlead)).
Defined.

(** ** The scroll window, again *)

(** X20: for a cursor inside the list the second computation of
    [start_idx] in [render_ui] changes nothing: the window is
    [max(0, cursor - rows + 1)] to [min(total, start + rows)].  With
    at least one row, once the window has scrolled the cursor is on
    its last row; with no row the window is empty. *)
Theorem window_adjustment_is_idle (total cursor rows : Z) :
  0 <= cursor < total ->
  let start_idx := Z.max 0 (cursor - rows + 1) in
  visible_window total cursor rows
  = (start_idx, Z.min total (start_idx + rows))
  /\ (0 < rows -> 0 < start_idx ->
      cursor = snd (visible_window total cursor rows) - 1)
  /\ (rows <= 0 ->
      snd (visible_window total cursor rows)
      <= fst (visible_window total cursor rows)).
Proof.
  intros Hcursor start_idx.
  assert (Heq : visible_window total cursor rows
                = (start_idx, Z.min total (start_idx + rows))).
  { unfold visible_window. fold start_idx.
    destruct (Z.eqb_spec (Z.min total (start_idx + rows)) total) as [E | E];
      [| reflexivity].
    f_equal. subst start_idx. lia. }
  rewrite Heq. cbn [fst snd]. subst start_idx.
  split; [reflexivity |]. split; lia.
Qed.

Lemma window_adjustment_is_idle_witness :
  visible_window 10 9 3 = (7, 10)
  /\ 9 = snd (visible_window 10 9 3) - 1.
Proof.
  assert (Hcursor : 0 <= 9 < 10) by lia.
  destruct (window_adjustment_is_idle 10 9 3 Hcursor) as (Heq & Hlast & _).
  split; [exact Heq | apply Hlast; cbv; reflexivity].
Defined.

(** ** Case in the search *)

Lemma lower_char_idem (c : ascii) : lower_char (lower_char c) = lower_char c.
Proof.
  destruct c as [b0 b1 b2 b3 b4 b5 b6 b7].
  destruct b0, b1, b2, b3, b4, b5, b6, b7; reflexivity.
Qed.

Lemma lower_idem (s : string) : lower (lower s) = lower s.
Proof.
  unfold lower. induction s as [| a r IH]; cbn [str_map]; [reflexivity |].
  now rewrite lower_char_idem, IH.
Qed.

Lemma lower_is_empty (s : string) : str_is_empty (lower s) = str_is_empty s.
Proof. now destruct s. Qed.

(** X21: the search does not look at the case of the query: the
    lower-cased query gives the same explorer as the query itself,
    and so do any two queries that differ in case only. *)
Theorem search_ignores_query_case (ratio : string -> string -> Q)
  (self : FileExplorer) :
  (forall query : string,
      handle_search ratio (lower query) self = handle_search ratio query self)
  /\ (forall q1 q2 : string,
        lower q1 = lower q2 ->
        handle_search ratio q1 self = handle_search ratio q2 self).
Proof.
  assert (Hlow : forall query : string,
             handle_search ratio (lower query) self
             = handle_search ratio query self).
  { intros query. unfold handle_search, search_score.
    now rewrite lower_is_empty, lower_idem. }
  split; [exact Hlow |].
  intros q1 q2 Heq. now rewrite <- (Hlow q1), <- (Hlow q2), Heq.
Qed.

Lemma search_ignores_query_case_witness :
  handle_search indel_ratio "B" two_matches
  = handle_search indel_ratio "b" two_matches.
Proof.
  apply (proj2 (search_ignores_query_case indel_ratio two_matches)).
  reflexivity.
Defined.

(** ** What [render_ui] draws *)

Example render_home :
  render_ui 12 40 on_secret
  = Some [ (0, text_of "/home");
           (2, (tree_prefix ++ text_of "../")%list);
           (3, (tree_prefix ++ text_of "secret/" ++ cursor_marker)%list);
           (4, (tree_prefix ++ text_of "subdir/")%list);
           (5, (tree_prefix ++ text_of "note-1.md")%list);
           (6, (tree_prefix ++ text_of "note.md")%list);
           (7, (tree_prefix ++ text_of "script.py")%list);
           (8, (last_prefix ++ text_of "test.txt")%list);
           (11, firstn 39 (status_text on_secret (items on_secret))) ].
Proof. vm_compute. reflexivity. Qed.

(** [render_ui] as the header, the bar of the mode, the listing and
    the status line. *)
Lemma render_ui_parts (height width : Z) (self : FileExplorer) :
  render_ui height width self =
  match listing height width self with
  | Some calls =>
      Some ((0, header_text width (current_path self))
            :: mode_bar width self ++ calls
            ++ [(height - 1, clip width (status_text self (active_list self)))])%list
  | None => None
  end.
Proof.
  unfold render_ui, listing, mode_bar, clip, list_top, active_list.
  destruct (search_mode self), (note_mode self); reflexivity.
Qed.

Lemma len_app {A : Type} (a b : list A) : len (a ++ b) = len a + len b.
Proof. unfold len. rewrite length_app. lia. Qed.

Lemma len_slice_to {A : Type} (t : list A) (j : Z) :
  len (slice_to t j)
  = if j <? 0 then Z.max 0 (len t + j) else Z.min j (len t).
Proof.
  unfold slice_to, slice_bound, len. rewrite length_firstn.
  destruct (Z.ltb_spec j 0); lia.
Qed.

Lemma len_slice_from {A : Type} (t : list A) (i : Z) :
  len (slice_from t i)
  = len t - (if i <? 0 then Z.max 0 (len t + i) else Z.min i (len t)).
Proof.
  unfold slice_from, slice_bound, len. rewrite length_skipn.
  destruct (Z.ltb_spec i 0); lia.
Qed.

Lemma clip_fits (width : Z) (t : text) :
  1 <= width -> len (clip width t) <= width - 1.
Proof.
  intros Hw. unfold clip.
  destruct (Z.ltb_spec (width - 1) (len t)); [| lia].
  rewrite len_slice_to. destruct (Z.ltb_spec (width - 1) 0); lia.
Qed.

Lemma header_fits (width : Z) (p : path) :
  5 <= width -> len (header_text width p) <= width - 1.
Proof.
  intros Hw. unfold header_text. cbv zeta.
  destruct (Z.ltb_spec (width - 1) (len (text_of (str_of_path p)))); [| lia].
  rewrite len_app, len_slice_from.
  change (len (text_of "...")) with 3.
  destruct (Z.ltb_spec (- (width - 4)) 0); lia.
Qed.

Lemma entry_bar_fits (width : Z) (label typed : string) :
  1 <= width -> len (entry_bar width label typed) <= width - 1.
Proof.
  intros Hw. unfold entry_bar. cbv zeta. rewrite len_slice_to.
  destruct (Z.ltb_spec (width - 1) 0); lia.
Qed.

Lemma display_line_fits (width cursor total i : Z) (name : string) :
  1 <= width -> len (display_line width cursor total i name) <= width - 1.
Proof. intros Hw. apply (clip_fits width _ Hw). Qed.

(** With four columns or more the line of the cursor ends with the
    marker, whatever had to be cut before it. *)
Lemma display_line_marker (width cursor total : Z) (name : string) :
  4 <= width ->
  exists k : nat,
    display_line width cursor total cursor name
    = (firstn k ((if cursor =? total - 1 then last_prefix else tree_prefix)
                 ++ text_of name) ++ cursor_marker)%list.
Proof.
  intros Hw. unfold display_line. cbv zeta. rewrite Z.eqb_refl.
  match goal with
  | |- context [len ?l <? width - 3] => set (line := l)
  end.
  match goal with
  | |- exists k, _ = (firstn k ?t ++ _)%list => change t with line
  end.
  assert (Hmark : len cursor_marker = 2) by reflexivity.
  destruct (Z.ltb_spec (len line) (width - 3)) as [Hroom | Hfull].
  - exists (List.length line). rewrite firstn_all.
    destruct (Z.ltb_spec (width - 1) (len (line ++ cursor_marker)));
      [rewrite len_app in *; lia | reflexivity].
  - exists (slice_bound line (width - 4)). fold (slice_to line (width - 4)).
    destruct (Z.ltb_spec (width - 1)
                (len (slice_to line (width - 4) ++ cursor_marker)%list))
      as [Hlong | Hfit]; [| reflexivity].
    rewrite len_app, len_slice_to in Hlong.
    destruct (Z.ltb_spec (width - 4) 0); lia.
Qed.

Lemma py_index_in_range {A : Type} (l : list A) (i : Z) :
  0 <= i < len l -> exists x : A, py_index l i = Some x.
Proof.
  intros Hi. unfold py_index.
  destruct (Z.leb_spec 0 i); [| lia].
  destruct (Z.ltb_spec i (len l)); [| lia]. cbn [andb].
  destruct (nth_error l (Z.to_nat i)) as [x |] eqn:En; [now exists x |].
  apply nth_error_None in En. unfold len in Hi. lia.
Qed.

Lemma upto_bounds (n : nat) (a x : Z) :
  In x (upto n a) -> a <= x < a + Z.of_nat n.
Proof.
  revert a. induction n as [| n IH]; intros a; cbn [upto In]; [tauto |].
  intros [<- | Hin]; [lia |]. apply IH in Hin. lia.
Qed.

Lemma upto_sorted (n : nat) (a : Z) : StronglySorted Z.lt (upto n a).
Proof.
  revert a. induction n as [| n IH]; intros a; cbn [upto]; constructor.
  - apply IH.
  - apply Forall_forall. intros x Hx. apply upto_bounds in Hx. lia.
Qed.

Lemma StronglySorted_app {A : Type} (R : A -> A -> Prop) (l1 l2 : list A) :
  StronglySorted R l1 -> StronglySorted R l2 ->
  (forall x y, In x l1 -> In y l2 -> R x y) ->
  StronglySorted R (l1 ++ l2).
Proof.
  induction 1 as [| x l Hs IH Hx]; intros H2 Hcross; [exact H2 |].
  cbn [app]. constructor.
  - apply IH; [exact H2 |]. intros a b Ha Hb. apply Hcross; [now right | exact Hb].
  - apply Forall_app. split; [exact Hx |].
    apply Forall_forall. intros y Hy. apply Hcross; [now left | exact Hy].
Qed.

(** The loop over the window.  The indices it is given are inside the
    list, so no index fails; the rows it draws on are consecutive and
    end before [height - 2]; every line is cut to the window; and if
    there is room for all of the indices, each is drawn. *)
Lemma draw_items_upto (height width cursor : Z) (its : list Item) (n : nat) :
  forall a row : Z,
    0 <= a ->
    ((0 < n)%nat -> a + Z.of_nat n <= len its) ->
    exists calls : list (Z * text),
      draw_items height width cursor its (upto n a) row = Some calls
      /\ map fst calls = upto (List.length calls) row
      /\ (calls <> [] -> row + len calls <= height - 2)
      /\ Forall (fun call => 1 <= width -> len (snd call) <= width - 1) calls
      /\ (row + Z.of_nat n <= height - 2 ->
          forall (i : Z) (item : Item),
            a <= i < a + Z.of_nat n ->
            py_index its i = Some item ->
            In (row + (i - a),
                display_line width cursor (len its) i (item_name item)) calls).
Proof.
  induction n as [| n IH]; intros a row Ha Hb.
  - exists []. cbn [upto draw_items]. repeat split; auto; try congruence.
    intros _ i item Hi. lia.
  - cbn [upto draw_items].
    destruct (Z.leb_spec (height - 2) row) as [Hbreak | Hgo].
    + exists []. repeat split; auto; try congruence.
      intros Hroom. lia.
    + destruct (py_index_in_range its a) as (first & Hfirst);
        [specialize (Hb ltac:(lia)); lia |].
      rewrite Hfirst.
      destruct (IH (Z.succ a) (row + 1)) as (calls & Hrun & Hrows & Hlast & Hfit & Hin);
        [lia | intros Hn; specialize (Hb ltac:(lia)); lia |].
      rewrite Hrun.
      exists ((row, display_line width cursor (len its) a (item_name first))
              :: calls).
      split; [reflexivity |]. split.
      { cbn [map fst List.length upto]. now rewrite Hrows. }
      split.
      { intros _. destruct calls as [| call calls'].
        - unfold len. cbn [List.length]. lia.
        - assert (Hne : call :: calls' <> []) by discriminate.
          specialize (Hlast Hne). unfold len in *. cbn [List.length] in *. lia. }
      split.
      { constructor; [| exact Hfit].
        intros Hw. now apply display_line_fits. }
      intros Hroom i item Hi Hitem.
      destruct (Z.eq_dec i a) as [-> | Hne].
      * left. rewrite Hfirst in Hitem. inversion Hitem; subst.
        f_equal. lia.
      * right. replace (row + (i - a)) with (row + 1 + (i - Z.succ a)) by lia.
        apply Hin; [lia | lia | exact Hitem].
Qed.

Lemma window_bounds (total cursor rows : Z) :
  0 <= total ->
  0 <= fst (visible_window total cursor rows)
  /\ snd (visible_window total cursor rows) <= total.
Proof.
  intros Ht. unfold visible_window.
  destruct (Z.eqb_spec
              (Z.min total (Z.max 0 (cursor - rows + 1) + rows)) total);
    cbn [fst snd]; lia.
Qed.

Lemma window_holds_cursor (total cursor rows : Z) :
  0 <= cursor < total -> 0 < rows ->
  fst (visible_window total cursor rows) <= cursor
  /\ cursor < snd (visible_window total cursor rows)
  /\ snd (visible_window total cursor rows)
     - fst (visible_window total cursor rows) <= rows.
Proof.
  intros Hc Hr. unfold visible_window.
  destruct (Z.eqb_spec
              (Z.min total (Z.max 0 (cursor - rows + 1) + rows)) total);
    cbn [fst snd]; lia.
Qed.

(** The listing never raises; its rows are consecutive from the top
    of the list and stay above the status line; and its lines are cut
    to the window, the message of the empty list apart. *)
Lemma listing_spec (height width : Z) (self : FileExplorer) :
  exists calls : list (Z * text),
    listing height width self = Some calls
    /\ map fst calls = upto (List.length calls) (list_top self)
    /\ (calls <> [] -> list_top self + len calls <= height - 1)
    /\ Forall (fun call =>
                 1 <= width ->
                 len (snd call) <= width - 1 \/ snd call = no_files_text) calls.
Proof.
  unfold listing. cbv zeta.
  destruct (nonempty (active_list self)) eqn:Hne.
  - set (total := len (active_list self)).
    set (window := visible_window total (cursor_position self)
                     (height - list_top self - 2)).
    assert (Htotal : 0 <= total) by (unfold total, len; lia).
    destruct (window_bounds total (cursor_position self)
                (height - list_top self - 2) Htotal) as [Hlo Hhi].
    fold window in Hlo, Hhi. unfold range.
    destruct (draw_items_upto height width (cursor_position self)
                (active_list self) (Z.to_nat (snd window - fst window))
                (fst window) (list_top self) Hlo)
      as (calls & Hrun & Hrows & Hlast & Hfit & _).
    { intros Hn. fold total. lia. }
    exists calls. split; [exact Hrun |]. split; [exact Hrows |].
    split; [intros Hc; specialize (Hlast Hc); lia |].
    eapply Forall_impl; [| exact Hfit]. intros call Hcall Hw. left. auto.
  - destruct (Z.ltb_spec (list_top self) (height - 1)) as [Hroom | Hnone].
    + exists [(list_top self, no_files_text)].
      split; [reflexivity |]. split; [reflexivity |].
      split; [intros _; unfold len; cbn [List.length]; lia |].
      constructor; [intros _; now right | constructor].
    + exists []. repeat split; auto. congruence.
Qed.

Lemma list_top_cases (width : Z) (self : FileExplorer) :
  (list_top self = 2 /\ mode_bar width self = [])
  \/ (list_top self = 3
      /\ exists bar : text,
           mode_bar width self = [(1, bar)]
           /\ (1 <= width -> len bar <= width - 1)).
Proof.
  unfold list_top, mode_bar.
  destruct (search_mode self); [| destruct (note_mode self)]; cbn [orb].
  - right. split; [reflexivity |]. eexists. split; [reflexivity |].
    apply entry_bar_fits.
  - right. split; [reflexivity |]. eexists. split; [reflexivity |].
    apply entry_bar_fits.
  - now left.
Qed.

(** X22: [render_ui] never raises [IndexError], whatever the cursor
    is: every index of its loop is inside the displayed list.  It
    draws the header on row 0 and the status line last, on the
    bottom row; and on a window of three rows or more no two of its
    calls draw on the same row: the rows increase from call to call
    and lie inside the window. *)
Theorem render_ui_rows (height width : Z) (self : FileExplorer) :
  exists (body : list (Z * text)) (status : text),
    render_ui height width self
    = Some ((0, header_text width (current_path self)) :: body
            ++ [(height - 1, status)])%list
    /\ (3 <= height ->
        StronglySorted Z.lt
          (map fst ((0, header_text width (current_path self)) :: body
                    ++ [(height - 1, status)])%list)
        /\ Forall (fun call => 0 < fst call < height - 1) body).
Proof.
  rewrite render_ui_parts.
  destruct (listing_spec height width self)
    as (calls & Hrun & Hrows & Hlast & _).
  rewrite Hrun.
  exists (mode_bar width self ++ calls)%list,
    (clip width (status_text self (active_list self))).
  split; [now rewrite <- app_assoc |].
  intros Hh.
  assert (Hcalls : Forall (fun r => list_top self <= r < height - 1)
                     (map fst calls)).
  { apply Forall_forall. intros r Hr. rewrite Hrows in Hr.
    apply upto_bounds in Hr.
    assert (Hne : calls <> []) by (intros ->; cbn in Hr; lia).
    specialize (Hlast Hne). unfold len in Hlast. lia. }
  assert (Hbar : Forall (fun r => 0 < r < list_top self /\ r < height - 1)
                   (map fst (mode_bar width self))
                 /\ StronglySorted Z.lt (map fst (mode_bar width self))
                 /\ 0 < list_top self).
  { destruct (list_top_cases width self)
      as [[-> ->] | [-> (bar & -> & _)]]; cbn [map fst].
    - split; [constructor |]. split; [constructor | lia].
    - split; [constructor; [lia | constructor] |].
      split; [repeat constructor | lia]. }
  destruct Hbar as (Hbar & Hbars & Htop).
  assert (Hbody : Forall (fun r => 0 < r < height - 1)
                    (map fst (mode_bar width self ++ calls)%list)).
  { rewrite map_app. apply Forall_app. split.
    - eapply Forall_impl; [| exact Hbar]. cbv beta. intros r Hr. lia.
    - eapply Forall_impl; [| exact Hcalls]. cbv beta. intros r Hr. lia. }
  split.
  - cbn [map fst]. constructor.
    + rewrite map_app. cbn [map fst]. apply StronglySorted_app.
      * rewrite map_app. apply StronglySorted_app;
          [exact Hbars | rewrite Hrows; apply upto_sorted |].
        intros x y Hx Hy.
        rewrite Forall_forall in Hbar, Hcalls.
        specialize (Hbar x Hx). specialize (Hcalls y Hy). lia.
      * repeat constructor.
      * intros x y Hx [<- | []].
        rewrite Forall_forall in Hbody. specialize (Hbody x Hx). lia.
    + rewrite map_app. apply Forall_app. split.
      * eapply Forall_impl; [| exact Hbody]. cbv beta. intros r Hr. lia.
      * repeat constructor. cbn [fst]. lia.
  - rewrite Forall_forall in *. intros call Hcall.
    apply Hbody. now apply in_map.
Qed.

Lemma render_ui_rows_witness :
  exists (body : list (Z * text)) (status : text),
    render_ui 12 40 on_secret
    = Some ((0, text_of "/home") :: body ++ [(11, status)])%list
    /\ Forall (fun call => 0 < fst call < 11) body.
Proof.
  destruct (render_ui_rows 12 40 on_secret) as (body & status & Hrun & Hrows).
  exists body, status. split; [exact Hrun |].
  apply Hrows. lia.
Defined.

(** X23: on a window of five columns or more every text [render_ui]
    draws has at most [width - 1] characters, but for the message
    shown for an empty list, which is drawn as it is and needs twenty
    columns. *)
Theorem render_ui_texts_fit (height width : Z) (self : FileExplorer)
  (calls : list (Z * text)) :
  5 <= width ->
  render_ui height width self = Some calls ->
  Forall (fun call =>
            len (snd call) <= width - 1 \/ snd call = no_files_text) calls
  /\ (20 <= width -> Forall (fun call => len (snd call) <= width - 1) calls).
Proof.
  intros Hw Hrun.
  assert (Hall : Forall (fun call =>
                           len (snd call) <= width - 1
                           \/ snd call = no_files_text) calls).
  { rewrite render_ui_parts in Hrun.
    destruct (listing_spec height width self)
      as (drawn & Hlist & _ & _ & Hfit).
    rewrite Hlist in Hrun. inversion Hrun; subst; clear Hrun.
    constructor; [left; now apply header_fits |].
    apply Forall_app. split.
    { destruct (list_top_cases width self)
        as [[_ ->] | [_ (bar & -> & Hbar)]]; [constructor |].
      repeat constructor. cbn [snd]. apply Hbar. lia. }
    apply Forall_app. split.
    { eapply Forall_impl; [| exact Hfit]. cbv beta. intros call Hcall.
      apply Hcall. lia. }
    repeat constructor. cbn [snd]. apply clip_fits. lia. }
  split; [exact Hall |].
  intros Hwide. eapply Forall_impl; [| exact Hall]. cbv beta.
  intros call [Hfit | ->]; [exact Hfit |].
  change (len no_files_text) with 19. lia.
Qed.

Lemma render_ui_texts_fit_witness :
  exists calls : list (Z * text),
    render_ui 12 40 on_secret = Some calls
    /\ Forall (fun call => len (snd call) <= 39) calls.
Proof.
  destruct (render_ui 12 40 on_secret) as [calls |] eqn:Hrun;
    [| discriminate Hrun].
  exists calls. split; [reflexivity |].
  assert (Hw : 5 <= 40) by lia.
  apply (proj2 (render_ui_texts_fit 12 40 on_secret calls Hw Hrun)). lia.
Defined.

(** X24: under the cursor invariant, on a window with at least one
    row for the list and four columns or more, the entry under the
    cursor is drawn, on a row between the top of the list and the
    status line, and its line ends with the cursor marker: it is the
    tree prefix and the name, cut if they are too long, followed by
    [ ◀]. *)
Theorem render_ui_shows_cursor (height width : Z) (self : FileExplorer)
  (selected : Item) :
  cursor_ok self ->
  py_index (active_list self) (cursor_position self) = Some selected ->
  list_top self + 3 <= height ->
  4 <= width ->
  exists (calls : list (Z * text)) (row : Z) (k : nat),
    render_ui height width self = Some calls
    /\ list_top self <= row < height - 2
    /\ In (row,
           (firstn k
              ((if cursor_position self =? len (active_list self) - 1
                then last_prefix else tree_prefix)
               ++ text_of (item_name selected))
            ++ cursor_marker)%list) calls.
Proof.
  intros Hok Hsel Hh Hw.
  pose proof (py_index_nonempty _ _ _ Hsel) as Hne.
  set (total := len (active_list self)).
  set (rows := height - list_top self - 2).
  assert (Hcur : 0 <= cursor_position self < total).
  { unfold cursor_ok in Hok. unfold total.
    destruct (active_list self); [discriminate Hne | exact Hok]. }
  destruct (window_holds_cursor total (cursor_position self) rows Hcur)
    as (Hlo & Hhi & Hsize); [unfold rows; lia |].
  destruct (window_bounds total (cursor_position self) rows) as [Hstart Hend];
    [lia |].
  set (window := visible_window total (cursor_position self) rows) in *.
  destruct (draw_items_upto height width (cursor_position self)
              (active_list self) (Z.to_nat (snd window - fst window))
              (fst window) (list_top self) Hstart)
    as (drawn & Hrun & _ & _ & _ & Hin).
  { intros _. fold total. lia. }
  specialize (Hin ltac:(unfold rows in Hsize; lia)
                (cursor_position self) selected ltac:(lia) Hsel).
  fold total in Hin.
  destruct (display_line_marker width (cursor_position self) total
              (item_name selected) Hw) as (k & Hline).
  rewrite Hline in Hin.
  exists ((0, header_text width (current_path self))
          :: mode_bar width self ++ drawn
          ++ [(height - 1, clip width (status_text self (active_list self)))])%list,
    (list_top self + (cursor_position self - fst window)), k.
  split.
  { rewrite render_ui_parts. unfold listing. cbv zeta. rewrite Hne.
    fold total rows window. unfold range. now rewrite Hrun. }
  split; [unfold rows in Hsize; lia |].
  right. apply in_or_app. right. apply in_or_app. left. exact Hin.
Qed.

Lemma render_ui_shows_cursor_witness :
  exists (calls : list (Z * text)) (row : Z) (k : nat),
    render_ui 12 40 on_secret = Some calls
    /\ 2 <= row < 10
    /\ In (row,
           (firstn k (tree_prefix ++ text_of "secret/") ++ cursor_marker)%list)
         calls.
Proof.
  assert (Hok : cursor_ok on_secret) by (vm_compute; split; congruence).
  assert (Hsel : py_index (active_list on_secret) (cursor_position on_secret)
                 = Some (mkItem "secret/" true ["home"; "secret"]))
    by (vm_compute; reflexivity).
  assert (Hh : list_top on_secret + 3 <= 12) by (vm_compute; discriminate).
  assert (Hw : 4 <= 40) by lia.
  destruct (render_ui_shows_cursor 12 40 on_secret _ Hok Hsel Hh Hw)
    as (calls & row & k & Hrun & Hrow & Hin).
  exists calls, row, k.
  split; [exact Hrun |]. split; [exact Hrow | exact Hin].
Defined.
